(** * Scoring pipeline of job-agent-mvp: a shallow embedding

    The development follows [src/score_new_jobs.py], [src/utils.py],
    [src/pipeline.py] and the older scorer of [src/score_existing_jobs.py].
    Python values are embedded as an inductive type of
    JSON-shaped values, Python exceptions as an error result, and the calls to
    the record store and to the language model as events of an explicit
    world that is threaded through the orchestration code.

    Conventions.
    - A Python [str] is a Rocq [string]; every [ascii] stands for one code
      point below 256.
    - A Python [dict] is an association list in insertion order.
    - [None] is [JNull].
    - Of the lines that the code prints, the trace keeps those that tell a
      decision (warnings, skips, dropped fields, failures); the progress
      lines are left out. *)

From Stdlib Require Import ZArith List String Ascii Bool Lia Arith DecimalString.
From Stdlib Require Import Floats.SpecFloat.
Import ListNotations.

Open Scope string_scope.
Open Scope list_scope.
Open Scope nat_scope.

(** String concatenation, written apart from list append. *)
Infix "^^" := String.append (at level 60, right associativity).

(** ** Python values and exceptions *)

Inductive exn : Type :=
| AttributeError
| TypeError
| ValueError
| OverflowError
| KeyError
| IndexError
| FileNotFoundError
| UnicodeDecodeError
| RuntimeError
| TransportError (msg : string).

Inductive res (A : Type) : Type :=
| Ok (a : A)
| Raise (e : exn).
Arguments Ok {A} a.
Arguments Raise {A} e.

(** A value as [json.loads] builds it.  Floats keep the IEEE shape
    ([S754_infinity] and [S754_nan] are what [json.loads] returns for
    [Infinity], [1e999] and [NaN]). *)
#[warnings="-register-all"]
Inductive json : Type :=
| JNull
| JBool (b : bool)
| JInt (z : Z)
| JFloat (f : spec_float)
| JStr (s : string)
| JList (l : list json)
| JDict (d : list (string * json)).

Definition pydict := list (string * json).

(** [d.get(k)]: the value, or [None]. *)
Fixpoint dget (d : pydict) (k : string) : json :=
  match d with
  | [] => JNull
  | (k', v) :: d' => if String.eqb k' k then v else dget d' k
  end.

(** [d.get(k, dflt)]. *)
Fixpoint dget_default (d : pydict) (k : string) (dflt : json) : json :=
  match d with
  | [] => dflt
  | (k', v) :: d' => if String.eqb k' k then v else dget_default d' k dflt
  end.

(** [k in d]. *)
Fixpoint dmem (d : pydict) (k : string) : bool :=
  match d with
  | [] => false
  | (k', _) :: d' => String.eqb k' k || dmem d' k
  end.

(** [d[k] = v]: replaces in place, or appends. *)
Fixpoint dset (d : pydict) (k : string) (v : json) : pydict :=
  match d with
  | [] => [(k, v)]
  | (k', v') :: d' => if String.eqb k' k then (k', v) :: d' else (k', v') :: dset d' k v
  end.

(** [del d[k]] for a key that is present. *)
Definition ddel (d : pydict) (k : string) : pydict :=
  filter (fun kv => negb (String.eqb (fst kv) k)) d.

(** Truth value of a Python object. *)
Definition truthy (v : json) : bool :=
  match v with
  | JNull => false
  | JBool b => b
  | JInt z => negb (Z.eqb z 0)
  | JFloat (S754_zero _) => false
  | JFloat _ => true
  | JStr s => negb (String.eqb s "")
  | JList l => match l with [] => false | _ => true end
  | JDict d => match d with [] => false | _ => true end
  end.

(** [a or b]. *)
Definition py_or (a b : json) : json := if truthy a then a else b.

Definition is_none (v : json) : bool :=
  match v with JNull => true | _ => false end.

(** ** Characters and whitespace *)

Definition chars := list ascii.

Definition code (c : ascii) : nat := nat_of_ascii c.

(** [str.isspace] on the code points below 256: TAB..CR, FS..US, space,
    NEL and NBSP.  The same class is [\s] of the [re] module for [str]
    patterns. *)
Definition is_space (c : ascii) : bool :=
  let n := code c in
  ((9 <=? n) && (n <=? 13)) || ((28 <=? n) && (n <=? 32))
  || (n =? 133) || (n =? 160).

Definition nl : ascii := ascii_of_nat 10.
Definition cr : ascii := ascii_of_nat 13.

Fixpoint lstrip (s : chars) : chars :=
  match s with
  | [] => []
  | c :: t => if is_space c then lstrip t else s
  end.

Fixpoint rstrip (s : chars) : chars :=
  match s with
  | [] => []
  | c :: t =>
      match rstrip t with
      | [] => if is_space c then [] else [c]
      | r => c :: r
      end
  end.

(** [s.strip()] *)
Definition strip (s : chars) : chars := rstrip (lstrip s).

Definition py_strip (s : string) : string :=
  string_of_list_ascii (strip (list_ascii_of_string s)).

(** [len(s)] *)
Definition py_len (s : string) : nat := String.length s.


(** ** String helpers *)

Definition ascii_lower (c : ascii) : ascii :=
  let n := code c in
  if (65 <=? n) && (n <=? 90) then ascii_of_nat (n + 32) else c.

(** [str.lower] on the code points below 256. *)
Definition char_lower (c : ascii) : ascii :=
  let n := code c in
  if ((65 <=? n) && (n <=? 90))
     || ((192 <=? n) && (n <=? 222) && negb (n =? 215))
  then ascii_of_nat (n + 32) else c.

Definition py_lower (s : string) : string :=
  string_of_list_ascii (map char_lower (list_ascii_of_string s)).

Definition ascii_eqb (a b : ascii) : bool := Ascii.eqb a b.

(** [s.startswith(p)] *)
Fixpoint starts_with (p s : chars) : bool :=
  match p, s with
  | [], _ => true
  | a :: p', b :: s' => ascii_eqb a b && starts_with p' s'
  | _ :: _, [] => false
  end.

(** The same under [re.IGNORECASE]; the pattern [p] is in lower case. *)
Fixpoint starts_with_ci (p s : chars) : bool :=
  match p, s with
  | [], _ => true
  | a :: p', b :: s' => ascii_eqb a (ascii_lower b) && starts_with_ci p' s'
  | _ :: _, [] => false
  end.

(** Offset of the first [c] in [s]. *)
Fixpoint index_of (c : ascii) (s : chars) : option nat :=
  match s with
  | [] => None
  | b :: t => if ascii_eqb c b then Some 0
              else match index_of c t with Some n => Some (S n) | None => None end
  end.

(** Offset of the last [c] in [s]. *)
Fixpoint last_index_of (c : ascii) (s : chars) : option nat :=
  match s with
  | [] => None
  | b :: t => match last_index_of c t with
              | Some n => Some (S n)
              | None => if ascii_eqb c b then Some 0 else None
              end
  end.

(** Offset of the first place where [p] occurs in [s]. *)
Fixpoint find_sub (p s : chars) : option nat :=
  if starts_with p s then Some 0
  else match s with
       | [] => None
       | _ :: t => match find_sub p t with Some n => Some (S n) | None => None end
       end.

Fixpoint find_sub_ci (p s : chars) : option nat :=
  if starts_with_ci p s then Some 0
  else match s with
       | [] => None
       | _ :: t => match find_sub_ci p t with Some n => Some (S n) | None => None end
       end.

(** [p in s] for strings. *)
Definition contains (p s : string) : bool :=
  match find_sub (list_ascii_of_string p) (list_ascii_of_string s) with
  | Some _ => true
  | None => false
  end.

(** Length of the leading run of whitespace. *)
Fixpoint space_run (s : chars) : nat :=
  match s with
  | c :: t => if is_space c then S (space_run t) else 0
  | [] => 0
  end.

(** [re.sub] and [str.replace] for a pattern that never matches the empty
    string: [m s] is the length of the match that starts at the head of [s].
    The scan is leftmost and non-overlapping; [skip] counts the characters of
    the current match still to be dropped. *)
Section Substitute.
Variable m : chars -> option nat.
Variable repl : chars.

Fixpoint sub_go (skip : nat) (s : chars) : chars :=
  match s with
  | [] => []
  | c :: t =>
      match skip with
      | S k => sub_go k t
      | 0 => match m s with
             | Some (S n) => repl ++ sub_go n t
             | _ => c :: sub_go 0 t
             end
      end
  end.

Definition re_sub (s : chars) : chars := sub_go 0 s.
End Substitute.

(** [s.replace(old, new)] *)
Definition str_replace (old new s : chars) : chars :=
  re_sub (fun t => if starts_with old t then Some (List.length old) else None) new s.

Definition py_replace (old new s : string) : string :=
  string_of_list_ascii
    (str_replace (list_ascii_of_string old) (list_ascii_of_string new)
       (list_ascii_of_string s)).

(** [s.split('\n')] *)
Fixpoint split_nl (s : chars) : list chars :=
  match s with
  | [] => [[]]
  | c :: t =>
      if ascii_eqb c nl then [] :: split_nl t
      else match split_nl t with
           | l :: ls => (c :: l) :: ls
           | [] => [[c]]
           end
  end.

(** ['\n'.join(lines)] *)
Fixpoint join_nl (ls : list chars) : chars :=
  match ls with
  | [] => []
  | [l] => l
  | l :: ls' => l ++ nl :: join_nl ls'
  end.

(** [sep.join(items)] on strings. *)
Fixpoint str_join (sep : string) (items : list string) : string :=
  match items with
  | [] => ""
  | [x] => x
  | x :: rest => x ^^ sep ^^ str_join sep rest
  end.

(** Decimal text of a length, as an f-string prints it. *)
Definition str_of_Z (z : Z) : string := NilEmpty.string_of_int (Z.to_int z).
Definition str_of_nat (n : nat) : string := str_of_Z (Z.of_nat n).

(** [s[:n]] *)
Definition str_take (n : nat) (s : string) : string := String.substring 0 n s.

(** ** Text Normalizer: the patterns of [clean_html_to_text] *)

Definition lit (s : string) : chars := list_ascii_of_string s.

Definition gt : ascii := ascii_of_nat 62.
Definition lt : ascii := ascii_of_nat 60.
Definition slash : ascii := ascii_of_nat 47.
Definition amp : ascii := ascii_of_nat 38.

(** [<open[^>]*>.*?</close>] with IGNORECASE and DOTALL: the opening tag
    runs to the first [>], the block to the first closing tag after it. *)
Definition m_block (open close : chars) (s : chars) : option nat :=
  if starts_with_ci open s then
    let r := skipn (List.length open) s in
    match index_of gt r with
    | None => None
    | Some a =>
        match find_sub_ci close (skipn (S a) r) with
        | None => None
        | Some b => Some (List.length open + a + 1 + b + List.length close)
        end
    end
  else None.

(** [<name[^>]*>] with IGNORECASE. *)
Definition m_open_tag (name : chars) (s : chars) : option nat :=
  if starts_with_ci name s then
    match index_of gt (skipn (List.length name) s) with
    | None => None
    | Some a => Some (List.length name + a + 1)
    end
  else None.

(** [<br\s*/?>] with IGNORECASE. *)
Definition m_br (s : chars) : option nat :=
  if starts_with_ci (lit "<br") s then
    let r := skipn 3 s in
    let w := space_run r in
    match skipn w r with
    | a :: b :: _ =>
        if ascii_eqb a slash && ascii_eqb b gt then Some (3 + w + 2)
        else if ascii_eqb a gt then Some (3 + w + 1) else None
    | [a] => if ascii_eqb a gt then Some (3 + w + 1) else None
    | [] => None
    end
  else None.

(** [</li>] with IGNORECASE. *)
Definition m_li_close (s : chars) : option nat :=
  if starts_with_ci (lit "</li>") s then Some 5 else None.

(** [<[^>]+>]: at least one character between the brackets. *)
Definition m_tag (s : chars) : option nat :=
  match s with
  | c :: r =>
      if ascii_eqb c lt then
        match index_of gt r with
        | Some (S a) => Some (S a + 2)
        | _ => None
        end
      else None
  | [] => None
  end.

(** [\n\s*\n+]: a newline, then the whitespace that follows up to and
    including its last newline. *)
Definition m_blank (s : chars) : option nat :=
  match s with
  | c :: r =>
      if ascii_eqb c nl then
        match last_index_of nl (firstn (space_run r) r) with
        | Some p => Some (p + 2)
        | None => None
        end
      else None
  | [] => None
  end.

(** [text.replace('\r\n', '\n').replace('\r', '\n')] *)
Definition normalize_newlines (s : chars) : chars :=
  str_replace [cr] [nl] (str_replace [cr; nl] [nl] s).

(** Lines 365-370: trim every line, collapse blank lines, trim the text. *)
Definition tidy_whitespace (s : chars) : chars :=
  let lines := map strip (split_nl s) in
  strip (re_sub m_blank [nl; nl] (join_nl lines)).

(** Lines 349-360: the tag patterns, in order. *)
Definition strip_markup (s : chars) : chars :=
  let s := re_sub (m_block (lit "<script") (lit "</script>")) [] s in
  let s := re_sub (m_block (lit "<style") (lit "</style>")) [] s in
  let s := re_sub (m_open_tag (lit "<img")) [] s in
  let s := re_sub m_br [nl] s in
  let s := re_sub (m_open_tag (lit "<li")) (lit "- ") s in
  let s := re_sub m_li_close [nl] s in
  re_sub m_tag [] s.

(** ** Results of a scorer run, records of the store, events *)

(** [confidence]: the text "N/A", or [float(c)] of the value [c]. *)
Inductive confidence_t : Type :=
| ConfNA
| ConfFloat (c : json).

(** The dict that [run_single_scorer] returns with status "scored". *)
Record scored : Type := {
  engine : string;
  fit_score : Z;
  next_action : string;
  confidence : confidence_t;
  raw_score : pydict;
  fit_reasons : json;
  gaps_risks : json;
  needs_human_input : json
}.

Inductive scorer_outcome : Type :=
| Scored (r : scored)
| ScorerError (reason : string) (engine_name : string).

(** [results]: engine name to scored result, in insertion order. *)
Definition results_t := list (string * scored).

Section Assoc.
Variable V : Type.

Fixpoint aget (d : list (string * V)) (k : string) : option V :=
  match d with
  | [] => None
  | (k', v) :: d' => if String.eqb k' k then Some v else aget d' k
  end.

Fixpoint aset (d : list (string * V)) (k : string) (v : V) : list (string * V) :=
  match d with
  | [] => [(k, v)]
  | (k', v') :: d' =>
      if String.eqb k' k then (k', v) :: d' else (k', v') :: aset d' k v
  end.
End Assoc.
Arguments aget {V} d k.
Arguments aset {V} d k v.

(** A record of the store: [{id, fields}]. *)
Record at_record : Type := {
  rec_id : string;
  rec_fields : pydict
}.

(** The settings that the scoring code reads. *)
Record settings_t : Type := {
  AIRTABLE_TABLE_JOBS : string;
  AIRTABLE_TABLE_CANDIDATE : string;
  CANDIDATE_PROFILE_ID_FIELD : string;
  CANDIDATE_PROFILE_ID_VALUE : string;
  OPENAI_MODEL_PARSE : string;
  OPENAI_MODEL_SCORE : string
}.

(** State of the prompt file [prompts/job_scorer_perfecter_v1.txt]. *)
Inductive prompt_file : Type :=
| FileMissing
| FileUndecodable
| FileText (s : string).

(** The places that call the language model. *)
Inductive llm_site : Type :=
| JobStructurer
| ScorerFirst
| ScorerRetry.

(** What the process does to the outside: calls of the language model
    (with the calling place as a label), reads and writes of the record
    store, the log lines that report a decision, and the pause between two
    records. *)
Inductive event : Type :=
| EvLLM (site : llm_site) (model prompt : string)
| EvUpdate (table rid : string) (fields : pydict)
| EvList (table : string) (max_records : Z) (formula : option string)
| EvFindOne (table field value : string)
| EvLog (line : string)
| EvSleep.

Record world : Type := {
  llm_calls : nat;
  store_reads : nat;
  store_writes : nat;
  trace : list event
}.

Definition world0 : world :=
  {| llm_calls := 0; store_reads := 0; store_writes := 0; trace := [] |}.

(** ** Exceptions and the world, as a monad *)

Definition M (A : Type) : Type := world -> res A * world.

Definition ret {A} (a : A) : M A := fun w => (Ok a, w).

Definition bind {A B} (m : M A) (k : A -> M B) : M B :=
  fun w => match m w with
           | (Ok a, w') => k a w'
           | (Raise e, w') => (Raise e, w')
           end.

Definition throw {A} (e : exn) : M A := fun w => (Raise e, w).

(** [try: m  except Exception as e: h e] *)
Definition catch {A} (m : M A) (h : exn -> M A) : M A :=
  fun w => match m w with
           | (Ok a, w') => (Ok a, w')
           | (Raise e, w') => h e w'
           end.

Definition lift {A} (r : res A) : M A := fun w => (r, w).

Definition emit (e : event) : M unit :=
  fun w => (Ok tt, {| llm_calls := llm_calls w; store_reads := store_reads w;
                      store_writes := store_writes w; trace := trace w ++ [e] |}).

Definition log (line : string) : M unit := emit (EvLog line).

Notation "x <- m ;; k" := (bind m (fun x => k))
  (at level 61, m at next level, right associativity).
Notation "m ;;; k" := (bind m (fun _ => k))
  (at level 61, right associativity).

Definition NL : string := String nl "".

Definition CLEAN_MIN_LEN : nat := 600.

(** 0.7 as a double. *)
Definition float_0_7 : spec_float := S754_finite false 6305039478318694 (-53).

(** [key in s] for a set of strings. *)
Definition in_set (k : string) (s : list string) : bool :=
  existsb (String.eqb k) s.

Definition valid_actions : list string :=
  ["Apply Now"; "Apply"; "Network First"; "Skip"].

Definition scorer_required_keys : list string :=
  ["fit_score"; "next_action"; "fit_reasons"; "gaps_risks";
   "non_obvious_matches"; "keywords_to_tailor_resume";
   "questions_to_verify"; "confidence"; "needs_human_input"; "debug"].

Definition jobjson_required_keys : list string :=
  ["company"; "job_title"; "location"; "remote_status"; "seniority";
   "apply_type"; "requirements"; "responsibilities"; "keywords";
   "tech_stack"; "needs_human_input"].

(** The static allowlist of [run_scoring], lines 848-854. *)
Definition table_field_names_static : list string :=
  ["FitScore"; "NextAction"; "FitReasons"; "GapsRisks"; "NeedsHumanInput"; "Status";
   "ScoringStatus"; "SkipReason"; "ProcessedAt";
   "Company"; "Location"; "RemoteStatus"; "Requirements"; "Responsibilities";
   "Keywords"; "TechStack"; "JobTitle"; "JobURL"; "JobDescriptionRaw";
   "JobDescriptionText"; "JobJSON";
   "DateFound"; "Source"; "Strategy"; "ScoringAB"; "RunID"].

(** [re.search(r"(\{.*\}|\[.*\])", text, re.S)]: the first brace with a
    closing brace after it, up to the last one, or the same for brackets. *)
Fixpoint find_json_span (s : chars) : option chars :=
  match s with
  | [] => None
  | c :: t =>
      if ascii_eqb c (ascii_of_nat 123) then
        match last_index_of (ascii_of_nat 125) t with
        | Some p => Some (c :: firstn (S p) t)
        | None => find_json_span t
        end
      else if ascii_eqb c (ascii_of_nat 91) then
        match last_index_of (ascii_of_nat 93) t with
        | Some p => Some (c :: firstn (S p) t)
        | None => find_json_span t
        end
      else find_json_span t
  end.

(** [x[:50]] needs a sequence. *)
Definition sliceable (v : json) : bool :=
  match v with JStr _ | JList _ => true | _ => false end.

(** The strings of a list, if all its items are strings. *)
Fixpoint all_strs (l : list json) : option (list string) :=
  match l with
  | [] => Some []
  | JStr s :: t => match all_strs t with Some r => Some (s :: r) | None => None end
  | _ :: _ => None
  end.

(** [5 -> Apply Now, 4 -> Apply, 3 or 2 -> Network First, else Skip] *)
Definition action_of_fit (n : Z) : string :=
  if (n =? 5)%Z then "Apply Now"
  else if (n =? 4)%Z then "Apply"
  else if ((n =? 3) || (n =? 2))%Z then "Network First"
  else "Skip".

(** Line 272: the stripped text when [next_action] is a string. *)
Definition next_action_raw (score : pydict) : option string :=
  match dget score "next_action" with
  | JStr s => Some (py_strip s)
  | _ => None
  end.

(** Lines 273-285. *)
Definition next_action_target (score : pydict) (fit : Z) : string :=
  match next_action_raw score with
  | Some a => if in_set a valid_actions then a else action_of_fit fit
  | None => action_of_fit fit
  end.

(** ** Strategy normalizers *)

(** [utils.normalize_strategy]: the three values of the [Strategy] field. *)
Definition normalize_strategy (raw : string) : string :=
  if String.eqb raw "" then "Network First"
  else
    let normalized := py_lower (py_strip raw) in
    if in_set normalized ["apply"; "yes"; "should apply"] then "Apply"
    else if in_set normalized
              ["network first"; "network"; "reach out"; "reach out first"; "networking"]
    then "Network First"
    else if in_set normalized ["skip"; "pass"; "no"; "dont apply"] then "Skip"
    else if contains "apply" normalized then "Apply"
    else if contains "network" normalized || contains "reach" normalized
    then "Network First"
    else if contains "skip" normalized || contains "pass" normalized then "Skip"
    else "Network First".

(** [pipeline._normalize_strategy]: the four values of [NextAction]. *)
Definition _normalize_strategy (s : string) : string :=
  if String.eqb s "" then "Skip"
  else
    let s_lower := py_lower s in
    if contains "apply now" s_lower then "Apply Now"
    else if contains "apply" s_lower then "Apply"
    else if contains "network" s_lower then "Network First"
    else if contains "skip" s_lower || contains "reject" s_lower then "Skip"
    else "Skip".

(** ** The older cleaner of [score_existing_jobs] *)

(** [\s+]: the leading run of whitespace, when there is one. *)
Definition m_ws (s : chars) : option nat :=
  match space_run s with
  | 0 => None
  | n => Some n
  end.

(** [score_existing_jobs.clean_job_text], lines 122-124: the blocks and
    the tags go. *)
Definition strip_tags (s : chars) : chars :=
  let s := re_sub (m_block (lit "<script") (lit "</script>")) [] s in
  let s := re_sub (m_block (lit "<style") (lit "</style>")) [] s in
  re_sub m_tag [] s.

(** Lines 126-127: every run of whitespace becomes one space, and the
    text is trimmed. *)
Definition collapse_whitespace (s : chars) : chars :=
  strip (re_sub m_ws (lit " ") s).

(** ** Concrete builtins, services and inputs for the examples

    The examples below run the model; they need values for the functions
    that the model takes from the Python library and for the services.  Each
    one is defined on the inputs the examples use and says so. *)

(** [int(s)] for an optionally signed run of ASCII digits between
    whitespace. *)
Fixpoint digits_value (s : chars) (acc : Z) : option Z :=
  match s with
  | [] => Some acc
  | c :: t =>
      let n := code c in
      if (48 <=? n) && (n <=? 57)
      then digits_value t (10 * acc + Z.of_nat (n - 48))%Z
      else None
  end.

Definition ex_int_of_str (s : string) : option Z :=
  match strip (list_ascii_of_string s) with
  | [] => None
  | c :: t =>
      if ascii_eqb c (ascii_of_nat 45) then
        match t with
        | [] => None
        | _ => option_map Z.opp (digits_value t 0%Z)
        end
      else if ascii_eqb c (ascii_of_nat 43) then
        match t with
        | [] => None
        | _ => digits_value t 0%Z
        end
      else digits_value (c :: t) 0%Z
  end.

(** [float(s)] accepts what [int(s)] accepts; the examples use no other
    numeric text. *)
Definition ex_float_of_str (s : string) : bool :=
  match ex_int_of_str s with Some _ => true | None => false end.

(** [str(x)] for [None], booleans and integers. *)
Definition ex_str_other (v : json) : string :=
  match v with
  | JNull => "None"
  | JBool true => "True"
  | JBool false => "False"
  | JInt z => str_of_Z z
  | _ => ""
  end.

(** [json.loads] given by the table of the texts that an example uses;
    any other text is invalid JSON. *)
Definition loads_table (tbl : list (string * json)) (text : string) : option json :=
  aget tbl text.

(** [json.dumps] for values whose strings need no escape and whose finite
    floats are 0.7 or 0.0; [isep] and [ksep] are the separators. *)
Definition quote : string := String (ascii_of_nat 34) "".

Fixpoint print_json (isep ksep : string) (v : json) : string :=
  match v with
  | JNull => "null"
  | JBool true => "true"
  | JBool false => "false"
  | JInt z => str_of_Z z
  | JFloat (S754_zero _) => "0.0"
  | JFloat (S754_infinity false) => "Infinity"
  | JFloat (S754_infinity true) => "-Infinity"
  | JFloat S754_nan => "NaN"
  | JFloat (S754_finite _ _ _) => "0.7"
  | JStr s => quote ^^ s ^^ quote
  | JList l =>
      "[" ^^ (fix items (l : list json) : string :=
                match l with
                | [] => ""
                | [x] => print_json isep ksep x
                | x :: r => print_json isep ksep x ^^ isep ^^ items r
                end) l ^^ "]"
  | JDict d =>
      "{" ^^ (fix items (d : list (string * json)) : string :=
                match d with
                | [] => ""
                | [(k, x)] => quote ^^ k ^^ quote ^^ ksep ^^ print_json isep ksep x
                | (k, x) :: r =>
                    quote ^^ k ^^ quote ^^ ksep ^^ print_json isep ksep x ^^ isep ^^ items r
                end) d ^^ "}"
  end.

Fixpoint insert_key (kv : string * json) (d : list (string * json))
  : list (string * json) :=
  match d with
  | [] => [kv]
  | kv' :: r => if String.leb (fst kv) (fst kv') then kv :: d else kv' :: insert_key kv r
  end.

(** The value with the keys of every dict in order. *)
Fixpoint sort_keys (v : json) : json :=
  match v with
  | JList l => JList (map sort_keys l)
  | JDict d =>
      JDict ((fix go (d : list (string * json)) : list (string * json) :=
                match d with
                | [] => []
                | (k, x) :: r => insert_key (k, sort_keys x) (go r)
                end) d)
  | _ => v
  end.

Definition ex_dumps (v : json) : string := print_json ", " ": " v.
Definition ex_dumps_compact (v : json) : string := print_json "," ":" v.
Definition ex_dumps_sorted (v : json) : string := print_json "," ":" (sort_keys v).

(** [html.unescape] for the references [&lt;], [&gt;] and [&amp;]. *)
Definition m_entity (s : chars) : option (nat * ascii) :=
  if starts_with (lit "&lt;") s then Some (4, lt)
  else if starts_with (lit "&gt;") s then Some (4, gt)
  else if starts_with (lit "&amp;") s then Some (5, amp)
  else None.

Fixpoint unescape_go (skip : nat) (s : chars) : chars :=
  match s with
  | [] => []
  | c :: t =>
      match skip with
      | S k => unescape_go k t
      | 0 => match m_entity s with
             | Some (S n, r) => r :: unescape_go n t
             | _ => c :: unescape_go 0 t
             end
      end
  end.

Definition ex_html_unescape (s : string) : string :=
  string_of_list_ascii (unescape_go 0 (list_ascii_of_string s)).

Definition ex_sha256 (s : string) : string :=
  "0000000000000000000000000000000000000000000000000000000000000000".

Definition ex_exn_str (e : exn) : string :=
  match e with
  | AttributeError => "AttributeError"
  | TypeError => "TypeError"
  | ValueError => "Unknown scorer engine"
  | OverflowError => "cannot convert float infinity to integer"
  | KeyError => "KeyError"
  | IndexError => "list index out of range"
  | FileNotFoundError => "Prompt file not found"
  | UnicodeDecodeError => "UnicodeDecodeError"
  | RuntimeError => "CandidateProfile not found"
  | TransportError msg => msg
  end.

Definition ex_settings : settings_t :=
  {| AIRTABLE_TABLE_JOBS := "Jobs";
     AIRTABLE_TABLE_CANDIDATE := "CandidateProfile";
     CANDIDATE_PROFILE_ID_FIELD := "ProfileID";
     CANDIDATE_PROFILE_ID_VALUE := "ME";
     OPENAI_MODEL_PARSE := "gpt-4o-mini";
     OPENAI_MODEL_SCORE := "gpt-4o-mini" |}.

(** A language model that answers the n-th call with the n-th text. *)
Definition llm_script (replies : list string) (n : nat) (model prompt : string)
  : res string :=
  match nth_error replies n with
  | Some t => Ok t
  | None => Raise (TransportError "no reply")
  end.

(** A store that accepts every write. *)
Definition store_accepts (n : nat) (table rid : string) (fields : pydict) : option exn :=
  None.

(** A store that answers the n-th read with the n-th list. *)
Definition list_script (answers : list (list at_record)) (n : nat) (table : string)
    (max_records : Z) (formula : option string) : res (list at_record) :=
  match nth_error answers n with
  | Some l => Ok l
  | None => Ok []
  end.

Definition find_script (answer : option at_record) (n : nat) (table field value : string)
  : res (option at_record) := Ok answer.

Definition ex_flags (text : string) : json := JDict [].

(** A scorer response with every required key. *)
Definition response (fit action : json) (gaps : list string) (debug : pydict) : pydict :=
  [("fit_score", fit); ("next_action", action); ("fit_reasons", JList []);
   ("gaps_risks", JList (map JStr gaps)); ("non_obvious_matches", JList []);
   ("keywords_to_tailor_resume", JList []); ("questions_to_verify", JList []);
   ("confidence", JFloat float_0_7); ("needs_human_input", JList []);
   ("debug", JDict debug)].

(** [json.loads] on the compact text of each of the given values. *)
Definition loads_of (values : list json) : string -> option json :=
  loads_table (map (fun v => (ex_dumps_compact v, v)) values).

Definition ex_scorer_input : pydict :=
  [("runtime", JDict [("model", JStr "gpt-4o-mini"); ("temperature", JFloat float_0_7)])].

(** The responses of the examples. *)
Definition resp_infinite : pydict :=
  response (JFloat (S754_infinity false)) (JStr "Apply") [] [].
Definition resp_padded_skip : pydict := response (JInt 5) (JStr " Skip ") [] [].
Definition resp_unknown_action : pydict := response (JInt 4) (JStr "Consider") [] [].
Definition resp_fit4 : pydict :=
  response (JInt 4) (JStr "Apply") [] [("hard_gates_passed", JBool true)].
Definition resp_gate_skip : pydict :=
  response (JInt 1) (JStr "Skip") ["Requires active security clearance"] [].
Definition resp_gate_network : pydict :=
  response (JInt 1) (JStr "Network First") ["Requires active security clearance"] [].

(** The results that [run_single_scorer] builds from three of them. *)
Definition scored_of (e : string) (fit : Z) (action : string) (score : pydict) : scored :=
  {| engine := e; fit_score := fit; next_action := action;
     confidence := ConfFloat (JFloat float_0_7); raw_score := score;
     fit_reasons := dget score "fit_reasons";
     gaps_risks := dget score "gaps_risks";
     needs_human_input := dget score "needs_human_input" |}.
Definition scored_fit4 : scored := scored_of "perfecter_v1" 4 "Apply" resp_fit4.
Definition scored_gate_skip : scored := scored_of "v1" 1 "Skip" resp_gate_skip.
Definition scored_gate_network : scored :=
  scored_of "v1" 1 "Network First" resp_gate_network.

(** The records of the examples. *)
Definition rec_sample : at_record :=
  {| rec_id := "rec0";
     rec_fields := [("JobURL", JStr "https://x/0"); ("JobDescriptionRaw", JStr "text")] |}.
Definition rec_blank : at_record :=
  {| rec_id := "rec2";
     rec_fields := [("JobURL", JStr "https://x/2"); ("JobDescriptionRaw", JStr "   ")] |}.
Definition rec_short : at_record :=
  {| rec_id := "rec1";
     rec_fields := [("JobURL", JStr "https://x/1");
                    ("JobDescriptionRaw", JStr "<p>Short &amp; sweet</p>")] |}.
Definition rec_candidate : at_record :=
  {| rec_id := "cand"; rec_fields := [("CandidateJSON", JStr "{}")] |}.
Definition rec_candidate_empty : at_record :=
  {| rec_id := "cand"; rec_fields := [] |}.


(** More inputs: a response of "perfecter_v1" that reports its hard gates
    as failed, a second result with fit score 4, and a reply to the older
    scorer with a score out of range and an action that is not canonical. *)
Definition resp_gate_closed : pydict :=
  response (JInt 1) (JStr "Skip") [] [("hard_gates_passed", JBool false)].
Definition scored_gate_closed : scored :=
  scored_of "perfecter_v1" 1 "Skip" resp_gate_closed.
Definition scored_v1_fit4 : scored := scored_of "v1" 4 "Apply" resp_unknown_action.
Definition legacy_reply : json :=
  JDict [("FitScore", JInt 7); ("NextAction", JStr "Maybe");
         ("FitReasons", JStr "Strong Python")].
Definition ex_format_user_prompt (cleaned : string) : string :=
  "Score this job description: " ^^ cleaned.
(** The text between the braces of the compact form of [{"a": 1}]. *)
Definition body_a1 : string :=
  String (ascii_of_nat 34) "a" ^^ String (ascii_of_nat 34) ":1".


(** ** Predicates of the statements *)

(** Every line of the text is trimmed: a whitespace character other than
    the newline never opens a line and is never followed by a newline or
    by the end of the text.  [at_start] tells whether the text begins at
    the start of a line. *)
Fixpoint lines_trimmed (at_start : bool) (s : chars) : bool :=
  match s with
  | [] => true
  | c :: t =>
      if ascii_eqb c nl then lines_trimmed true t
      else if is_space c then
        negb at_start
        && match t with [] => false | a :: _ => negb (ascii_eqb a nl) end
        && lines_trimmed false t
      else lines_trimmed false t
  end.

Definition starts_two_nl (t : chars) : bool :=
  match t with
  | b :: c :: _ => ascii_eqb b nl && ascii_eqb c nl
  | _ => false
  end.

(** No three newlines in a row. *)
Fixpoint no_triple_nl (s : chars) : bool :=
  match s with
  | [] => true
  | a :: t => negb (ascii_eqb a nl && starts_two_nl t) && no_triple_nl t
  end.

(** The shape of a text that [tidy_whitespace] leaves alone. *)
Definition tidy_normal (s : chars) : Prop :=
  lines_trimmed true s = true /\ no_triple_nl s = true /\ strip s = s.

(** The next action is the one that the mapping gives for the fit score. *)
Definition mapped_from_fit (r : scored) : Prop :=
  (fit_score r = 5%Z /\ next_action r = "Apply Now")
  \/ (fit_score r = 4%Z /\ next_action r = "Apply")
  \/ ((fit_score r = 3%Z \/ fit_score r = 2%Z) /\ next_action r = "Network First")
  \/ (fit_score r = 1%Z /\ next_action r = "Skip").

(** Every event that [m] adds to the trace satisfies [P]. *)
Definition only_events {A} (P : event -> Prop) (m : M A) : Prop :=
  forall w, exists evs, trace (snd (m w)) = trace w ++ evs /\ Forall P evs.

(** The events of the set-up of a run: log lines, the sampling read of
    the table (a list without a formula) and the look-up of the candidate. *)
Definition setup_event (e : event) : Prop :=
  match e with
  | EvLog _ => True
  | EvList _ _ None => True
  | EvFindOne _ _ _ => True
  | _ => False
  end.


(** [m] calls the language model and writes to the store as many times as
    the counters of the world tell: none. *)
Definition quiet {A} (m : M A) : Prop :=
  forall w, llm_calls (snd (m w)) = llm_calls w
            /\ store_writes (snd (m w)) = store_writes w.

(** Every value that [m] returns satisfies [Q]. *)
Definition returns {A} (Q : A -> Prop) (m : M A) : Prop :=
  forall w a w', m w = (Ok a, w') -> Q a.

(** The counters of the world. *)
Inductive counter : Type :=
| Calls
| Reads
| Writes.

Definition count (c : counter) (w : world) : nat :=
  match c with
  | Calls => llm_calls w
  | Reads => store_reads w
  | Writes => store_writes w
  end.

(** [m] leaves the counter as it is, whatever it returns or raises. *)
Definition keeps {A} (c : counter) (m : M A) : Prop :=
  forall w, count c (snd (m w)) = count c w.

(** [m] adds at most [n] to the counter, whatever it returns or raises. *)
Definition at_most {A} (c : counter) (n : nat) (m : M A) : Prop :=
  forall w, count c w <= count c (snd (m w)) <= count c w + n.

(** The running maximum of [select_ab_winner]: after the engines [seen],
    [m] bounds their fit scores, the holder [win] has that score, and
    "perfecter_v1" holds it whenever its own score equals [m]. *)
Definition highest_inv (results : results_t) (seen : list string) (m : Z)
    (win : option string) : Prop :=
  (forall e r, In e seen -> aget results e = Some r -> (fit_score r <= m)%Z)
  /\ match win with
     | None => forall e, In e seen -> aget results e = None
     | Some w => In w seen /\ exists rw, aget results w = Some rw /\ fit_score rw = m
     end
  /\ (forall r, In "perfecter_v1" seen -> aget results "perfecter_v1" = Some r ->
                fit_score r = m -> win = Some "perfecter_v1").

(** Every whitespace character of the text is a plain space, and none is
    followed by another whitespace character. *)
Fixpoint spaces_single (s : chars) : bool :=
  match s with
  | [] => true
  | c :: t =>
      (if is_space c
       then ascii_eqb c (ascii_of_nat 32)
            && match t with a :: _ => negb (is_space a) | [] => true end
       else true)
      && spaces_single t
  end.

(** The number of engines that [score_job_record] runs for a record. *)
Definition engine_count (ab_test : option (list string)) : nat :=
  match ab_test with
  | Some (e :: es) => List.length (e :: es)
  | _ => 1
  end.

(** [int(x)] of a finite float truncates towards zero. *)
Definition float_trunc (s : bool) (m : positive) (e : Z) : Z :=
  let a := if (0 <=? e)%Z then (Z.pos m * 2 ^ e)%Z
           else (Z.pos m / 2 ^ (- e))%Z in
  if s then (- a)%Z else a.

Section Scoring.

(** *** Builtins and standard library functions *)

(** [int(s)] on a string: [None] when it raises [ValueError]. *)
Variable int_of_str : string -> option Z.
(** Whether [float(s)] accepts the string [s]. *)
Variable float_of_str : string -> bool.
(** [str(x)] of a value that is not a string. *)
Variable str_other : json -> string.
(** [json.loads]: [None] when it raises [JSONDecodeError]. *)
Variable json_loads : string -> option json.
(** [json.dumps(x, ensure_ascii=False)], then with the compact
    separators, then also with [sort_keys=True]. *)
Variable json_dumps : json -> string.
Variable json_dumps_compact : json -> string.
Variable json_dumps_sorted : json -> string.
(** [html.unescape] *)
Variable html_unescape : string -> string.
(** [hashlib.sha256(s.encode("utf-8")).hexdigest()] *)
Variable sha256_hexdigest : string -> string.
(** [str(e)] of an exception. *)
Variable exn_str : exn -> string.

(** *** Prompt templates, the clock, the services *)

Variable JOB_PARSE_PROMPT : string.
(** The constant that [load_scorer_prompt] reads for engine "v1"; the
    [prompts.py] of the sources does not spell it out. *)
Variable JOB_SCORER_PROMPT_V1 : string.
Variable perfecter_prompt_file : prompt_file.
(** [build_flags_from_jd]: pattern rules over the cleaned text, total;
    its value only enters the scorer prompt. *)
Variable build_flags_from_jd : string -> json.
(** [generate_run_id()] and [datetime.now(timezone.utc).isoformat()] *)
Variable run_id_now : string.
Variable now_iso : string.

(** The language model: the reply to the n-th call. *)
Variable llm_reply : nat -> string -> string -> res string.
(** The record store: outcome of the n-th write, result of the n-th read. *)
Variable store_update : nat -> string -> string -> pydict -> option exn.
Variable store_list : nat -> string -> Z -> option string -> res (list at_record).
Variable store_find_one : nat -> string -> string -> string -> res (option at_record).

(** *** Service calls *)

(** [openai_client.request_json(model=..., prompt=...)] *)
Definition request_json (site : llm_site) (model prompt : string) : M string :=
  fun w =>
    (llm_reply (llm_calls w) model prompt,
     {| llm_calls := S (llm_calls w); store_reads := store_reads w;
        store_writes := store_writes w;
        trace := trace w ++ [EvLLM site model prompt] |}).

(** [airtable_client.update_record(table, record_id, fields)] *)
Definition update_record (table rid : string) (fields : pydict) : M unit :=
  fun w =>
    (match store_update (store_writes w) table rid fields with
     | None => Ok tt
     | Some e => Raise e
     end,
     {| llm_calls := llm_calls w; store_reads := store_reads w;
        store_writes := S (store_writes w);
        trace := trace w ++ [EvUpdate table rid fields] |}).

(** [airtable.list_records(table, max_records=..., filter_by_formula=...)] *)
Definition list_records (table : string) (max_records : Z) (formula : option string)
  : M (list at_record) :=
  fun w =>
    (store_list (store_reads w) table max_records formula,
     {| llm_calls := llm_calls w; store_reads := S (store_reads w);
        store_writes := store_writes w;
        trace := trace w ++ [EvList table max_records formula] |}).

(** [airtable.find_one(table, id_field, id_value)] *)
Definition find_one (table field value : string) : M (option at_record) :=
  fun w =>
    (store_find_one (store_reads w) table field value,
     {| llm_calls := llm_calls w; store_reads := S (store_reads w);
        store_writes := store_writes w;
        trace := trace w ++ [EvFindOne table field value] |}).

(** *** [utils] *)

Definition py_str (v : json) : string :=
  match v with JStr s => s | _ => str_other v end.

(** The items that [join_lines] and [join_commas] keep. *)
Definition kept_items (items : list json) : list string :=
  map py_str
    (filter (fun x => negb (is_none x) && negb (String.eqb (py_strip (py_str x)) ""))
       items).

Definition join_lines (items : json) : string :=
  match items with
  | JNull => ""
  | JList l => str_join NL (kept_items l)
  | _ => py_str items
  end.

Definition join_commas (items : json) : string :=
  match items with
  | JNull => ""
  | JList l => str_join ", " (kept_items l)
  | _ => py_str items
  end.

Definition merge_notes (a b : string) : string :=
  let a := py_strip a in
  let b := py_strip b in
  if negb (String.eqb a "") && negb (String.eqb b "") then a ^^ NL ^^ b
  else if negb (String.eqb a "") then a else b.

Definition safe_parse_json (text : string) : json :=
  match json_loads text with
  | Some v => v
  | None =>
      match find_json_span (list_ascii_of_string text) with
      | None => JNull
      | Some span =>
          match json_loads (string_of_list_ascii span) with
          | Some (JList l) => JDict [("_list", JList l)]
          | Some (JDict d) => JDict d
          | Some _ => JNull
          | None => JNull
          end
      end
  end.

(** *** Prompt loading *)

Definition load_scorer_prompt (engine_name : string) : res string :=
  if String.eqb engine_name "v1" then Ok JOB_SCORER_PROMPT_V1
  else if String.eqb engine_name "perfecter_v1" then
    match perfecter_prompt_file with
    | FileMissing => Raise FileNotFoundError
    | FileUndecodable => Raise UnicodeDecodeError
    | FileText s => Ok s
    end
  else Raise ValueError.

Definition get_prompt_hash (prompt_text : string) : string :=
  str_take 16 (sha256_hexdigest prompt_text).


(** *** Fit score ([run_single_scorer], lines 261-269) *)

(** [int(x)]. *)
Definition py_int (v : json) : res Z :=
  match v with
  | JNull => Raise TypeError
  | JBool b => Ok (if b then 1 else 0)%Z
  | JInt z => Ok z
  | JFloat (S754_zero _) => Ok 0%Z
  | JFloat (S754_infinity _) => Raise OverflowError
  | JFloat S754_nan => Raise ValueError
  | JFloat (S754_finite s m e) => Ok (float_trunc s m e)
  | JStr s => match int_of_str s with Some z => Ok z | None => Raise ValueError end
  | JList _ => Raise TypeError
  | JDict _ => Raise TypeError
  end.

(** The value that is normalised: [fit_score], else the first truthy
    alias ([a or b or c] yields [c] when none is truthy). *)
Definition raw_fit_score (score : pydict) : json :=
  let v := dget score "fit_score" in
  if is_none v
  then py_or (py_or (dget score "score") (dget score "FitScore")) (dget score "fitScore")
  else v.

(** [try: int(x) if x is not None else 3  except (ValueError, TypeError): 3] *)
Definition int_or_default (v : json) : res Z :=
  match v with
  | JNull => Ok 3%Z
  | _ =>
      match py_int v with
      | Ok z => Ok z
      | Raise ValueError => Ok 3%Z
      | Raise TypeError => Ok 3%Z
      | Raise e => Raise e
      end
  end.

(** [max(1, min(5, n))] *)
Definition clamp_1_5 (n : Z) : Z := Z.max 1 (Z.min 5 n).

Definition normalize_fit_value (v : json) : res Z :=
  match int_or_default v with
  | Ok z => Ok (clamp_1_5 z)
  | Raise e => Raise e
  end.

Definition normalize_fit_score (score : pydict) : res Z :=
  normalize_fit_value (raw_fit_score score).


(** [run_pipeline], lines 196-223: the score and the action, which is
    always the one mapped from the score. *)
Definition pipeline_fit_and_action (score_text : string) : res (Z * string) :=
  match py_or (safe_parse_json score_text) (JDict []) with
  | JDict score =>
      match normalize_fit_score score with
      | Ok fit_score_int => Ok (fit_score_int, action_of_fit fit_score_int)
      | Raise e => Raise e
      end
  | _ => Raise AttributeError
  end.

(** *** Scorer Engine: [run_single_scorer] *)

(** Whether [float(x)] raises, and what. *)
Definition py_float_exn (v : json) : option exn :=
  match v with
  | JNull => Some TypeError
  | JBool _ => None
  | JInt z => if (2 ^ 1024 - 2 ^ 970 <=? Z.abs z)%Z then Some OverflowError else None
  | JFloat _ => None
  | JStr s => if float_of_str s then None else Some ValueError
  | JList _ => Some TypeError
  | JDict _ => Some TypeError
  end.

(** Lines 287-292. *)
Definition normalize_confidence (score : pydict) : res confidence_t :=
  let c := dget_default score "confidence" (JStr "N/A") in
  match c with
  | JStr s =>
      if String.eqb s "N/A" then Ok ConfNA
      else if float_of_str s then Ok (ConfFloat c) else Ok ConfNA
  | _ =>
      match py_float_exn c with
      | None => Ok (ConfFloat c)
      | Some ValueError => Ok ConfNA
      | Some TypeError => Ok ConfNA
      | Some e => Raise e
      end
  end.

(** [if not score or not required_keys.issubset(score.keys())]: [None]
    when the test holds, the dict when it does not; [score.keys()] raises
    on a truthy value that is not a dict. *)
Definition validate_keys (required : list string) (score : json) : res (option pydict) :=
  if negb (truthy score) then Ok None
  else match score with
       | JDict d => if forallb (dmem d) required then Ok (Some d) else Ok None
       | _ => Raise AttributeError
       end.

(** [d[k]] *)
Definition subscript (d : pydict) (k : string) : res json :=
  if dmem d k then Ok (dget d k) else Raise KeyError.

(** [scorer_input["runtime"][k]] *)
Definition runtime_item (scorer_input : pydict) (k : string) : res json :=
  match subscript scorer_input "runtime" with
  | Ok (JDict r) => subscript r k
  | Ok _ => Raise TypeError
  | Raise e => Raise e
  end.

Definition strict_json_instruction : string :=
  NL ^^ NL ^^ "You produced invalid JSON or missing keys. Output STRICT JSON ONLY matching the exact schema.".

(** Lines 261-306: the result built from a validated response. *)
Definition scored_of_response (scorer_engine : string) (score : pydict) : res scored :=
  match normalize_fit_score score with
  | Raise e => Raise e
  | Ok fit_score_int =>
      let next_action_target := next_action_target score fit_score_int in
      match normalize_confidence score with
      | Raise e => Raise e
      | Ok conf =>
          Ok {| engine := scorer_engine;
                fit_score := fit_score_int;
                next_action := next_action_target;
                confidence := conf;
                raw_score := score;
                fit_reasons := dget_default score "fit_reasons" (JList []);
                gaps_risks := dget_default score "gaps_risks" (JList []);
                needs_human_input := dget_default score "needs_human_input" (JList []) |}
      end
  end.

Definition finish_scorer (scorer_engine : string) (score : pydict) : M scorer_outcome :=
  r <- lift (scored_of_response scorer_engine score) ;;
  ret (Scored r).

Definition run_single_scorer (scorer_engine : string) (scorer_input : pydict)
    (job_record_id : string) : M scorer_outcome :=
  prompt <- lift (load_scorer_prompt scorer_engine) ;;
  let full_prompt :=
    prompt ^^ NL ^^ NL ^^ "INPUT_JSON:" ^^ NL ^^ json_dumps (JDict scorer_input) in
  model <- lift (runtime_item scorer_input "model") ;;
  lift (runtime_item scorer_input "temperature") ;;;
  score_text <- request_json ScorerFirst (py_str model) full_prompt ;;
  first <- lift (validate_keys scorer_required_keys (safe_parse_json score_text)) ;;
  match first with
  | Some score => finish_scorer scorer_engine score
  | None =>
      let retry_prompt := full_prompt ^^ strict_json_instruction in
      model <- lift (runtime_item scorer_input "model") ;;
      lift (runtime_item scorer_input "temperature") ;;;
      score_text <- request_json ScorerRetry (py_str model) retry_prompt ;;
      second <- lift (validate_keys scorer_required_keys (safe_parse_json score_text)) ;;
      match second with
      | Some score => finish_scorer scorer_engine score
      | None =>
          log ("FAIL_BAD_MODEL_OUTPUT record_id=" ^^ job_record_id
               ^^ " engine=" ^^ scorer_engine) ;;;
          ret (ScorerError "invalid_model_output" scorer_engine)
      end
  end.

(** *** Arbitration Unit *)

Definition gate_keywords : list string :=
  ["clearance"; "security clearance"; "government"; "travel"; "relocation"; "on-site"].

(** [" ".join(gaps_risks + needs_human_input).lower()] *)
Definition combined_text (gaps needs : json) : res string :=
  match gaps, needs with
  | JList a, JList b =>
      match all_strs (a ++ b) with
      | Some ss => Ok (py_lower (str_join " " ss))
      | None => Raise TypeError
      end
  | JStr a, JStr b =>
      Ok (py_lower (str_join " "
            (map (fun c => String c "") (list_ascii_of_string (a ^^ b)))))
  | _, _ => Raise TypeError
  end.

Definition is_hard_gate_failure (result : scored) (engine_name : string) : res bool :=
  let fit := fit_score result in
  let debug := dget_default (raw_score result) "debug" (JDict []) in
  if String.eqb engine_name "perfecter_v1" then
    match debug with
    | JDict dbg =>
        let hard_gates_passed := dget_default dbg "hard_gates_passed" (JBool true) in
        let hard_gate_fail_reasons := dget_default dbg "hard_gate_fail_reasons" (JList []) in
        if negb (truthy hard_gates_passed) then Ok true
        else if (fit =? 1)%Z && truthy hard_gate_fail_reasons then Ok true
        else Ok false
    | _ => Raise AttributeError
    end
  else if String.eqb engine_name "v1" then
    if (fit =? 1)%Z then
      match combined_text (gaps_risks result) (needs_human_input result) with
      | Ok text => Ok (existsb (fun kw => contains kw text) gate_keywords)
      | Raise e => Raise e
      end
    else Ok false
  else Ok false.

(** Lines 128-131: the flag of every engine that has a result. *)
Fixpoint detect_failures (results : results_t) (engines : list string)
    (acc : list (string * bool)) : res (list (string * bool)) :=
  match engines with
  | [] => Ok acc
  | e :: es =>
      match aget results e with
      | None => detect_failures results es acc
      | Some r =>
          match is_hard_gate_failure r e with
          | Ok b => detect_failures results es (aset acc e b)
          | Raise x => Raise x
          end
      end
  end.

(** Lines 150-160: the running maximum and its holder. *)
Fixpoint highest_fit (results : results_t) (engines : list string)
    (max_score : Z) (winner : option string) : option string :=
  match engines with
  | [] => winner
  | e :: es =>
      match aget results e with
      | None => highest_fit results es max_score winner
      | Some r =>
          if (max_score <? fit_score r)%Z
          then highest_fit results es (fit_score r) (Some e)
          else if (fit_score r =? max_score)%Z && String.eqb e "perfecter_v1"
               then highest_fit results es max_score (Some e)
               else highest_fit results es max_score winner
      end
  end.

Definition select_ab_winner (results : results_t) (ab_test_engines : list string)
    (selected_ab_engine : option string) : res string :=
  match detect_failures results ab_test_engines [] with
  | Raise e => Raise e
  | Ok hard_gate_failures =>
      let skip_engines := map fst (filter snd hard_gate_failures) in
      match skip_engines with
      | skip_engine :: _ =>
          if List.length skip_engines =? List.length hard_gate_failures
          then Ok (if in_set "perfecter_v1" skip_engines then "perfecter_v1"
                   else skip_engine)
          else match aget results skip_engine with
               | Some r => Ok (if (fit_score r =? 1)%Z then skip_engine else skip_engine)
               | None => Raise KeyError
               end
      | [] =>
          match highest_fit results ab_test_engines (-1) None with
          | Some w =>
              if negb (String.eqb w "") then Ok w
              else match results with
                   | (k, _) :: _ => Ok k
                   | [] => Raise IndexError
                   end
          | None =>
              match results with
              | (k, _) :: _ => Ok k
              | [] => Raise IndexError
              end
          end
      end
  end.

(** [scorer_input["runtime"]], read with [.get]. *)
Definition runtime_dict (scorer_input : pydict) : res pydict :=
  match subscript scorer_input "runtime" with
  | Ok (JDict r) => Ok r
  | Ok _ => Raise AttributeError
  | Raise e => Raise e
  end.

Definition max_len : Z := 90000.

Definition str_len (s : string) : Z := Z.of_nat (String.length s).

(** Lines 200-204: the hash of the engine's prompt, or the error text. *)
Definition prompt_hash_entry (engine_name : string) : json :=
  match load_scorer_prompt engine_name with
  | Ok prompt => JStr (get_prompt_hash prompt)
  | Raise e => JStr ("error:" ^^ str_take 50 (exn_str e))
  end.

(** Lines 194-204: [output["engines"]] and [output["hashes"]]. *)
Fixpoint collect_engines (results : results_t) (engines : list string)
    (eng : list (string * pydict)) (hashes : pydict)
  : list (string * pydict) * pydict :=
  match engines with
  | [] => (eng, hashes)
  | e :: es =>
      match aget results e with
      | Some r =>
          collect_engines results es (aset eng e (raw_score r))
            (dset hashes e (prompt_hash_entry e))
      | None => collect_engines results es eng hashes
      end
  end.

Definition engines_json (eng : list (string * pydict)) : json :=
  JDict (map (fun p => (fst p, JDict (snd p))) eng).

(** Lines 216-218. *)
Definition strip_debug (winner_engine : string) (eng : list (string * pydict))
  : list (string * pydict) :=
  map (fun p =>
         if negb (String.eqb (fst p) winner_engine) && dmem (snd p) "debug"
         then (fst p, ddel (snd p) "debug") else p) eng.

Definition ab_runtime (rt : pydict) : pydict :=
  [("model", dget_default rt "model" (JStr "unknown"));
   ("temperature", dget_default rt "temperature" (JFloat (S754_zero false)));
   ("timestamp_utc", dget_default rt "timestamp_utc" (JStr now_iso))].

(** The object of lines 180-191, with the keys added on truncation. *)
Definition ab_output (results : results_t) (winner_engine : string)
    (eng : list (string * pydict)) (hashes runtime extra : pydict) : json :=
  let winner_result := aget results winner_engine in
  JDict ([("engines", engines_json eng);
          ("winner", JStr winner_engine);
          ("winner_fit_score",
            match winner_result with Some r => JInt (fit_score r) | None => JNull end);
          ("winner_next_action",
            match winner_result with Some r => JStr (next_action r) | None => JNull end);
          ("hashes", JDict hashes);
          ("runtime", JDict runtime)] ++ extra).

(** The object of lines 223-230. *)
Definition ab_output_minimal (winner_engine : string) (winner_raw hashes runtime : pydict)
  : json :=
  JDict [("engines", JDict [(winner_engine, JDict winner_raw)]);
         ("winner", JStr winner_engine);
         ("hashes", JDict hashes);
         ("runtime", JDict runtime);
         ("TRUNCATED", JBool true);
         ("TRUNCATED_REASON", JStr "Aggressive truncation: kept only winner engine")].

Definition truncation_keys (size : Z) : pydict :=
  [("TRUNCATED", JBool true);
   ("TRUNCATED_REASON",
     JStr ("JSON size " ^^ str_of_Z size ^^ " exceeded max " ^^ str_of_Z max_len))].

Definition build_scoring_ab_json (results : results_t) (ab_test_engines : list string)
    (winner_engine : string) (scorer_input : pydict) : res string :=
  match runtime_dict scorer_input with
  | Raise e => Raise e
  | Ok rt =>
      let runtime := ab_runtime rt in
      let (eng, hashes) := collect_engines results ab_test_engines [] [] in
      let json_string :=
        json_dumps_sorted (ab_output results winner_engine eng hashes runtime []) in
      if (max_len <? str_len json_string)%Z then
        let eng2 := strip_debug winner_engine eng in
        let json_string2 :=
          json_dumps_sorted
            (ab_output results winner_engine eng2 hashes runtime
               (truncation_keys (str_len json_string))) in
        if (max_len <? str_len json_string2)%Z then
          match aget eng2 winner_engine with
          | Some winner_raw =>
              Ok (json_dumps_sorted
                    (ab_output_minimal winner_engine winner_raw hashes runtime))
          | None => Raise KeyError
          end
        else Ok json_string2
      else Ok json_string
  end.

(** *** Schema-Tolerant Writer *)

Fixpoint filter_fields_to_table (payload : pydict) (table_field_names : list string)
  : M pydict :=
  match payload with
  | [] => ret []
  | (key, value) :: rest =>
      if in_set key table_field_names then
        filtered <- filter_fields_to_table rest table_field_names ;;
        ret ((key, value) :: filtered)
      else
        log ("FIELD_DROP " ^^ key) ;;;
        filter_fields_to_table rest table_field_names
  end.

(** [valid_fields.update(keys)] *)
Definition set_update (s : list string) (keys : list string) : list string :=
  fold_left (fun acc k => if in_set k acc then acc else acc ++ [k]) keys s.

Definition sample_valid_fields (table_name : string) : M (list string) :=
  records <- list_records table_name 3 None ;;
  ret (fold_left (fun acc r => set_update acc (map fst (rec_fields r))) records []).

(** *** Text Normalizer *)

Definition clean_chars (raw : chars) : chars :=
  match raw with
  | [] => []
  | _ =>
      let t := strip_markup raw in
      let t := list_ascii_of_string (html_unescape (string_of_list_ascii t)) in
      tidy_whitespace (normalize_newlines t)
  end.

(** [clean_html_to_text(raw)] *)
Definition clean_html_to_text (raw : string) : string :=
  string_of_list_ascii (clean_chars (list_ascii_of_string raw)).

(** *** Pipeline Orchestrator: one record *)

(** What [score_job_record] returns. *)
Inductive job_result : Type :=
| JobScored (fit : Z) (action : string)
| JobSkipped (reason : string)
| JobError (reason : string).

Section JobRecord.

Variable job_record : at_record.
Variable settings : settings_t.
Variable candidate_for_scoring : json.
Variable table_field_names : list string.
Variable valid_fields : list string.
Variable dry_run : bool.
Variable scorer_engine : string.
Variable ab_test : option (list string).
Variable selected_ab_engine : option string.
Variable run_id : string.

Definition job_record_id : string := rec_id job_record.
Definition fields : pydict := rec_fields job_record.

(** The closure [safe_update] of lines 458-486. *)
Definition safe_update (fields_dict : pydict) : M bool :=
  filtered <- filter_fields_to_table fields_dict table_field_names ;;
  match filtered with
  | [] => ret false
  | _ =>
      if dry_run then ret true
      else
        catch
          (update_record (AIRTABLE_TABLE_JOBS settings) job_record_id filtered ;;;
           ret true)
          (fun _ =>
             let retry_fields :=
               filter (fun kv => negb (in_set (fst kv) ["ScoringStatus"; "SkipReason"]))
                 filtered in
             match retry_fields with
             | [] => ret false
             | _ =>
                 if negb (List.length retry_fields =? List.length filtered) then
                   catch
                     (update_record (AIRTABLE_TABLE_JOBS settings) job_record_id
                        retry_fields ;;;
                      ret true)
                     (fun _ => ret false)
                 else ret false
             end)
  end.

(** The recurring step: filter the payload, write what is left. *)
Definition filtered_update (payload : pydict) : M unit :=
  update_fields <- filter_fields_to_table payload table_field_names ;;
  match update_fields with
  | [] => ret tt
  | _ => safe_update update_fields ;;; ret tt
  end.

(** [fields.get(k, "").strip()] *)
Definition field_stripped (k : string) : res string :=
  match dget_default fields k (JStr "") with
  | JStr s => Ok (py_strip s)
  | _ => Raise AttributeError
  end.

(** Lines 491-506. *)
Definition skip_no_jd : M job_result :=
  log ("SKIP_NO_JD record_id=" ^^ job_record_id) ;;;
  (if dry_run then ret tt
   else catch
          (filtered_update
             [("Status", JStr "Needs JD");
              ("ScoringStatus", JStr "SKIPPED");
              ("SkipReason",
                JStr "JobDescriptionRaw empty after stripping. Needs full JD.")])
          (fun _ => ret tt)) ;;;
  ret (JobSkipped "no_description").

(** Lines 515-524: the note on a short description. *)
Definition short_jd_note (job_description_text : string) : M unit :=
  log ("WARN_SHORT_JD record_id=" ^^ job_record_id ^^ " len="
       ^^ str_of_nat (String.length job_description_text)) ;;;
  if dry_run then ret tt
  else filtered_update
         [("NeedsHumanInput",
            JStr ("SHORT_JD_SCORING len="
                  ^^ str_of_nat (String.length job_description_text)))].

(** Lines 526-546. *)
Definition write_job_text (job_description_text : string) : M unit :=
  if dry_run then ret tt
  else catch
         (filtered_update [("JobDescriptionText", JStr job_description_text)])
         (fun _ =>
            catch
              (filtered_update [("JobDescriptionText", JStr job_description_text)])
              (fun _ => ret tt)).

(** Lines 508-549: the cached text, or the text cleaned now. *)
Definition ensure_job_text (job_description_raw : string) : M string :=
  cached <- lift (field_stripped "JobDescriptionText") ;;
  if String.eqb cached "" then
    let job_description_text := clean_html_to_text job_description_raw in
    (if String.length job_description_text <? CLEAN_MIN_LEN
     then short_jd_note job_description_text
     else ret tt) ;;;
    write_job_text job_description_text ;;;
    ret job_description_text
  else ret cached.

(** Lines 557-564: the structured fields already on the record. *)
Definition cached_job_json : res pydict :=
  match field_stripped "JobJSON" with
  | Raise e => Raise e
  | Ok jobjson_raw =>
      if String.eqb jobjson_raw "" then Ok []
      else match py_or (safe_parse_json jobjson_raw) (JDict []) with
           | JDict d => Ok d
           | _ => Ok []
           end
  end.

(** Lines 582-594. *)
Definition fallback_job_json : pydict :=
  [("job_title", py_or (py_or (dget fields "JobTitle") (dget fields "Title")) JNull);
   ("company", JNull);
   ("location", JNull);
   ("remote_status", JStr "Unknown");
   ("seniority", JStr "Unknown");
   ("apply_type", JStr "Unknown");
   ("requirements", JList []);
   ("responsibilities", JList []);
   ("keywords", JList []);
   ("tech_stack", JList []);
   ("needs_human_input", JList [JStr "JOBJSON_PARSE_FAILED"])].

Definition use_fallback_job_json : M pydict :=
  log ("JOBJSON_PARSE_FAILED record_id=" ^^ job_record_id) ;;;
  (if dry_run then ret tt
   else catch (filtered_update [("NeedsHumanInput", JStr "JOBJSON_PARSE_FAILED")])
          (fun _ => ret tt)) ;;;
  ret fallback_job_json.

(** Lines 566-627: the Job Structurer call and the write of its result. *)
Definition build_job_json (job_description_text : string) : M pydict :=
  let parse_prompt :=
    py_replace "<<JOB_DESCRIPTION>>" job_description_text JOB_PARSE_PROMPT in
  parsed_text <- request_json JobStructurer (OPENAI_MODEL_PARSE settings) parse_prompt ;;
  parsed <- match py_or (safe_parse_json parsed_text) (JDict []) with
            | JDict d =>
                if forallb (dmem d) jobjson_required_keys then ret d
                else use_fallback_job_json
            | _ => use_fallback_job_json
            end ;;
  let jobjson_string := json_dumps_compact (JDict parsed) in
  (if dry_run then ret tt
   else catch (filtered_update [("JobJSON", JStr jobjson_string)])
          (fun _ =>
             catch (filtered_update [("JobJSON", JStr jobjson_string)])
               (fun _ => ret tt))) ;;;
  ret parsed.

(** Lines 555-629. *)
Definition ensure_job_json (job_description_text : string) : M pydict :=
  parsed <- lift cached_job_json ;;
  match parsed with
  | [] => build_job_json job_description_text
  | _ => ret parsed
  end.

(** Lines 638-653. *)
Definition parsed_fields_to_update (parsed : pydict) : pydict :=
  filter (fun kv => truthy (snd kv))
    [("Company", dget parsed "company");
     ("JobTitle", dget parsed "job_title");
     ("Location", dget parsed "location");
     ("RemoteStatus", dget parsed "remote_status");
     ("Requirements", JStr (join_lines (dget_default parsed "requirements" (JList []))));
     ("Responsibilities",
       JStr (join_lines (dget_default parsed "responsibilities" (JList []))));
     ("Keywords", JStr (join_commas (dget_default parsed "keywords" (JList []))));
     ("TechStack", JStr (join_commas (dget_default parsed "tech_stack" (JList []))));
     ("NeedsHumanInput",
       JStr (join_lines (dget_default parsed "needs_human_input" (JList []))))].

(** Lines 665-678. *)
Definition job_profile (parsed : pydict) (job_description_cleaned : string) : json :=
  JDict
    [("title", py_or (dget parsed "job_title") (JStr ""));
     ("company", py_or (dget parsed "company") (JStr ""));
     ("location", py_or (dget parsed "location") (JStr ""));
     ("employment_type", py_or (dget parsed "remote_status") (JStr "Unknown"));
     ("role_family_guess", py_or (dget parsed "seniority") (JStr "Unknown"));
     ("responsibilities", dget_default parsed "responsibilities" (JList []));
     ("required_qualifications", dget_default parsed "requirements" (JList []));
     ("preferred_qualifications", JList []);
     ("tech_stack", dget_default parsed "tech_stack" (JList []));
     ("industry", JStr "");
     ("flags", build_flags_from_jd job_description_cleaned);
     ("raw_text", JStr job_description_cleaned)].

(** Lines 681-695. *)
Definition make_scorer_input (parsed : pydict) (job_description_cleaned : string)
  : pydict :=
  [("candidate", JDict [("candidate_profile", candidate_for_scoring)]);
   ("job", JDict [("job_profile", job_profile parsed job_description_cleaned);
                  ("job_json", JDict parsed)]);
   ("runtime", JDict [("creativity_dial", JFloat float_0_7);
                      ("model", JStr (OPENAI_MODEL_SCORE settings));
                      ("temperature", JFloat float_0_7);
                      ("run_id", JStr run_id)])].

(** Lines 700-704: every engine in turn; only scored results are kept. *)
Fixpoint run_engines (engines : list string) (scorer_input : pydict)
    (results : results_t) : M results_t :=
  match engines with
  | [] => ret results
  | e :: es =>
      result <- run_single_scorer e scorer_input job_record_id ;;
      match result with
      | Scored r => run_engines es scorer_input (aset results e r)
      | ScorerError _ _ => run_engines es scorer_input results
      end
  end.

(** Lines 697-732: the result that is persisted and, in A/B mode, all
    results with the winner; [None] when no engine produced a result. *)
Definition score_with_engines (scorer_input : pydict)
  : M (option (scored * option (results_t * string))) :=
  match ab_test with
  | Some (e :: es) =>
      results <- run_engines (e :: es) scorer_input [] ;;
      match results with
      | [] =>
          log ("FAIL_BAD_MODEL_OUTPUT record_id=" ^^ job_record_id) ;;;
          ret None
      | _ =>
          winner_engine <-
            lift (select_ab_winner results (e :: es) selected_ab_engine) ;;
          match aget results winner_engine with
          | Some winner_result =>
              ret (Some (winner_result, Some (results, winner_engine)))
          | None => throw KeyError
          end
      end
  | _ =>
      result <- run_single_scorer scorer_engine scorer_input job_record_id ;;
      match result with
      | Scored r => ret (Some (r, None))
      | ScorerError _ _ =>
          log ("FAIL_BAD_MODEL_OUTPUT record_id=" ^^ job_record_id) ;;;
          ret None
      end
  end.

(** Lines 761-767. *)
Definition optional_fields (r : scored) (needs_human_input_text : string) : pydict :=
  let fit_reasons_text := join_lines (fit_reasons r) in
  let gaps_risks_text := join_lines (gaps_risks r) in
  let merged_needs :=
    merge_notes needs_human_input_text (join_lines (needs_human_input r)) in
  (if String.eqb fit_reasons_text "" then [] else [("FitReasons", JStr fit_reasons_text)])
  ++ (if String.eqb gaps_risks_text "" then [] else [("GapsRisks", JStr gaps_risks_text)])
  ++ (if String.eqb merged_needs "" then [] else [("NeedsHumanInput", JStr merged_needs)]).

(** Lines 740-796. *)
Definition persist_scores (scorer_input : pydict) (r : scored)
    (ab : option (results_t * string)) (needs_human_input_text : string) : M unit :=
  if dry_run then
    match ab with
    | Some (results, winner_engine) =>
        catch
          (lift (build_scoring_ab_json results
                   (match ab_test with Some l => l | None => [] end)
                   winner_engine scorer_input) ;;; ret tt)
          (fun _ => ret tt)
    | None => ret tt
    end
  else
    safe_update
      ([("FitScore", JInt (fit_score r)); ("Status", JStr "Scored");
        ("ScoringStatus", JStr "SCORED")]
       ++ (if String.eqb run_id "" then [] else [("RunID", JStr run_id)])) ;;;
    ok <- safe_update [("NextAction", JStr (next_action r))] ;;
    (if ok then ret tt
     else catch
            (fallback <-
               filter_fields_to_table [("NextAction", JStr "Review")] table_field_names ;;
             safe_update fallback ;;; ret tt)
            (fun _ => ret tt)) ;;;
    (match optional_fields r needs_human_input_text with
     | [] => ret tt
     | optional_fields_c =>
         filtered <- filter_fields_to_table optional_fields_c table_field_names ;;
         safe_update filtered ;;; ret tt
     end) ;;;
    match ab with
    | Some (results, winner_engine) =>
        catch
          (ab_json_string <-
             lift (build_scoring_ab_json results
                     (match ab_test with Some l => l | None => [] end)
                     winner_engine scorer_input) ;;
           filtered_update [("ScoringAB", JStr ab_json_string)])
          (fun _ => ret tt)
    | None => ret tt
    end.

(** Lines 804-819: the handler of the record boundary. *)
Definition on_scoring_error (e : exn) : M job_result :=
  (if dry_run then ret tt
   else catch
          (update_fields <-
             filter_fields_to_table
               [("ScoringStatus", JStr "FAILED");
                ("SkipReason", JStr ("Scoring error: " ^^ str_take 200 (exn_str e)))]
               table_field_names ;;
           (if in_set "ScoringStatus" table_field_names
               && in_set "SkipReason" table_field_names
            then ret tt
            else log ("WARN: schema_mismatch record_id=" ^^ job_record_id
                      ^^ " available_fields_count="
                      ^^ str_of_nat (List.length valid_fields))) ;;;
           match update_fields with
           | [] => ret tt
           | _ => safe_update update_fields ;;; ret tt
           end)
          (fun _ => ret tt)) ;;;
  ret (JobError (exn_str e)).

(** Lines 630-819. *)
Definition score_and_persist (parsed : pydict) (job_description_cleaned : string)
  : M job_result :=
  catch
    (let needs_human_input_text :=
       join_lines (dget_default parsed "needs_human_input" (JList [])) in
     (match parsed_fields_to_update parsed with
      | [] => ret tt
      | to_update => filtered_update to_update
      end) ;;;
     let scorer_input := make_scorer_input parsed job_description_cleaned in
     outcome <- score_with_engines scorer_input ;;
     match outcome with
     | None => ret (JobError "invalid_model_output")
     | Some (r, ab) =>
         persist_scores scorer_input r ab needs_human_input_text ;;;
         ret (JobScored (fit_score r) (next_action r))
     end)
    on_scoring_error.

(** What follows once the description text is settled: structuring,
    scoring, persistence (lines 551-819). *)
Definition structure_and_score (job_description_raw job_description_text : string)
  : M job_result :=
  let job_description_cleaned := clean_html_to_text job_description_raw in
  parsed <- ensure_job_json job_description_text ;;
  score_and_persist parsed job_description_cleaned.

Definition score_job_record : M job_result :=
  job_description_raw <- lift (field_stripped "JobDescriptionRaw") ;;
  if String.eqb job_description_raw "" then skip_no_jd
  else
    job_description_text <- ensure_job_text job_description_raw ;;
    structure_and_score job_description_raw job_description_text.

End JobRecord.

(** *** Pipeline Orchestrator: the run *)

(** The counters that [run_scoring] returns. *)
Record summary : Type := {
  total : nat;
  scored_count : nat;
  skipped_count : nat;
  error_count : nat
}.

Definition no_records (errors : nat) : summary :=
  {| total := 0; scored_count := 0; skipped_count := 0; error_count := errors |}.

Definition filter_formula : string :=
  "AND(LEN({JobDescriptionRaw})>0, {FitScore}=BLANK())".

(** The table [filters] of lines 949-954. *)
Definition filter_of_step (step : Z) : option string :=
  if (step =? 1)%Z then Some "AND(LEN({JobDescriptionRaw})>0)"
  else if (step =? 2)%Z then Some "AND(LEN({JobDescriptionRaw})>0, {FitScore}=BLANK())"
  else if (step =? 22)%Z then
    Some "AND(LEN({JobDescriptionRaw})>0, OR({FitScore}=BLANK(), {FitScore}=0))"
  else if (step =? 3)%Z then
    Some ("AND(LEN({JobDescriptionRaw})>0, OR({FitScore}=BLANK(), {FitScore}=0), "
          ^^ "OR(LEN({ScoringStatus}&" ^^ String (ascii_of_nat 34) (String (ascii_of_nat 34) "")
          ^^ ")=0, {ScoringStatus}=" ^^ String (ascii_of_nat 34) "NEW"
          ^^ String (ascii_of_nat 34) "))")
  else None.

Section RunScoring.

Variable settings : settings_t.
Variable max_jobs : Z.
Variable dry_run : bool.
Variable diag : bool.
Variable diag_runid : bool.
Variable test_filter : option string.
Variable filter_step : option Z.
Variable scorer_engine : string.
Variable ab_test : option (list string).
Variable selected_ab_engine : option string.

(** Lines 832-840: the prompt of every active engine is loaded for the
    log; a failure is reported and the run goes on. *)
Fixpoint log_active_engines (engines : list string) : M unit :=
  match engines with
  | [] => ret tt
  | e :: es =>
      match load_scorer_prompt e with
      | Ok prompt =>
          log ("ACTIVE_SCORER_ENGINE=" ^^ e) ;;;
          log ("ACTIVE_PROMPT_HASH_" ^^ e ^^ "=" ^^ get_prompt_hash prompt)
      | Raise x =>
          log ("WARN: Failed to load prompt for engine=" ^^ e ^^ " error="
               ^^ str_take 100 (exn_str x))
      end ;;;
      log_active_engines es
  end.

Definition active_engines : list string :=
  match ab_test with
  | Some (e :: es) => e :: es
  | _ => [scorer_engine]
  end.

(** Lines 1026-1045: the records in order, with the counters. *)
Fixpoint score_records (valid_fields : list string) (candidate_for_scoring : json)
    (records : list at_record) (acc : summary) : M summary :=
  match records with
  | [] => ret acc
  | record :: rest =>
      (if sliceable (dget_default (rec_fields record) "JobURL" (JStr "unknown"))
       then ret tt else throw TypeError) ;;;
      result <- score_job_record record settings candidate_for_scoring
                  table_field_names_static valid_fields dry_run scorer_engine
                  ab_test selected_ab_engine run_id_now ;;
      let acc' :=
        match result with
        | JobScored _ _ =>
            {| total := total acc; scored_count := S (scored_count acc);
               skipped_count := skipped_count acc; error_count := error_count acc |}
        | JobSkipped _ =>
            {| total := total acc; scored_count := scored_count acc;
               skipped_count := S (skipped_count acc); error_count := error_count acc |}
        | JobError _ =>
            {| total := total acc; scored_count := scored_count acc;
               skipped_count := skipped_count acc; error_count := S (error_count acc) |}
        end in
      (match rest with [] => ret tt | _ => emit EvSleep end) ;;;
      score_records valid_fields candidate_for_scoring rest acc'
  end.

(** Lines 968-989: the candidate truth object, or the reason to stop. *)
Definition load_candidate : M (option json) :=
  candidate_record <- find_one (AIRTABLE_TABLE_CANDIDATE settings)
                        (CANDIDATE_PROFILE_ID_FIELD settings)
                        (CANDIDATE_PROFILE_ID_VALUE settings) ;;
  match candidate_record with
  | None => throw RuntimeError
  | Some r =>
      let candidate_json_str := dget (rec_fields r) "CandidateJSON" in
      if negb (truthy candidate_json_str) then
        log "FAIL_NO_CANDIDATE_JSON" ;;; ret None
      else
        match candidate_json_str with
        | JStr text =>
            match json_loads text with
            | Some v => ret (Some v)
            | None => log "FAIL_NO_CANDIDATE_JSON" ;;; ret None
            end
        | _ => throw TypeError
        end
  end.

(** The candidate truth profile is missing or its JSON is absent or
    invalid. *)
Definition candidate_unusable (c : option at_record) : Prop :=
  match c with
  | None => True
  | Some r =>
      truthy (dget (rec_fields r) "CandidateJSON") = false
      \/ exists text, dget (rec_fields r) "CandidateJSON" = JStr text
                      /\ json_loads text = None
  end.

Definition run_scoring : M summary :=
  log ("RUN_START id=" ^^ run_id_now) ;;;
  log_active_engines active_engines ;;;
  valid_fields <- sample_valid_fields (AIRTABLE_TABLE_JOBS settings) ;;
  (if in_set "FitScore" valid_fields then ret tt else log "WARN_NO_FITSCORE_FIELD") ;;;
  if diag_runid then
    catch (list_records (AIRTABLE_TABLE_JOBS settings) 5 None ;;; ret tt)
      (fun _ => ret tt) ;;;
    ret (no_records 0)
  else
    match test_filter with
    | Some (String c f) =>
        list_records (AIRTABLE_TABLE_JOBS settings) max_jobs (Some (String c f)) ;;;
        ret (no_records 0)
    | _ =>
        match filter_step with
        | Some step =>
            match filter_of_step step with
            | Some formula =>
                list_records (AIRTABLE_TABLE_JOBS settings) max_jobs (Some formula) ;;;
                ret (no_records 0)
            | None => log "FILTER_STEP_INVALID" ;;; ret (no_records 1)
            end
        | None =>
            candidate <- load_candidate ;;
            match candidate with
            | None => ret (no_records 1)
            | Some candidate_for_scoring =>
                records <-
                  catch (list_records (AIRTABLE_TABLE_JOBS settings) max_jobs
                           (Some filter_formula))
                    (fun _ => list_records (AIRTABLE_TABLE_JOBS settings) max_jobs
                                (Some filter_formula)) ;;
                if diag then ret (no_records 0)
                else
                  score_records valid_fields candidate_for_scoring records
                    {| total := List.length records; scored_count := 0;
                       skipped_count := 0; error_count := 0 |}
            end
        end
    end.

End RunScoring.

(** *** The older cleaner: [score_existing_jobs.clean_job_text] *)

Definition clean_job_text (raw : string) : string :=
  match raw with
  | "" => ""
  | _ =>
      let t := strip_tags (list_ascii_of_string raw) in
      let t := list_ascii_of_string (html_unescape (string_of_list_ascii t)) in
      string_of_list_ascii (collapse_whitespace t)
  end.

(** *** The older scorer: [score_existing_jobs] *)

(** [USER_PROMPT_TEMPLATE.format(candidate_profile=CANDIDATE_PROFILE_SUMMARY,
    job_description=cleaned)], as a function of the cleaned text. *)
Variable format_user_prompt : string -> string.

(** [str(x)[:300] if x else ""] *)
Definition short_text (v : json) : string :=
  if truthy v then str_take 300 (py_str v) else "".

(** [score_job_description], lines 146-192: one call, then the score and
    the action read from the reply.  The call carries the label of a
    scorer's first call. *)
Definition score_job_description (job_description : string) : M pydict :=
  let cleaned := clean_job_text job_description in
  let user_prompt := format_user_prompt cleaned in
  response_text <- request_json ScorerFirst "gpt-4o-mini" user_prompt ;;
  let score_data := safe_parse_json response_text in
  if negb (truthy score_data) then throw ValueError
  else
    match score_data with
    | JDict d =>
        fit_score <- lift (normalize_fit_value (dget d "FitScore")) ;;
        match dget_default d "NextAction" (JStr "") with
        | JStr a =>
            let next_action := py_strip a in
            let next_action :=
              if in_set next_action valid_actions then next_action else "Skip" in
            ret [("fit_score", JInt fit_score);
                 ("next_action", JStr next_action);
                 ("fit_reasons", JStr (short_text (dget_default d "FitReasons" (JStr ""))));
                 ("gaps_risks", JStr (short_text (dget_default d "GapsRisks" (JStr ""))))]
        | _ => throw AttributeError
        end
    | _ => throw AttributeError
    end.

(** [score_record], lines 194-220. *)
Definition score_record (record : at_record) : M pydict :=
  job_description <- lift (field_stripped record "JobDescriptionRaw") ;;
  if String.eqb job_description "" then
    ret [("status", JStr "skipped"); ("reason", JStr "no_description")]
  else if truthy (dget (rec_fields record) "FitScore") then
    ret [("status", JStr "skipped"); ("reason", JStr "already_scored")]
  else
    catch
      (score_result <- score_job_description job_description ;;
       ret [("status", JStr "scored");
            ("fit_score", dget score_result "fit_score");
            ("next_action", dget score_result "next_action");
            ("fit_reasons", dget score_result "fit_reasons");
            ("gaps_risks", dget score_result "gaps_risks")])
      (fun e => ret [("status", JStr "error"); ("reason", JStr (exn_str e))]).

(** ** Properties *)

Set Default Proof Using "Type".

(** Propositional reasoning that leaves the parameters of the model out. *)
Ltac clear_parameters :=
  repeat match goal with
         | x : ?T |- _ =>
             lazymatch type of T with
             | Prop => fail
             | _ => clear x
             end
         end.

Ltac ptauto := clear_parameters; tauto.

(** *** Strings *)

Lemma ascii_eqb_eq a b : ascii_eqb a b = true <-> a = b.
Proof. unfold ascii_eqb. apply Ascii.eqb_eq. Qed.

Lemma ascii_eqb_refl a : ascii_eqb a a = true.
Proof. apply ascii_eqb_eq. reflexivity. Qed.

Lemma nl_is_space : is_space nl = true.
Proof. reflexivity. Qed.

(* sub_go skip *)
Lemma sub_go_skip m r k s : sub_go m r k s = sub_go m r 0 (skipn k s).
Proof.
  revert k. induction s as [|c t IH]; intros [|k]; simpl; auto.
Qed.

Lemma sub_go_no_match m r s :
  (forall p q, s = p ++ q -> q <> [] -> m q = None) -> sub_go m r 0 s = s.
Proof.
  induction s as [|c t IH]; intros H; simpl; auto.
  rewrite (H [] (c :: t)) by (auto; discriminate).
  f_equal. apply IH. intros p q -> Hq. apply (H (c :: p) q); auto.
Qed.

Lemma sub_go_head_guard m r (g : ascii) s :
  (forall c t, c <> g -> m (c :: t) = None) -> ~ In g s -> sub_go m r 0 s = s.
Proof.
  intros Hm. induction s as [|c t IH]; intros Hn; simpl; auto.
  rewrite Hm by (intros ->; apply Hn; left; reflexivity).
  f_equal. apply IH. intros Hi. apply Hn. right. exact Hi.
Qed.

Lemma split_nl_cons_nl t : split_nl (nl :: t) = [] :: split_nl t.
Proof. reflexivity. Qed.

Lemma split_nl_nonempty s : split_nl s <> [].
Proof.
  destruct s as [|c t]; simpl; try discriminate.
  destruct (ascii_eqb c nl); try discriminate.
  destruct (split_nl t); discriminate.
Qed.

Lemma join_split s : join_nl (split_nl s) = s.
Proof.
  induction s as [|c t IH]; simpl; auto.
  destruct (ascii_eqb c nl) eqn:E.
  - apply ascii_eqb_eq in E. subst c.
    destruct (split_nl t) as [|l ls] eqn:S; [exfalso; eapply split_nl_nonempty; eauto|].
    simpl. rewrite <- IH. reflexivity.
  - destruct (split_nl t) as [|l ls] eqn:S; [exfalso; eapply split_nl_nonempty; eauto|].
    rewrite <- IH. destruct ls; reflexivity.
Qed.

Lemma rstrip_fixed_cons c t :
  t <> [] -> rstrip t = t -> rstrip (c :: t) = c :: t.
Proof.
  intros Ht E. simpl. rewrite E. destruct t; congruence.
Qed.

Lemma rstrip_single c : is_space c = false -> rstrip [c] = [c].
Proof. intros H. simpl. rewrite H. reflexivity. Qed.

Lemma lstrip_nonspace c t : is_space c = false -> lstrip (c :: t) = c :: t.
Proof. intros H. simpl. rewrite H. reflexivity. Qed.

Lemma split_lines_trimmed s : forall b,
  lines_trimmed b s = true ->
  match split_nl s with
  | l :: ls => rstrip l = l /\ (b = true -> lstrip l = l)
               /\ Forall (fun l' => strip l' = l') ls
               /\ (match s with a :: _ => ascii_eqb a nl = false -> l <> [] | [] => True end)
  | [] => False
  end.
Proof.
  induction s as [|c t IH]; intros b H; simpl in *.
  - repeat split; auto.
  - destruct (ascii_eqb c nl) eqn:E.
    + specialize (IH true H).
      destruct (split_nl t) as [|l ls]; [contradiction|].
      destruct IH as (R & L & F & _).
      repeat split; auto; try discriminate.
      constructor; auto. unfold strip. rewrite (L eq_refl). exact R.
    + destruct (is_space c) eqn:Sp.
      * apply andb_true_iff in H. destruct H as [H H3].
        apply andb_true_iff in H. destruct H as [H1 H2].
        specialize (IH false H3).
        destruct (split_nl t) as [|l ls]; [contradiction|].
        destruct IH as (R & L & F & N).
        destruct t as [|a t']; [discriminate|].
        apply negb_true_iff in H2. specialize (N H2).
        repeat split; auto; try discriminate.
        -- apply rstrip_fixed_cons; auto.
        -- intros ->. discriminate.
      * specialize (IH false H).
        destruct (split_nl t) as [|l ls]; [contradiction|].
        destruct IH as (R & L & F & N).
        repeat split; auto; try discriminate.
        -- destruct l as [|x l']; [apply rstrip_single; auto|].
           apply rstrip_fixed_cons; auto; discriminate.
        -- intros _. apply lstrip_nonspace; auto.
Qed.

Lemma map_strip_split s :
  lines_trimmed true s = true -> map strip (split_nl s) = split_nl s.
Proof.
  intros H. apply split_lines_trimmed in H.
  destruct (split_nl s) as [|l ls]; [contradiction|].
  destruct H as (R & L & F & _). simpl. f_equal.
  - unfold strip. rewrite (L eq_refl). exact R.
  - clear -F. induction F; simpl; auto. rewrite H, IHF. reflexivity.
Qed.

Lemma no_triple_tail a t : no_triple_nl (a :: t) = true -> no_triple_nl t = true.
Proof.
  simpl. intros H. apply andb_true_iff in H. apply H.
Qed.

Lemma no_triple_head r : no_triple_nl (nl :: nl :: nl :: r) = false.
Proof. reflexivity. Qed.

Lemma trimmed_start_nonspace a t :
  lines_trimmed true (a :: t) = true -> ascii_eqb a nl = false -> is_space a = false.
Proof.
  simpl. intros H E. rewrite E in H. destruct (is_space a); auto.
Qed.

Lemma trimmed_tail b a t :
  lines_trimmed b (a :: t) = true ->
  lines_trimmed (ascii_eqb a nl) t = true.
Proof.
  simpl. destruct (ascii_eqb a nl); auto.
  destruct (is_space a); auto.
  intros H. apply andb_true_iff in H. apply H.
Qed.

Lemma space_run_nonspace a t : is_space a = false -> space_run (a :: t) = 0.
Proof. intros H. simpl. rewrite H. reflexivity. Qed.

Lemma m_blank_not_nl c t : ascii_eqb c nl = false -> m_blank (c :: t) = None.
Proof. intros H. simpl. rewrite H. reflexivity. Qed.

Lemma blank_fixed n : forall s b,
  List.length s <= n ->
  lines_trimmed b s = true -> no_triple_nl s = true ->
  sub_go m_blank [nl; nl] 0 s = s.
Proof.
  induction n as [|n IH]; intros s b Hl Ht Hn.
  - destruct s; [reflexivity | simpl in Hl; lia].
  - destruct s as [|c t]; [reflexivity|].
    simpl in Hl.
    pose proof (trimmed_tail _ _ _ Ht) as Ht'.
    pose proof (no_triple_tail _ _ Hn) as Hn'.
    destruct (ascii_eqb c nl) eqn:E.
    + apply ascii_eqb_eq in E. subst c.
      destruct t as [|a t'].
      * reflexivity.
      * destruct (ascii_eqb a nl) eqn:Ea.
        -- apply ascii_eqb_eq in Ea. subst a.
           pose proof (trimmed_tail _ _ _ Ht') as Ht''. rewrite ascii_eqb_refl in Ht''.
           assert (Hs : space_run t' = 0).
           { destruct t' as [|a' t'']; [reflexivity|].
             destruct (ascii_eqb a' nl) eqn:Ea'.
             - apply ascii_eqb_eq in Ea'. subst a'. rewrite no_triple_head in Hn. discriminate.
             - apply space_run_nonspace. eapply trimmed_start_nonspace; eauto. }
           change (sub_go m_blank [nl; nl] 0 (nl :: nl :: t'))
             with (match m_blank (nl :: nl :: t') with
                   | Some (S k) => [nl; nl] ++ sub_go m_blank [nl; nl] k (nl :: t')
                   | _ => nl :: sub_go m_blank [nl; nl] 0 (nl :: t')
                   end).
           assert (Hm : m_blank (nl :: nl :: t') = Some 2).
           { unfold m_blank. rewrite ascii_eqb_refl.
             change (space_run (nl :: t')) with (S (space_run t')).
             rewrite Hs. reflexivity. }
           rewrite Hm. simpl. do 2 f_equal.
           apply (IH t' true); auto. simpl in Hl; lia.
           eapply no_triple_tail; eauto.
        -- change (sub_go m_blank [nl; nl] 0 (nl :: a :: t'))
             with (match m_blank (nl :: a :: t') with
                   | Some (S k) => [nl; nl] ++ sub_go m_blank [nl; nl] k (a :: t')
                   | _ => nl :: sub_go m_blank [nl; nl] 0 (a :: t')
                   end).
           assert (Hm : m_blank (nl :: a :: t') = None).
           { unfold m_blank. rewrite ascii_eqb_refl.
             rewrite space_run_nonspace; [reflexivity|].
             eapply trimmed_start_nonspace; eauto. }
           rewrite Hm. f_equal. apply (IH (a :: t') true); auto. simpl in *; lia.
    + change (sub_go m_blank [nl; nl] 0 (c :: t))
        with (match m_blank (c :: t) with
              | Some (S k) => [nl; nl] ++ sub_go m_blank [nl; nl] k t
              | _ => c :: sub_go m_blank [nl; nl] 0 t
              end).
      rewrite m_blank_not_nl by auto. f_equal.
      apply (IH t false); auto. lia.
Qed.

Lemma rstrip_idem s : rstrip (rstrip s) = rstrip s.
Proof.
  induction s as [|c t IH]; simpl; auto.
  destruct (rstrip t) as [|x r] eqn:E.
  - destruct (is_space c) eqn:Sp; simpl; auto. rewrite Sp. reflexivity.
  - apply rstrip_fixed_cons; auto. discriminate.
Qed.

Lemma lstrip_idem s : lstrip (lstrip s) = lstrip s.
Proof.
  induction s as [|c t IH]; simpl; auto.
  destruct (is_space c) eqn:Sp; auto. simpl. rewrite Sp. reflexivity.
Qed.

Lemma rstrip_head c t : rstrip (c :: t) = [] \/ exists r, rstrip (c :: t) = c :: r.
Proof.
  simpl. destruct (rstrip t).
  - destruct (is_space c); [left|right; exists []]; reflexivity.
  - right. eexists. reflexivity.
Qed.

Lemma lstrip_fixed_head s :
  lstrip s = s <-> match s with [] => True | c :: _ => is_space c = false end.
Proof.
  destruct s as [|c t]; simpl; [split; auto|].
  destruct (is_space c) eqn:Sp; split; auto; try discriminate.
  intros H. exfalso.
  assert (L : List.length (lstrip t) <= List.length t).
  { clear. induction t; simpl; auto. destruct (is_space a); simpl; lia. }
  rewrite H in L. simpl in L. lia.
Qed.

Lemma strip_idem s : strip (strip s) = strip s.
Proof.
  unfold strip.
  assert (H : lstrip (rstrip (lstrip s)) = rstrip (lstrip s)).
  { pose proof (lstrip_idem s) as Hl. apply lstrip_fixed_head in Hl.
    apply lstrip_fixed_head.
    destruct (lstrip s) as [|c t]; [exact I|].
    destruct (rstrip_head c t) as [-> | [r ->]]; auto. }
  rewrite H. apply rstrip_idem.
Qed.

Lemma tidy_fixed s : tidy_normal s -> tidy_whitespace s = s.
Proof.
  intros (Ht & Hn & Hs). unfold tidy_whitespace.
  rewrite map_strip_split by exact Ht. rewrite join_split.
  unfold re_sub. rewrite (blank_fixed (List.length s) s true); auto.
Qed.

Lemma strip_lfixed x : lstrip (strip x) = strip x.
Proof.
  unfold strip.
  pose proof (lstrip_idem x) as Hl. apply lstrip_fixed_head in Hl.
  apply lstrip_fixed_head.
  destruct (lstrip x) as [|c t]; [exact I|].
  destruct (rstrip_head c t) as [-> | [r ->]]; auto.
Qed.

Lemma strip_rfixed x : rstrip (strip x) = strip x.
Proof. unfold strip. apply rstrip_idem. Qed.

Lemma rstrip_fixed_inv c t : rstrip (c :: t) = c :: t ->
  (t = [] /\ is_space c = false) \/ (t <> [] /\ rstrip t = t).
Proof.
  simpl. destruct (rstrip t) as [|x r] eqn:E.
  - destruct (is_space c); [discriminate|]. intros H. inversion H. subst. left. auto.
  - intros H. inversion H. subst. right. split; [discriminate | reflexivity].
Qed.

Lemma trimmed_line l : forall b rest,
  ~ In nl l -> rstrip l = l -> (b = true -> lstrip l = l) ->
  lines_trimmed true rest = true ->
  lines_trimmed b l = true /\ lines_trimmed b (l ++ nl :: rest) = true.
Proof.
  induction l as [|c t IH]; intros b rest Hn Hr Hl Hrest.
  - simpl. rewrite ?ascii_eqb_refl. auto.
  - assert (Ec : ascii_eqb c nl = false).
    { destruct (ascii_eqb c nl) eqn:E; auto. apply ascii_eqb_eq in E. subst.
      exfalso. apply Hn. left. reflexivity. }
    assert (Hn' : ~ In nl t) by (intros Hi; apply Hn; right; exact Hi).
    apply rstrip_fixed_inv in Hr.
    simpl. rewrite Ec.
    destruct (is_space c) eqn:Sp.
    + destruct b.
      { specialize (Hl eq_refl). apply lstrip_fixed_head in Hl. congruence. }
      destruct Hr as [[_ Hc] | [Ht Hr]]; [congruence|].
      destruct t as [|a t']; [congruence|].
      assert (Ea : ascii_eqb a nl = false).
      { destruct (ascii_eqb a nl) eqn:E; auto. apply ascii_eqb_eq in E. subst.
        exfalso. apply Hn'. left. reflexivity. }
      destruct (IH false rest Hn' Hr) as [I1 I2]; auto; try discriminate.
      simpl app. rewrite Ea. simpl negb. rewrite I1.
      change ((a :: t') ++ nl :: rest) with (a :: t' ++ nl :: rest) in I2.
      rewrite I2, Ea. auto.
    + destruct Hr as [[-> _] | [Ht Hr]].
      * simpl. rewrite ?ascii_eqb_refl. auto.
      * apply (IH false rest Hn' Hr); auto; discriminate.
Qed.

Lemma strip_incl x c : In c (strip x) -> In c x.
Proof.
  unfold strip.
  assert (R : forall s, In c (rstrip s) -> In c s).
  { induction s as [|a t IH]; simpl; auto.
    destruct (rstrip t) as [|y r].
    - destruct (is_space a); simpl; ptauto.
    - simpl. intros [H|H]; [left; exact H | right; apply IH; exact H]. }
  assert (L : forall s, In c (lstrip s) -> In c s).
  { induction s as [|a t IH]; simpl; auto.
    destruct (is_space a); simpl; auto. }
  intros H. apply L, R, H.
Qed.

Lemma split_nl_no_nl s : Forall (fun l => ~ In nl l) (split_nl s).
Proof.
  induction s as [|c t IH]; simpl.
  - constructor; auto.
  - destruct (ascii_eqb c nl) eqn:E.
    + constructor; auto.
    + destruct (split_nl t) as [|l ls]; [constructor; [|constructor]|].
      * simpl. intros [H|[]]. subst. rewrite ascii_eqb_refl in E. discriminate.
      * inversion IH; subst. constructor; auto.
        simpl. intros [H|H]; auto. subst. rewrite ascii_eqb_refl in E. discriminate.
Qed.

Lemma join_trimmed ls :
  Forall (fun l => ~ In nl l /\ rstrip l = l /\ lstrip l = l) ls ->
  lines_trimmed true (join_nl ls) = true.
Proof.
  induction 1 as [|l ls (Hn & Hr & Hl) F IH]; [reflexivity|].
  destruct ls as [|l2 ls'].
  - simpl. apply (trimmed_line l true [] Hn Hr (fun _ => Hl) eq_refl).
  - change (join_nl (l :: l2 :: ls')) with (l ++ nl :: join_nl (l2 :: ls')).
    apply (trimmed_line l true _ Hn Hr (fun _ => Hl) IH).
Qed.

Lemma stripped_lines_trimmed s :
  lines_trimmed true (join_nl (map strip (split_nl s))) = true.
Proof.
  apply join_trimmed. apply Forall_map.
  eapply Forall_impl; [|apply split_nl_no_nl].
  intros l Hn. simpl. repeat split.
  - intros Hi. apply Hn. eapply strip_incl; eauto.
  - apply strip_rfixed.
  - apply strip_lfixed.
Qed.

Lemma leading_newlines t :
  lines_trimmed true t = true ->
  exists k r0, t = repeat nl k ++ r0 /\ space_run t = k
    /\ match r0 with [] => True | a :: _ => is_space a = false end
    /\ lines_trimmed true r0 = true.
Proof.
  induction t as [|a t' IH]; intros H.
  - exists 0, []. simpl. auto.
  - destruct (ascii_eqb a nl) eqn:E.
    + apply ascii_eqb_eq in E. subst a.
      pose proof (trimmed_tail _ _ _ H) as H'. rewrite ascii_eqb_refl in H'.
      destruct (IH H') as (k & r0 & E1 & E2 & E3 & E4).
      exists (S k), r0. repeat split; auto.
      * simpl. f_equal. exact E1.
      * change (space_run (nl :: t')) with (S (space_run t')). f_equal. exact E2.
    + pose proof (trimmed_start_nonspace _ _ H E) as Sp.
      exists 0, (a :: t'). repeat split; auto.
      apply space_run_nonspace; auto.
Qed.

Lemma last_index_repeat k : last_index_of nl (repeat nl (S k)) = Some k.
Proof.
  induction k as [|k IH].
  - reflexivity.
  - change (repeat nl (S (S k))) with (nl :: repeat nl (S k)).
    cbn [last_index_of]. rewrite IH. reflexivity.
Qed.

Lemma firstn_repeat_app k (r0 : chars) : firstn k (repeat nl k ++ r0) = repeat nl k.
Proof. induction k; simpl; auto. f_equal. exact IHk. Qed.

Lemma skipn_repeat_app k (r0 : chars) : skipn k (repeat nl k ++ r0) = r0.
Proof. induction k; simpl; auto. Qed.

Lemma sub_go_cons m r c t :
  sub_go m r 0 (c :: t) =
  match m (c :: t) with
  | Some (S k) => r ++ sub_go m r k t
  | _ => c :: sub_go m r 0 t
  end.
Proof. reflexivity. Qed.

Lemma blank_at_newline t k r0 :
  t = repeat nl k ++ r0 -> space_run t = k ->
  sub_go m_blank [nl; nl] 0 (nl :: t) =
  match k with
  | 0 => nl :: sub_go m_blank [nl; nl] 0 r0
  | S _ => nl :: nl :: sub_go m_blank [nl; nl] 0 r0
  end.
Proof.
  intros Et Es. rewrite sub_go_cons.
  unfold m_blank. rewrite ascii_eqb_refl, Es.
  destruct k as [|k].
  - simpl in Et. subst t. reflexivity.
  - rewrite Et at 1. rewrite firstn_repeat_app, last_index_repeat.
    replace (k + 2) with (S (S k)) by lia.
    rewrite sub_go_skip. rewrite Et, skipn_repeat_app. reflexivity.
Qed.

Lemma no_triple_cons x t :
  match t with [] => True | a :: _ => ascii_eqb a nl = false end ->
  no_triple_nl t = true -> no_triple_nl (x :: t) = true.
Proof.
  intros Ea H. cbn [no_triple_nl]. rewrite H.
  destruct t as [|a [|c r]]; simpl; rewrite ?andb_false_r; auto.
  rewrite Ea. simpl. rewrite andb_false_r. reflexivity.
Qed.

Lemma no_triple_cons_nonnl x t :
  ascii_eqb x nl = false -> no_triple_nl t = true -> no_triple_nl (x :: t) = true.
Proof.
  intros Ex H. cbn [no_triple_nl]. rewrite H, Ex. reflexivity.
Qed.

Lemma nonspace_not_nl a : is_space a = false -> ascii_eqb a nl = false.
Proof.
  intros H. destruct (ascii_eqb a nl) eqn:E; auto.
  apply ascii_eqb_eq in E. subst. discriminate.
Qed.

Lemma blank_collapse n : forall s b,
  List.length s <= n -> lines_trimmed b s = true ->
  let o := sub_go m_blank [nl; nl] 0 s in
  lines_trimmed b o = true /\ no_triple_nl o = true
  /\ match s with [] => o = [] | a :: _ => exists r, o = a :: r end.
Proof.
  induction n as [|n IH]; intros s b Hl Ht.
  - destruct s; [simpl; auto | simpl in Hl; lia].
  - destruct s as [|c t]; [simpl; auto|].
    simpl in Hl. pose proof (trimmed_tail _ _ _ Ht) as Ht'.
    destruct (ascii_eqb c nl) eqn:E.
    + apply ascii_eqb_eq in E. subst c.
      destruct (leading_newlines t Ht') as (k & r0 & E1 & E2 & E3 & E4).
      assert (Hlen : List.length r0 <= n).
      { rewrite E1, length_app in Hl. lia. }
      destruct (IH r0 true Hlen E4) as (I1 & I2 & I3).
      cbv zeta. rewrite (blank_at_newline t k r0 E1 E2).
      set (o' := sub_go m_blank [nl; nl] 0 r0) in *.
      assert (Ho : match o' with [] => True | a :: _ => ascii_eqb a nl = false end).
      { destruct r0 as [|a r0']; [rewrite I3; exact I|].
        destruct I3 as [r ->]. apply nonspace_not_nl. exact E3. }
      destruct k.
      * repeat split; eauto.
        apply no_triple_cons; auto.
      * repeat split; eauto.
        -- change (no_triple_nl (nl :: nl :: o'))
             with (negb (ascii_eqb nl nl && starts_two_nl (nl :: o'))
                   && no_triple_nl (nl :: o')).
           rewrite (no_triple_cons nl o' Ho I2).
           destruct o' as [|a r]; [reflexivity|].
           simpl. rewrite Ho. reflexivity.
    + cbv zeta. rewrite sub_go_cons, m_blank_not_nl by exact E.
      assert (Hlen : List.length t <= n) by lia.
      destruct (IH t false Hlen Ht') as (I1 & I2 & I3).
      set (o' := sub_go m_blank [nl; nl] 0 t) in *.
      repeat split; eauto.
      * simpl in Ht |- *. rewrite E in *.
        destruct (is_space c); auto.
        apply andb_true_iff in Ht. destruct Ht as [Ht1 _].
        apply andb_true_iff in Ht1. destruct Ht1 as [Hb Hh].
        rewrite Hb, I1. destruct t as [|a t2]; [discriminate|].
        destruct I3 as [r ->]. rewrite Hh. reflexivity.
      * apply no_triple_cons_nonnl; auto.
Qed.

Lemma lstrip_trimmed s :
  lines_trimmed true s = true -> no_triple_nl s = true ->
  lines_trimmed true (lstrip s) = true /\ no_triple_nl (lstrip s) = true.
Proof.
  induction s as [|a t IH]; intros Ht Hn; [simpl; auto|].
  simpl lstrip. destruct (is_space a) eqn:Sp; [|auto].
  destruct (ascii_eqb a nl) eqn:E.
  - apply IH.
    + pose proof (trimmed_tail _ _ _ Ht) as H. rewrite E in H. exact H.
    + eapply no_triple_tail; eauto.
  - simpl in Ht. rewrite E, Sp in Ht. discriminate.
Qed.

Lemma rstrip_keeps_head t : forall b a t',
  lines_trimmed b t = true -> t = a :: t' -> ascii_eqb a nl = false ->
  exists r, rstrip t = a :: r.
Proof.
  induction t as [|x t0 IH]; intros b a t' Ht Et Ea; [discriminate|].
  inversion Et; subst x t0. clear Et.
  simpl in Ht. rewrite Ea in Ht.
  destruct (is_space a) eqn:Sp.
  - apply andb_true_iff in Ht. destruct Ht as [Ht1 Ht2].
    apply andb_true_iff in Ht1. destruct Ht1 as [_ Hh].
    destruct t' as [|a' t'']; [discriminate|].
    apply negb_true_iff in Hh.
    destruct (IH false a' t'' Ht2 eq_refl Hh) as [r Hr].
    exists (a' :: r). cbn [rstrip]. cbn [rstrip] in Hr. rewrite Hr. reflexivity.
  - cbn [rstrip]. destruct (rstrip t'); rewrite ?Sp; eauto.
Qed.

Lemma lines_trimmed_cons b c t :
  lines_trimmed b (c :: t) =
  if ascii_eqb c nl then lines_trimmed true t
  else if is_space c then
    negb b && match t with [] => false | a :: _ => negb (ascii_eqb a nl) end
    && lines_trimmed false t
  else lines_trimmed false t.
Proof. reflexivity. Qed.

Lemma rstrip_trimmed e : forall b,
  lines_trimmed b e = true -> lines_trimmed b (rstrip e) = true.
Proof.
  induction e as [|a t IH]; intros b Ht; [reflexivity|].
  pose proof (trimmed_tail _ _ _ Ht) as Ht'.
  specialize (IH _ Ht').
  cbn [rstrip]. destruct (rstrip t) as [|x r] eqn:Er.
  - destruct (is_space a) eqn:Sp; [reflexivity|].
    simpl. rewrite (nonspace_not_nl _ Sp), Sp. reflexivity.
  - rewrite lines_trimmed_cons in Ht |- *.
    destruct (ascii_eqb a nl) eqn:E; [exact IH|].
    destruct (is_space a) eqn:Sp; [|exact IH].
    apply andb_true_iff in Ht. destruct Ht as [Ht1 Ht2].
    apply andb_true_iff in Ht1. destruct Ht1 as [Hb Hh].
    destruct t as [|a' t'']; [discriminate|].
    apply negb_true_iff in Hh.
    destruct (rstrip_keeps_head _ false _ _ Ht2 eq_refl Hh) as [r' Hr'].
    rewrite Er in Hr'. inversion Hr'; subst x r'.
    rewrite Hb, Hh, IH. reflexivity.
Qed.

Lemma rstrip_prefix e : exists q, e = rstrip e ++ q.
Proof.
  induction e as [|a t [q IH]]; [exists []; reflexivity|].
  cbn [rstrip]. destruct (rstrip t) as [|x r].
  - destruct (is_space a).
    + exists (a :: t). reflexivity.
    + exists t. reflexivity.
  - exists q. simpl. f_equal. exact IH.
Qed.

Lemma starts_two_app p q : starts_two_nl p = true -> starts_two_nl (p ++ q) = true.
Proof. destruct p as [|b [|c r]]; simpl; auto; discriminate. Qed.

Lemma no_triple_prefix p q : no_triple_nl (p ++ q) = true -> no_triple_nl p = true.
Proof.
  induction p as [|a p' IH]; [reflexivity|].
  simpl. intros H. apply andb_true_iff in H. destruct H as [H1 H2].
  rewrite (IH H2), andb_true_r.
  destruct (ascii_eqb a nl); [|reflexivity]. simpl in *.
  destruct (starts_two_nl p') eqn:E; [|reflexivity].
  rewrite (starts_two_app p' q E) in H1. discriminate.
Qed.

Lemma tidy_is_normal s : tidy_normal (tidy_whitespace s).
Proof.
  unfold tidy_whitespace, re_sub.
  set (b := join_nl (map strip (split_nl s))).
  pose proof (stripped_lines_trimmed s) as Hb. fold b in Hb.
  destruct (blank_collapse (List.length b) b true (le_n _) Hb) as (C1 & C2 & _).
  cbv zeta in C1, C2.
  set (c := sub_go m_blank [nl; nl] 0 b) in *.
  destruct (lstrip_trimmed c C1 C2) as [L1 L2].
  repeat split.
  - unfold strip. apply rstrip_trimmed. exact L1.
  - unfold strip. destruct (rstrip_prefix (lstrip c)) as [q Hq].
    rewrite Hq in L2. eapply no_triple_prefix; eauto.
  - apply strip_idem.
Qed.

Lemma tidy_idempotent s : tidy_whitespace (tidy_whitespace s) = tidy_whitespace s.
Proof. apply tidy_fixed, tidy_is_normal. Qed.

Lemma sub_go_incl m r c : forall s k,
  In c (sub_go m r k s) -> In c s \/ In c r.
Proof.
  induction s as [|a t IH]; intros k H; [simpl in H; ptauto|].
  destruct k as [|k].
  - rewrite sub_go_cons in H. destruct (m (a :: t)) as [[|n]|].
    + destruct H as [H|H]; [left; left; exact H|].
      destruct (IH _ H); [left; right|]; ptauto.
    + apply in_app_or in H. destruct H as [H|H]; [ptauto|].
      destruct (IH _ H); [left; right|]; ptauto.
    + destruct H as [H|H]; [left; left; exact H|].
      destruct (IH _ H); [left; right|]; ptauto.
  - simpl in H. destruct (IH _ H); [left; right|]; ptauto.
Qed.

Lemma join_incl c ls :
  In c (join_nl ls) -> c = nl \/ exists l, In l ls /\ In c l.
Proof.
  induction ls as [|l ls' IH]; [simpl; ptauto|].
  destruct ls' as [|l2 ls''].
  - simpl. intros H. right. exists l. auto.
  - change (join_nl (l :: l2 :: ls'')) with (l ++ nl :: join_nl (l2 :: ls'')).
    intros H. apply in_app_or in H. destruct H as [H|[H|H]].
    + right. exists l. split; [left; reflexivity | exact H].
    + left. auto.
    + destruct (IH H) as [E|(l' & I1 & I2)]; [left; exact E|].
      right. exists l'. split; [right; exact I1 | exact I2].
Qed.

Lemma split_incl c s : forall l, In l (split_nl s) -> In c l -> In c s.
Proof.
  induction s as [|a t IH]; intros l Hl Hc.
  - simpl in Hl. destruct Hl as [<-|[]]. destruct Hc.
  - simpl in Hl. destruct (ascii_eqb a nl).
    + destruct Hl as [<-|Hl]; [destruct Hc|]. right. eapply IH; eauto.
    + destruct (split_nl t) as [|l0 ls].
      * destruct Hl as [<-|[]]. destruct Hc as [Hc|[]]. left. exact Hc.
      * destruct Hl as [<-|Hl].
        -- destruct Hc as [Hc|Hc]; [left; exact Hc|]. right. apply (IH l0); simpl; auto.
        -- right. apply (IH l); simpl; auto.
Qed.

Lemma tidy_incl c s : In c (tidy_whitespace s) -> In c s \/ c = nl.
Proof.
  unfold tidy_whitespace, re_sub. intros H.
  apply strip_incl in H. apply sub_go_incl in H.
  destruct H as [H|H].
  - apply join_incl in H. destruct H as [H|(l & Hl & Hc)]; [right; exact H|].
    apply in_map_iff in Hl. destruct Hl as (l0 & <- & Hl0).
    left. eapply split_incl; eauto. eapply strip_incl; eauto.
  - right. simpl in H. destruct H as [H|[H|[]]]; auto.
Qed.

Lemma replace_cr_no_cr x : ~ In cr (str_replace [cr] [nl] x).
Proof.
  unfold str_replace, re_sub.
  induction x as [|c t IH]; [simpl; ptauto|].
  rewrite sub_go_cons. cbn [starts_with List.length andb].
  destruct (ascii_eqb cr c) eqn:E; cbn [andb app]; intros H; destruct H as [H|H].
  - discriminate.
  - exact (IH H).
  - subst c. rewrite ascii_eqb_refl in E. discriminate.
  - exact (IH H).
Qed.

Lemma normalize_newlines_no_cr z : ~ In cr (normalize_newlines z).
Proof. apply replace_cr_no_cr. Qed.

Lemma normalize_newlines_fixed s : ~ In cr s -> normalize_newlines s = s.
Proof.
  intros H. unfold normalize_newlines, str_replace, re_sub.
  rewrite (sub_go_head_guard _ _ cr s); auto.
  - rewrite (sub_go_head_guard _ _ cr s); auto.
    intros c t Hc. cbn [starts_with]. destruct (ascii_eqb cr c) eqn:E; auto.
    apply ascii_eqb_eq in E. congruence.
  - intros c t Hc. cbn [starts_with]. destruct (ascii_eqb cr c) eqn:E; auto.
    apply ascii_eqb_eq in E. congruence.
Qed.

Lemma ascii_lower_lt c : c <> lt -> ascii_eqb lt (ascii_lower c) = false.
Proof.
  intros H. destruct (ascii_eqb lt (ascii_lower c)) eqn:E; auto.
  exfalso. apply H. clear H.
  destruct c as [[] [] [] [] [] [] [] []]; vm_compute in E; try discriminate; reflexivity.
Qed.

Lemma starts_with_ci_lt p c t :
  c <> lt -> starts_with_ci (lt :: p) (c :: t) = false.
Proof. intros H. cbn [starts_with_ci]. rewrite ascii_lower_lt; auto. Qed.

Lemma strip_markup_fixed s : ~ In lt s -> strip_markup s = s.
Proof.
  intros H. unfold strip_markup, re_sub.
  repeat (rewrite (sub_go_head_guard _ _ lt s); auto).
  - intros c t Hc. unfold m_tag. destruct (ascii_eqb c lt) eqn:E; auto.
    apply ascii_eqb_eq in E. congruence.
  - intros c t Hc. unfold m_li_close. change (lit "</li>") with (lt :: lit "/li>").
    rewrite starts_with_ci_lt; auto.
  - intros c t Hc. unfold m_open_tag. change (lit "<li") with (lt :: lit "li").
    rewrite starts_with_ci_lt; auto.
  - intros c t Hc. unfold m_br. change (lit "<br") with (lt :: lit "br").
    rewrite starts_with_ci_lt; auto.
  - intros c t Hc. unfold m_open_tag. change (lit "<img") with (lt :: lit "img").
    rewrite starts_with_ci_lt; auto.
  - intros c t Hc. unfold m_block. change (lit "<style") with (lt :: lit "style").
    rewrite starts_with_ci_lt; auto.
  - intros c t Hc. unfold m_block. change (lit "<script") with (lt :: lit "script").
    rewrite starts_with_ci_lt; auto.
Qed.

Lemma tidy_normalize_fixed z :
  let y := tidy_whitespace (normalize_newlines z) in
  tidy_whitespace (normalize_newlines y) = y.
Proof.
  cbv zeta. rewrite (normalize_newlines_fixed (tidy_whitespace (normalize_newlines z))).
  - apply tidy_idempotent.
  - intros H. apply tidy_incl in H. destruct H as [H|H]; [|discriminate].
    exact (normalize_newlines_no_cr z H).
Qed.


(** *** The monad: what a computation adds to the trace, what it returns *)

Section Framework.
Context {A B : Type}.
Variable P : event -> Prop.

Lemma oe_ret (a : A) : only_events P (ret a).
Proof. intros w. exists []. simpl. rewrite app_nil_r. auto. Qed.


Lemma oe_throw (e : exn) : only_events P (@throw A e).
Proof. intros w. exists []. simpl. rewrite app_nil_r. auto. Qed.

Lemma oe_bind (m : M A) (k : A -> M B) :
  only_events P m -> (forall a, only_events P (k a)) -> only_events P (bind m k).
Proof.
  intros Hm Hk w. unfold bind. destruct (Hm w) as (e1 & E1 & F1).
  destruct (m w) as [[a|e] w1]; simpl in *.
  - destruct (Hk a w1) as (e2 & E2 & F2). exists (e1 ++ e2).
    rewrite E2, E1, app_assoc. split; auto. apply Forall_app. auto.
  - exists e1. auto.
Qed.

End Framework.

Lemma oe_emit P e : P e -> only_events P (emit e).
Proof. intros H w. exists [e]. simpl. auto. Qed.

Lemma oe_log P l : P (EvLog l) -> only_events P (log l).
Proof. apply oe_emit. Qed.



Lemma oe_list_records P table n f :
  P (EvList table n f) -> only_events P (list_records table n f).
Proof. intros H w. exists [EvList table n f]. simpl. auto. Qed.

Lemma oe_find_one P table f v :
  P (EvFindOne table f v) -> only_events P (find_one table f v).
Proof. intros H w. exists [EvFindOne table f v]. simpl. auto. Qed.

Lemma returns_ret {A} (Q : A -> Prop) a : Q a -> returns Q (ret a).
Proof. intros H w a' w' E. inversion E. subst. exact H. Qed.

Lemma returns_bind {A B} (Q : B -> Prop) (m : M A) (k : A -> M B) :
  (forall a, returns Q (k a)) -> returns Q (bind m k).
Proof.
  intros Hk w b w' E. unfold bind in E. destruct (m w) as [[a|e] w1]; [|discriminate].
  eapply Hk; eauto.
Qed.

Lemma returns_catch {A} (Q : A -> Prop) (m : M A) (h : exn -> M A) :
  returns Q m -> (forall e, returns Q (h e)) -> returns Q (catch m h).
Proof.
  intros Hm Hh w a w' E. unfold catch in E. destruct (m w) as [[a0|e] w1] eqn:Em.
  - inversion E; subst. eapply Hm; eauto.
  - eapply Hh; eauto.
Qed.

(** *** Fit score and next action *)

Lemma clamp_range n : (1 <= clamp_1_5 n <= 5)%Z.
Proof. unfold clamp_1_5. lia. Qed.

Lemma normalize_fit_value_range v n :
  normalize_fit_value v = Ok n -> (1 <= n <= 5)%Z.
Proof.
  unfold normalize_fit_value. destruct (int_or_default v); [|discriminate].
  intros H. inversion H. apply clamp_range.
Qed.

(** Every value but an infinite float is normalised. *)
Lemma normalize_fit_value_total v :
  (forall s, v <> JFloat (S754_infinity s)) ->
  exists n, normalize_fit_value v = Ok n /\ (1 <= n <= 5)%Z.
Proof.
  intros H. unfold normalize_fit_value.
  assert (E : exists z, int_or_default v = Ok z).
  { destruct v as [| b | z | f | s | l | d]; simpl; eauto.
    - destruct f; simpl; eauto. exfalso. eapply H. reflexivity.
    - destruct (int_of_str s); eauto. }
  destruct E as [z ->]. eexists. split; [reflexivity | apply clamp_range].
Qed.

Lemma normalize_fit_value_default v :
  v = JNull \/ py_int v = Raise ValueError
  \/ py_int v = Raise TypeError ->
  normalize_fit_value v = Ok 3%Z.
Proof.
  unfold normalize_fit_value, int_or_default.
  intros [-> | [H | H]]; [reflexivity | |]; rewrite H; destruct v; reflexivity.
Qed.

Lemma scored_of_response_inv e score r :
  scored_of_response e score = Ok r ->
  normalize_fit_score score = Ok (fit_score r)
  /\ next_action r = next_action_target score (fit_score r)
  /\ raw_score r = score /\ engine r = e
  /\ gaps_risks r = dget_default score "gaps_risks" (JList [])
  /\ needs_human_input r = dget_default score "needs_human_input" (JList []).
Proof.
  unfold scored_of_response.
  destruct (normalize_fit_score score) as [n|]; [|discriminate].
  destruct (normalize_confidence score); [|discriminate].
  intros H. inversion H. simpl. auto 10.
Qed.

Lemma action_of_fit_cases n : (1 <= n <= 5)%Z ->
  (n = 5%Z /\ action_of_fit n = "Apply Now")
  \/ (n = 4%Z /\ action_of_fit n = "Apply")
  \/ ((n = 3%Z \/ n = 2%Z) /\ action_of_fit n = "Network First")
  \/ (n = 1%Z /\ action_of_fit n = "Skip").
Proof.
  intros H. assert (C : (n = 1 \/ n = 2 \/ n = 3 \/ n = 4 \/ n = 5)%Z) by lia.
  destruct C as [-> | [-> | [-> | [-> | ->]]]]; vm_compute; ptauto.
Qed.

Lemma action_of_fit_valid n : In (action_of_fit n) valid_actions.
Proof.
  unfold action_of_fit, valid_actions.
  destruct (n =? 5)%Z; [simpl; ptauto|].
  destruct (n =? 4)%Z; [simpl; ptauto|].
  destruct ((n =? 3) || (n =? 2))%Z; simpl; ptauto.
Qed.

Lemma in_set_In k s : in_set k s = true <-> In k s.
Proof.
  unfold in_set. rewrite existsb_exists. split.
  - intros (x & Hx & E). apply String.eqb_eq in E. subst. exact Hx.
  - intros H. exists k. split; auto. apply String.eqb_refl.
Qed.

Lemma next_action_target_valid score n : In (next_action_target score n) valid_actions.
Proof.
  unfold next_action_target. destruct (next_action_raw score) as [a|].
  - destruct (in_set a valid_actions) eqn:E.
    + apply in_set_In. exact E.
    + apply action_of_fit_valid.
  - apply action_of_fit_valid.
Qed.

(** *** Scorer Engine *)

Ltac break_match_in H :=
  repeat match type of H with
         | context [match ?x with _ => _ end] => destruct x eqn:?
         end.

(** A scored result of [run_single_scorer] is the result built from a
    validated response. *)
Lemma run_single_scorer_scored e si rid w r w' :
  run_single_scorer e si rid w = (Ok (Scored r), w') ->
  exists score, scored_of_response e score = Ok r.
Proof.
  unfold run_single_scorer, finish_scorer, bind, lift, ret, log, emit, request_json.
  intros H. break_match_in H; inversion H; subst; eauto.
Qed.

(** C2 (amended).  For every scored result of [run_single_scorer]: the next
    action is one of the four canonical literals; when the response's
    [next_action], with surrounding whitespace trimmed, is one of the four
    literals, the next action is that trimmed literal; in every other case
    (another text, or not a string) it is the action mapped from the
    normalized fit score: 5 -> Apply Now, 4 -> Apply, 3 or 2 -> Network First,
    1 -> Skip. *)
Theorem next_action_canonical_or_mapped e si rid w r w' :
  run_single_scorer e si rid w = (Ok (Scored r), w') ->
  In (next_action r) valid_actions
  /\ match next_action_raw (raw_score r) with
     | Some a => if in_set a valid_actions then next_action r = a else mapped_from_fit r
     | None => mapped_from_fit r
     end.
Proof.
  intros H. apply run_single_scorer_scored in H. destruct H as [score H].
  apply scored_of_response_inv in H.
  destruct H as (Hfit & Hact & Hraw & _).
  split.
  - rewrite Hact. apply next_action_target_valid.
  - assert (Hm : next_action r = action_of_fit (fit_score r) -> mapped_from_fit r).
    { intros E. unfold mapped_from_fit. rewrite E. apply action_of_fit_cases.
      eapply normalize_fit_value_range. exact Hfit. }
    rewrite Hraw. unfold next_action_target in Hact.
    destruct (next_action_raw score) as [a|]; [|auto].
    destruct (in_set a valid_actions); auto.
Qed.

(** *** Arbitration Unit *)



(** C4 (amended).  For two engines with a result each, of which exactly one
    reports a hard-gate failure, [select_ab_winner] returns the failing
    engine whatever the fit score of the other.  The winner's next action is
    the one its own scorer run produced: it is "Skip" when the winner's fit
    score is 1 and its response named no other canonical action. *)
Theorem ab_winner_single_gate_failure e1 e2 s1 s2 r1 r2 sel b1 b2 :
  e1 <> e2 ->
  scored_of_response e1 s1 = Ok r1 ->
  scored_of_response e2 s2 = Ok r2 ->
  is_hard_gate_failure r1 e1 = Ok b1 ->
  is_hard_gate_failure r2 e2 = Ok b2 ->
  xorb b1 b2 = true ->
  exists winner rw,
    select_ab_winner [(e1, r1); (e2, r2)] [e1; e2] sel = Ok winner
    /\ aget [(e1, r1); (e2, r2)] winner = Some rw
    /\ is_hard_gate_failure rw winner = Ok true
    /\ (fit_score rw = 1%Z ->
        match next_action_raw (raw_score rw) with
        | Some a => In a valid_actions -> a = "Skip"
        | None => True
        end ->
        next_action rw = "Skip").
Proof.
  intros Hne S1 S2 G1 G2 Hx.
  assert (E12 : String.eqb e1 e2 = false) by (apply String.eqb_neq; exact Hne).
  assert (Hskip : forall e s r, scored_of_response e s = Ok r ->
            fit_score r = 1%Z ->
            match next_action_raw (raw_score r) with
            | Some a => In a valid_actions -> a = "Skip"
            | None => True
            end -> next_action r = "Skip").
  { intros e s r Hs Hf Hr. apply scored_of_response_inv in Hs.
    destruct Hs as (_ & Hact & Hraw & _). rewrite Hraw in Hr.
    rewrite Hact, Hf. unfold next_action_target.
    destruct (next_action_raw s) as [a|]; [|reflexivity].
    destruct (in_set a valid_actions) eqn:Ea; [|reflexivity].
    apply Hr. apply in_set_In. exact Ea. }
  assert (A1 : aget [(e1, r1); (e2, r2)] e1 = Some r1).
  { simpl. rewrite String.eqb_refl. reflexivity. }
  assert (A2 : aget [(e1, r1); (e2, r2)] e2 = Some r2).
  { simpl. rewrite E12, String.eqb_refl. reflexivity. }
  unfold select_ab_winner. cbn [detect_failures]. rewrite A1, G1, A2, G2.
  cbn [aset]. rewrite E12.
  destruct b1, b2; try discriminate; cbn [filter snd fst map List.length Nat.eqb].
  - exists e1, r1. rewrite A1. destruct (fit_score r1 =? 1)%Z; eauto 10.
  - exists e2, r2. rewrite A2. destruct (fit_score r2 =? 1)%Z; eauto 10.
Qed.














(** *** Text Normalizer *)

(** C9 (amended).  Normalizing already-normalized text returns the same text
    whenever the normalized text holds no [<] character and no character
    reference, that is, [html.unescape] leaves it unchanged. *)
Theorem clean_html_to_text_stable (x : string) :
  ~ In lt (list_ascii_of_string (clean_html_to_text x)) ->
  html_unescape (clean_html_to_text x) = clean_html_to_text x ->
  clean_html_to_text (clean_html_to_text x) = clean_html_to_text x.
Proof.
  unfold clean_html_to_text.
  set (X := list_ascii_of_string x).
  rewrite list_ascii_of_string_of_list_ascii.
  intros Hlt Hun. f_equal.
  destruct (clean_chars X) as [|c Y] eqn:EY; [reflexivity|].
  unfold clean_chars at 1.
  rewrite (strip_markup_fixed _ Hlt), Hun, list_ascii_of_string_of_list_ascii.
  rewrite <- EY. unfold clean_chars in *. destruct X as [|a X']; [discriminate|].
  apply tidy_normalize_fixed.
Qed.

(** *** Retry protocol of the scorer *)

(** X12.  A first response that parses to an object with every required
    key is used as it is: one call, no retry. *)
Lemma run_single_scorer_first_ok e si rid w prompt model temperature text score :
  load_scorer_prompt e = Ok prompt ->
  runtime_item si "model" = Ok model ->
  runtime_item si "temperature" = Ok temperature ->
  llm_reply (llm_calls w) (py_str model)
    (prompt ^^ NL ^^ NL ^^ "INPUT_JSON:" ^^ NL ^^ json_dumps (JDict si)) = Ok text ->
  validate_keys scorer_required_keys (safe_parse_json text) = Ok (Some score) ->
  exists w',
    run_single_scorer e si rid w
    = (match scored_of_response e score with Ok r => Ok (Scored r) | Raise x => Raise x end,
       w')
    /\ llm_calls w' = S (llm_calls w)
    /\ trace w' = trace w ++ [EvLLM ScorerFirst (py_str model)
                (prompt ^^ NL ^^ NL ^^ "INPUT_JSON:" ^^ NL ^^ json_dumps (JDict si))].
Proof.
  intros Hp Hm Ht Hl Hv.
  unfold run_single_scorer, finish_scorer, bind, lift, ret, request_json.
  rewrite Hp, Hm, Ht, Hl, Hv.
  destruct (scored_of_response e score); eexists; repeat split; reflexivity.
Qed.

(** A first response that is unparsable, empty or short of a required key
    is followed by exactly one retry, whose prompt is the first prompt with
    the strict-JSON instruction appended; when the retry fails in the same
    way the result is the error result, after two calls. *)
Lemma run_single_scorer_retry_fails e si rid w prompt model temperature text1 text2 :
  load_scorer_prompt e = Ok prompt ->
  runtime_item si "model" = Ok model ->
  runtime_item si "temperature" = Ok temperature ->
  let full_prompt := prompt ^^ NL ^^ NL ^^ "INPUT_JSON:" ^^ NL ^^ json_dumps (JDict si) in
  llm_reply (llm_calls w) (py_str model) full_prompt = Ok text1 ->
  validate_keys scorer_required_keys (safe_parse_json text1) = Ok None ->
  llm_reply (S (llm_calls w)) (py_str model) (full_prompt ^^ strict_json_instruction)
  = Ok text2 ->
  validate_keys scorer_required_keys (safe_parse_json text2) = Ok None ->
  exists w',
    run_single_scorer e si rid w = (Ok (ScorerError "invalid_model_output" e), w')
    /\ llm_calls w' = S (S (llm_calls w))
    /\ trace w' = trace w
         ++ [EvLLM ScorerFirst (py_str model) full_prompt;
             EvLLM ScorerRetry (py_str model) (full_prompt ^^ strict_json_instruction);
             EvLog ("FAIL_BAD_MODEL_OUTPUT record_id=" ^^ rid ^^ " engine=" ^^ e)].
Proof.
  intros Hp Hm Ht full_prompt Hl1 Hv1 Hl2 Hv2.
  unfold run_single_scorer, finish_scorer, bind, lift, ret, request_json, log, emit.
  fold full_prompt.
  rewrite Hp, Hm, Ht. fold full_prompt. rewrite Hl1, Hv1. cbn [llm_calls].
  rewrite Hl2, Hv2. cbn [llm_calls store_reads store_writes trace].
  eexists. repeat split. rewrite <- !app_assoc. reflexivity.
Qed.

(** The same with a retry that succeeds. *)
Lemma run_single_scorer_retry_ok e si rid w prompt model temperature text1 text2 score :
  load_scorer_prompt e = Ok prompt ->
  runtime_item si "model" = Ok model ->
  runtime_item si "temperature" = Ok temperature ->
  let full_prompt := prompt ^^ NL ^^ NL ^^ "INPUT_JSON:" ^^ NL ^^ json_dumps (JDict si) in
  llm_reply (llm_calls w) (py_str model) full_prompt = Ok text1 ->
  validate_keys scorer_required_keys (safe_parse_json text1) = Ok None ->
  llm_reply (S (llm_calls w)) (py_str model) (full_prompt ^^ strict_json_instruction)
  = Ok text2 ->
  validate_keys scorer_required_keys (safe_parse_json text2) = Ok (Some score) ->
  exists w',
    run_single_scorer e si rid w
    = (match scored_of_response e score with Ok r => Ok (Scored r) | Raise x => Raise x end,
       w')
    /\ llm_calls w' = S (S (llm_calls w)).
Proof.
  intros Hp Hm Ht full_prompt Hl1 Hv1 Hl2 Hv2.
  unfold run_single_scorer, finish_scorer, bind, lift, ret, request_json, log, emit.
  fold full_prompt.
  rewrite Hp, Hm, Ht. fold full_prompt. rewrite Hl1, Hv1. cbn [llm_calls].
  rewrite Hl2, Hv2.
  destruct (scored_of_response e score); eexists; repeat split; reflexivity.
Qed.

(** A first response that parses to a value that is neither empty nor an
    object (a non-empty array, a number, a string, [true]) stops the scorer
    with [AttributeError] after the first call: no retry is made. *)
Lemma run_single_scorer_non_object e si rid w prompt model temperature text :
  load_scorer_prompt e = Ok prompt ->
  runtime_item si "model" = Ok model ->
  runtime_item si "temperature" = Ok temperature ->
  llm_reply (llm_calls w) (py_str model)
    (prompt ^^ NL ^^ NL ^^ "INPUT_JSON:" ^^ NL ^^ json_dumps (JDict si)) = Ok text ->
  truthy (safe_parse_json text) = true ->
  (forall d, safe_parse_json text <> JDict d) ->
  exists w',
    run_single_scorer e si rid w = (Raise AttributeError, w')
    /\ llm_calls w' = S (llm_calls w).
Proof.
  intros Hp Hm Ht Hl Htr Hnd.
  unfold run_single_scorer, finish_scorer, bind, lift, ret, request_json.
  rewrite Hp, Hm, Ht, Hl. unfold validate_keys. rewrite Htr. cbn [negb].
  destruct (safe_parse_json text) eqn:E; try (eexists; split; reflexivity).
  exfalso. eapply Hnd. reflexivity.
Qed.

(** *** The run: configuration errors *)

Lemma oe_bind_returns {A B} P (Q : A -> Prop) (m : M A) (k : A -> M B) :
  only_events P m -> returns Q m -> (forall a, Q a -> only_events P (k a)) ->
  only_events P (bind m k).
Proof.
  intros Hm Hr Hk w. unfold bind. destruct (Hm w) as (e1 & E1 & F1).
  destruct (m w) as [[a|e] w1] eqn:Em; simpl in *.
  - destruct (Hk a (Hr _ _ _ Em) w1) as (e2 & E2 & F2). exists (e1 ++ e2).
    rewrite E2, E1, app_assoc. split; auto. apply Forall_app. auto.
  - exists e1. auto.
Qed.

Lemma quiet_ret {A} (a : A) : quiet (ret a).
Proof. intros w. split; reflexivity. Qed.

Lemma quiet_lift {A} (r : res A) : quiet (lift r).
Proof. intros w. split; reflexivity. Qed.

Lemma quiet_throw {A} e : quiet (@throw A e).
Proof. intros w. split; reflexivity. Qed.

Lemma quiet_log l : quiet (log l).
Proof. intros w. split; reflexivity. Qed.

Lemma quiet_list_records t n f : quiet (list_records t n f).
Proof. intros w. split; reflexivity. Qed.

Lemma quiet_find_one t f v : quiet (find_one t f v).
Proof. intros w. split; reflexivity. Qed.

Lemma quiet_bind_returns {A B} (Q : A -> Prop) (m : M A) (k : A -> M B) :
  quiet m -> returns Q m -> (forall a, Q a -> quiet (k a)) -> quiet (bind m k).
Proof.
  intros Hm Hr Hk w. unfold bind. destruct (Hm w) as [L1 W1].
  destruct (m w) as [[a|e] w1] eqn:Em; simpl in *; auto.
  destruct (Hk a (Hr _ _ _ Em) w1) as [L2 W2]. split; congruence.
Qed.

Lemma quiet_bind {A B} (m : M A) (k : A -> M B) :
  quiet m -> (forall a, quiet (k a)) -> quiet (bind m k).
Proof.
  intros Hm Hk. apply (quiet_bind_returns (fun _ => True)); auto.
  intros w a w' _. exact I.
Qed.

Lemma returns_any {A} (m : M A) : returns (fun _ => True) m.
Proof. intros w a w' _. exact I. Qed.

Lemma log_active_engines_setup engines :
  only_events setup_event (log_active_engines engines)
  /\ quiet (log_active_engines engines).
Proof.
  induction engines as [|e es [IH1 IH2]]; cbn [log_active_engines].
  - split; [apply oe_ret | apply quiet_ret].
  - split.
    + apply oe_bind; [|intros; exact IH1].
      destruct (load_scorer_prompt e).
      * apply oe_bind; [|intros]; apply oe_log; exact I.
      * apply oe_log; exact I.
    + apply quiet_bind; [|intros; exact IH2].
      destruct (load_scorer_prompt e).
      * apply quiet_bind; [|intros]; apply quiet_log.
      * apply quiet_log.
Qed.

Lemma sample_valid_fields_setup table :
  only_events setup_event (sample_valid_fields table)
  /\ quiet (sample_valid_fields table).
Proof.
  unfold sample_valid_fields. split.
  - apply oe_bind; [apply oe_list_records; exact I | intros; apply oe_ret].
  - apply quiet_bind; [apply quiet_list_records | intros; apply quiet_ret].
Qed.

Lemma load_candidate_setup settings :
  only_events setup_event (load_candidate settings) /\ quiet (load_candidate settings).
Proof.
  unfold load_candidate. split.
  - apply oe_bind; [apply oe_find_one; exact I | intros [r|]; [|apply oe_throw]].
    destruct (negb _); [apply oe_bind; [apply oe_log; exact I | intros; apply oe_ret]|].
    destruct (dget _ _); try apply oe_throw.
    destruct (json_loads s); [apply oe_ret|].
    apply oe_bind; [apply oe_log; exact I | intros; apply oe_ret].
  - apply quiet_bind; [apply quiet_find_one | intros [r|]; [|apply quiet_throw]].
    destruct (negb _); [apply quiet_bind; [apply quiet_log | intros; apply quiet_ret]|].
    destruct (dget _ _); try apply quiet_throw.
    destruct (json_loads s); [apply quiet_ret|].
    apply quiet_bind; [apply quiet_log | intros; apply quiet_ret].
Qed.

Lemma load_candidate_unusable settings :
  (forall n t f v, exists c, store_find_one n t f v = Ok c /\ candidate_unusable c) ->
  returns (fun c => c = None) (load_candidate settings).
Proof.
  intros H w a w' E. unfold load_candidate, bind, find_one in E.
  destruct (H (store_reads w) (AIRTABLE_TABLE_CANDIDATE settings)
              (CANDIDATE_PROFILE_ID_FIELD settings)
              (CANDIDATE_PROFILE_ID_VALUE settings)) as (c & Ec & Hc).
  rewrite Ec in E. destruct c as [r|]; [|discriminate].
  simpl in Hc. destruct Hc as [Hc | (text & Ht & Hl)].
  - rewrite Hc in E. cbn [negb] in E. unfold log, emit, ret in E. inversion E. reflexivity.
  - rewrite Ht in E. destruct (negb (truthy (JStr text))).
    + unfold log, emit, ret in E. inversion E. reflexivity.
    + rewrite Hl in E. unfold log, emit, ret in E. inversion E. reflexivity.
Qed.

Lemma returns_bind_returns {A B} (Q' : A -> Prop) (Q : B -> Prop) (m : M A) (k : A -> M B) :
  returns Q' m -> (forall a, Q' a -> returns Q (k a)) -> returns Q (bind m k).
Proof.
  intros Hm Hk w b w' E. unfold bind in E.
  destruct (m w) as [[a|e] w1] eqn:Em; [|discriminate].
  eapply Hk; eauto.
Qed.

(** *** One record: which events its processing can add *)


Section Footprints.

Variable P : event -> Prop.
Hypothesis P_log : forall l, P (EvLog l).
Hypothesis P_update : forall t r f, P (EvUpdate t r f).
Hypothesis P_first : forall m p, P (EvLLM ScorerFirst m p).
Hypothesis P_retry : forall m p, P (EvLLM ScorerRetry m p).













End Footprints.


(** *** One record: the minimum-length check *)

Lemma filter_fields_to_table_spec payload names : forall w,
  filter_fields_to_table payload names w
  = (Ok (filter (fun kv => in_set (fst kv) names) payload),
     {| llm_calls := llm_calls w; store_reads := store_reads w;
        store_writes := store_writes w;
        trace := trace w
                 ++ map (fun kv => EvLog ("FIELD_DROP " ^^ fst kv))
                      (filter (fun kv => negb (in_set (fst kv) names)) payload) |}).
Proof.
  induction payload as [|[k v] rest IH]; intros w; cbn [filter_fields_to_table filter fst].
  - unfold ret. cbn [map]. rewrite app_nil_r. destruct w; reflexivity.
  - destruct (in_set k names); cbn [negb].
    + unfold bind. rewrite IH. reflexivity.
    + unfold bind, log, emit. rewrite IH. cbn [llm_calls store_reads store_writes trace map].
      rewrite <- app_assoc. reflexivity.
Qed.

Lemma returns_score_and_persist job_record settings cand names vf dry_run scorer_engine
    ab_test sel run_id parsed cleaned :
  returns (fun r => forall reason, r <> JobSkipped reason)
    (score_and_persist job_record settings cand names vf dry_run scorer_engine ab_test
       sel run_id parsed cleaned).
Proof.
  unfold score_and_persist. apply returns_catch.
  - apply returns_bind. intros _. apply returns_bind. intros [[r ab]|].
    + apply returns_bind. intros _. apply returns_ret. discriminate.
    + apply returns_ret. discriminate.
  - intros e. unfold on_scoring_error. apply returns_bind. intros _.
    apply returns_ret. discriminate.
Qed.



(** *** Strategy normalizers *)

Lemma chars_of_append a b :
  list_ascii_of_string (a ^^ b) = list_ascii_of_string a ++ list_ascii_of_string b.
Proof. induction a as [|c a IH]; simpl; [reflexivity | rewrite IH; reflexivity]. Qed.

Lemma py_strip_idem s : py_strip (py_strip s) = py_strip s.
Proof.
  unfold py_strip. rewrite list_ascii_of_string_of_list_ascii, strip_idem. reflexivity.
Qed.

Lemma char_lower_idem c : char_lower (char_lower c) = char_lower c.
Proof. destruct c as [[] [] [] [] [] [] [] []]; reflexivity. Qed.

Lemma is_space_lower c : is_space (char_lower c) = is_space c.
Proof. destruct c as [[] [] [] [] [] [] [] []]; reflexivity. Qed.

Lemma lstrip_lower l : lstrip (map char_lower l) = map char_lower (lstrip l).
Proof.
  induction l as [|c l IH]; simpl; [reflexivity|].
  rewrite is_space_lower. destruct (is_space c); [exact IH | reflexivity].
Qed.

Lemma rstrip_lower l : rstrip (map char_lower l) = map char_lower (rstrip l).
Proof.
  induction l as [|c l IH]; simpl; [reflexivity|].
  rewrite IH, is_space_lower.
  destruct (rstrip l); simpl; [destruct (is_space c)|]; reflexivity.
Qed.

Lemma py_strip_lower s : py_strip (py_lower s) = py_lower (py_strip s).
Proof.
  unfold py_strip, py_lower, strip.
  rewrite !list_ascii_of_string_of_list_ascii, lstrip_lower, rstrip_lower. reflexivity.
Qed.

Lemma py_lower_idem s : py_lower (py_lower s) = py_lower s.
Proof.
  unfold py_lower. rewrite list_ascii_of_string_of_list_ascii, map_map.
  f_equal. apply map_ext. apply char_lower_idem.
Qed.

Lemma py_lower_empty s : String.eqb (py_lower s) "" = String.eqb s "".
Proof. destruct s; reflexivity. Qed.

Lemma normalize_strategy_values raw :
  normalize_strategy raw = "Apply" \/ normalize_strategy raw = "Network First"
  \/ normalize_strategy raw = "Skip".
Proof.
  unfold normalize_strategy.
  repeat match goal with
         | |- context [if ?b then _ else _] => destruct b
         end; auto.
Qed.

Lemma normalize_strategy_range (raw : string) :
  In (normalize_strategy raw) ["Apply"; "Network First"; "Skip"]
  /\ normalize_strategy (normalize_strategy raw) = normalize_strategy raw.
Proof.
  destruct (normalize_strategy_values raw) as [E|[E|E]]; rewrite E;
    (split; [simpl; auto | reflexivity]).
Qed.

Lemma normalize_strategy_case_and_padding (raw : string) :
  normalize_strategy (py_lower raw) = normalize_strategy raw
  /\ normalize_strategy (py_strip raw) = normalize_strategy raw.
Proof.
  split.
  - unfold normalize_strategy. rewrite py_lower_empty, py_strip_lower, py_lower_idem.
    reflexivity.
  - unfold normalize_strategy at 1. destruct (String.eqb (py_strip raw) "") eqn:E.
    + apply String.eqb_eq in E. unfold normalize_strategy.
      destruct (String.eqb raw ""); [reflexivity|]. rewrite E. reflexivity.
    + rewrite py_strip_idem. unfold normalize_strategy.
      destruct (String.eqb raw "") eqn:E2; [|reflexivity].
      apply String.eqb_eq in E2. subst raw. discriminate E.
Qed.

(** X1.  [utils.normalize_strategy] returns one of the three options of the
    [Strategy] field whatever the text, leaves its own results unchanged,
    and does not depend on the case of the letters nor on whitespace
    around the text. *)
Theorem normalize_strategy_closed (raw : string) :
  In (normalize_strategy raw) ["Apply"; "Network First"; "Skip"]
  /\ normalize_strategy (normalize_strategy raw) = normalize_strategy raw
  /\ normalize_strategy (py_lower raw) = normalize_strategy raw
  /\ normalize_strategy (py_strip raw) = normalize_strategy raw.
Proof.
  destruct (normalize_strategy_range raw) as [H1 H2].
  destruct (normalize_strategy_case_and_padding raw) as [H3 H4]. auto.
Qed.

Lemma pipeline_normalize_strategy_values s :
  _normalize_strategy s = "Apply Now" \/ _normalize_strategy s = "Apply"
  \/ _normalize_strategy s = "Network First" \/ _normalize_strategy s = "Skip".
Proof.
  unfold _normalize_strategy.
  repeat match goal with
         | |- context [if ?b then _ else _] => destruct b
         end; auto.
Qed.

(** X2.  [pipeline._normalize_strategy] returns one of the four canonical
    actions whatever the text, leaves its own results unchanged and does
    not depend on the case of the letters. *)
Theorem pipeline_normalize_strategy_closed (s : string) :
  In (_normalize_strategy s) valid_actions
  /\ _normalize_strategy (_normalize_strategy s) = _normalize_strategy s
  /\ _normalize_strategy (py_lower s) = _normalize_strategy s.
Proof.
  split; [|split].
  - destruct (pipeline_normalize_strategy_values s) as [E|[E|[E|E]]]; rewrite E;
      simpl; auto.
  - destruct (pipeline_normalize_strategy_values s) as [E|[E|[E|E]]]; rewrite E;
      reflexivity.
  - unfold _normalize_strategy. rewrite py_lower_empty, py_lower_idem. reflexivity.
Qed.

(** *** [utils]: notes, lines, JSON extraction *)

Lemma append_assoc_s (a b c : string) : (a ^^ b) ^^ c = a ^^ b ^^ c.
Proof. induction a as [|x a IH]; simpl; [reflexivity | rewrite IH; reflexivity]. Qed.

Lemma strip_head_nonspace x c t : strip x = c :: t -> is_space c = false.
Proof.
  intros E. pose proof (strip_lfixed x) as H. rewrite E in H.
  apply lstrip_fixed_head in H. exact H.
Qed.

Lemma rstrip_app p q : rstrip q <> [] -> rstrip (p ++ q) = p ++ rstrip q.
Proof.
  intros H. induction p as [|c p IH]; simpl; [reflexivity|].
  rewrite IH. destruct (p ++ rstrip q) eqn:E; [|reflexivity].
  apply app_eq_nil in E. destruct E as [_ E]. contradiction.
Qed.

Lemma strip_glue x y :
  strip x <> [] -> strip y <> [] ->
  strip (strip x ++ nl :: strip y) = strip x ++ nl :: strip y.
Proof.
  intros Hx Hy. unfold strip at 1.
  destruct (strip x) as [|c t] eqn:Ex; [contradiction|].
  cbn [app]. rewrite (lstrip_nonspace c _ (strip_head_nonspace _ _ _ Ex)).
  change (c :: t ++ nl :: strip y) with ((c :: t) ++ (nl :: strip y)).
  assert (Hr : rstrip (nl :: strip y) = nl :: strip y)
    by (apply rstrip_fixed_cons; [assumption | apply strip_rfixed]).
  rewrite rstrip_app; rewrite Hr; [reflexivity | discriminate].
Qed.

Lemma string_of_chars_nil l : string_of_list_ascii l = "" -> l = [].
Proof. destruct l; [reflexivity | discriminate]. Qed.

Lemma string_of_chars_app x y :
  string_of_list_ascii (x ++ y) = string_of_list_ascii x ^^ string_of_list_ascii y.
Proof. induction x as [|c x IH]; simpl; [reflexivity | rewrite IH; reflexivity]. Qed.

Lemma py_strip_glue a b :
  py_strip a <> "" -> py_strip b <> "" ->
  py_strip (py_strip a ^^ NL ^^ py_strip b) = py_strip a ^^ NL ^^ py_strip b.
Proof.
  intros Ha Hb. unfold py_strip at 1.
  rewrite !chars_of_append. unfold py_strip in *.
  rewrite !list_ascii_of_string_of_list_ascii.
  change (list_ascii_of_string NL) with [nl]. cbn [app].
  rewrite strip_glue.
  - rewrite string_of_chars_app. reflexivity.
  - intros E. apply Ha. rewrite E. reflexivity.
  - intros E. apply Hb. rewrite E. reflexivity.
Qed.

Lemma merge_notes_eq a b :
  merge_notes a b =
  if String.eqb (py_strip a) "" then py_strip b
  else if String.eqb (py_strip b) "" then py_strip a
  else py_strip a ^^ NL ^^ py_strip b.
Proof.
  unfold merge_notes.
  destruct (String.eqb (py_strip a) ""), (String.eqb (py_strip b) ""); reflexivity.
Qed.

Lemma merge_notes_trimmed a b : py_strip (merge_notes a b) = merge_notes a b.
Proof.
  rewrite merge_notes_eq.
  destruct (String.eqb_spec (py_strip a) ""); [apply py_strip_idem|].
  destruct (String.eqb_spec (py_strip b) ""); [apply py_strip_idem|].
  apply py_strip_glue; assumption.
Qed.

Lemma merge_notes_assoc (a b c : string) :
  merge_notes (merge_notes a b) c = merge_notes a (merge_notes b c).
Proof.
  rewrite (merge_notes_eq (merge_notes a b) c), (merge_notes_eq a (merge_notes b c)).
  rewrite !merge_notes_trimmed, !merge_notes_eq.
  destruct (py_strip a) as [|xa A], (py_strip b) as [|xb B], (py_strip c) as [|xc C];
    cbn [String.eqb Ascii.eqb String.append]; try reflexivity.
  rewrite append_assoc_s. reflexivity.
Qed.

Lemma merge_notes_blank_unit (a b : string) :
  py_strip (merge_notes a b) = merge_notes a b
  /\ (py_strip b = "" -> merge_notes a b = py_strip a)
  /\ (py_strip a = "" -> merge_notes a b = py_strip b)
  /\ (merge_notes a b = "" <-> py_strip a = "" /\ py_strip b = "").
Proof.
  split; [apply merge_notes_trimmed|]. rewrite merge_notes_eq.
  destruct (py_strip a) as [|xa A], (py_strip b) as [|xb B];
    cbn [String.eqb Ascii.eqb String.append];
    repeat split; intros; try reflexivity; try discriminate;
    repeat match goal with H : _ /\ _ |- _ => destruct H end; try discriminate.
Qed.

(** X3.  [utils.merge_notes] is associative: merging three blocks of notes
    gives the same text however the merges are nested.  The result is
    trimmed; a blank block is a unit (merged with it, the other block comes
    back trimmed), and the result is empty only when both blocks are
    blank. *)
Theorem merge_notes_monoid (a b c : string) :
  merge_notes (merge_notes a b) c = merge_notes a (merge_notes b c)
  /\ py_strip (merge_notes a b) = merge_notes a b
  /\ (py_strip b = "" -> merge_notes a b = py_strip a)
  /\ (py_strip a = "" -> merge_notes a b = py_strip b)
  /\ (merge_notes a b = "" <-> py_strip a = "" /\ py_strip b = "").
Proof. split; [apply merge_notes_assoc | apply merge_notes_blank_unit]. Qed.

Lemma chars_of_str_join K :
  list_ascii_of_string (str_join NL K) = join_nl (map list_ascii_of_string K).
Proof.
  induction K as [|x [|y r] IH]; [reflexivity | reflexivity |].
  change (str_join NL (x :: y :: r)) with (x ^^ NL ^^ str_join NL (y :: r)).
  rewrite !chars_of_append, IH. reflexivity.
Qed.

Lemma split_nl_plain l : ~ In nl l -> split_nl l = [l].
Proof.
  induction l as [|a l IH]; simpl; intros H; [reflexivity|].
  destruct (ascii_eqb a nl) eqn:E.
  - apply ascii_eqb_eq in E. subst. exfalso. apply H. left. reflexivity.
  - rewrite IH; [reflexivity | intros X; apply H; right; exact X].
Qed.

Lemma split_nl_app l t : ~ In nl l -> split_nl (l ++ nl :: t) = l :: split_nl t.
Proof.
  induction l as [|a l IH]; intros H.
  - cbn [app]. apply split_nl_cons_nl.
  - cbn [app split_nl]. destruct (ascii_eqb a nl) eqn:E.
    + apply ascii_eqb_eq in E. subst. exfalso. apply H. left. reflexivity.
    + rewrite IH; [reflexivity | intros X; apply H; right; exact X].
Qed.

Lemma split_join L :
  Forall (fun l => ~ In nl l) L -> L <> [] -> split_nl (join_nl L) = L.
Proof.
  induction L as [|l [|l2 r] IH]; intros HF HN.
  - contradiction.
  - apply split_nl_plain. inversion HF; assumption.
  - change (join_nl (l :: l2 :: r)) with (l ++ nl :: join_nl (l2 :: r)).
    inversion HF; subst. rewrite split_nl_app by assumption.
    rewrite IH; [reflexivity | assumption | discriminate].
Qed.

Lemma kept_items_strings lines :
  kept_items (map JStr lines)
  = filter (fun s => negb (String.eqb (py_strip s) "")) lines.
Proof.
  unfold kept_items. induction lines as [|s r IH]; [reflexivity|].
  cbn [map filter is_none negb andb py_str].
  destruct (negb (String.eqb (py_strip s) "")); cbn [map py_str]; rewrite IH; reflexivity.
Qed.

(** X4.  [utils.join_lines] on a list of strings: the blank items are dropped,
    and splitting the result at the newlines gives the other items back, in
    order, when none of them holds a newline and at least one is left. *)
Theorem join_lines_split_back (lines : list string) :
  let kept := filter (fun s => negb (String.eqb (py_strip s) "")) lines in
  kept <> [] ->
  Forall (fun s => ~ In nl (list_ascii_of_string s)) kept ->
  map string_of_list_ascii
    (split_nl (list_ascii_of_string (join_lines (JList (map JStr lines)))))
  = kept.
Proof.
  intros kept Hne Hnl. unfold join_lines. rewrite kept_items_strings. fold kept.
  rewrite chars_of_str_join, split_join.
  - rewrite map_map. rewrite <- (map_id kept) at 2. apply map_ext.
    apply string_of_list_ascii_of_string.
  - apply Forall_map. exact Hnl.
  - destruct kept; [contradiction | discriminate].
Qed.

Lemma last_index_none c s : ~ In c s -> last_index_of c s = None.
Proof.
  induction s as [|b s IH]; intros H; [reflexivity|].
  cbn [last_index_of]. rewrite IH by (intros X; apply H; right; exact X).
  destruct (ascii_eqb c b) eqn:E; [|reflexivity].
  apply ascii_eqb_eq in E. subst. exfalso. apply H. left. reflexivity.
Qed.

Lemma last_index_of_mid c body post :
  ~ In c post -> last_index_of c (body ++ c :: post) = Some (List.length body).
Proof.
  intros H. induction body as [|b body IH].
  - cbn [app last_index_of List.length]. rewrite (last_index_none _ _ H).
    rewrite ascii_eqb_refl. reflexivity.
  - cbn [app last_index_of List.length]. rewrite IH. reflexivity.
Qed.

Lemma firstn_mid (body : chars) c post :
  firstn (S (List.length body)) (body ++ c :: post) = body ++ [c].
Proof.
  induction body as [|b body IH]; [reflexivity|].
  cbn [app List.length]. rewrite firstn_cons, IH. reflexivity.
Qed.

Lemma find_json_span_skip pre rest :
  ~ In (ascii_of_nat 123) pre -> ~ In (ascii_of_nat 91) pre ->
  find_json_span (pre ++ rest) = find_json_span rest.
Proof.
  induction pre as [|c pre IH]; intros H1 H2; [reflexivity|].
  cbn [app find_json_span].
  destruct (ascii_eqb c (ascii_of_nat 123)) eqn:E1.
  { apply ascii_eqb_eq in E1. subst. exfalso. apply H1. left. reflexivity. }
  destruct (ascii_eqb c (ascii_of_nat 91)) eqn:E2.
  { apply ascii_eqb_eq in E2. subst. exfalso. apply H2. left. reflexivity. }
  apply IH; intros X; [apply H1 | apply H2]; right; exact X.
Qed.

Lemma find_json_span_brace t :
  find_json_span (ascii_of_nat 123 :: t)
  = match last_index_of (ascii_of_nat 125) t with
    | Some p => Some (ascii_of_nat 123 :: firstn (S p) t)
    | None => find_json_span t
    end.
Proof. reflexivity. Qed.

Lemma find_json_span_bracket t :
  find_json_span (ascii_of_nat 91 :: t)
  = match last_index_of (ascii_of_nat 93) t with
    | Some p => Some (ascii_of_nat 91 :: firstn (S p) t)
    | None => find_json_span t
    end.
Proof. reflexivity. Qed.

Lemma string_of_wrapped (o c : ascii) (body : string) :
  string_of_list_ascii (o :: list_ascii_of_string body ++ [c])
  = String o "" ^^ body ^^ String c "".
Proof.
  rewrite <- (string_of_list_ascii_of_string (String o "" ^^ body ^^ String c "")).
  rewrite !chars_of_append. reflexivity.
Qed.

(** X5.  [utils.safe_parse_json] on a text that does not parse as a whole but
    holds one JSON object between prose: when no brace or bracket opens
    before the object and no brace closes after it, the result is the
    object. *)
Theorem safe_parse_json_extracts_object (pre body post : string) (d : pydict) :
  json_loads (pre ^^ "{" ^^ body ^^ "}" ^^ post) = None ->
  ~ In (ascii_of_nat 123) (list_ascii_of_string pre) ->
  ~ In (ascii_of_nat 91) (list_ascii_of_string pre) ->
  ~ In (ascii_of_nat 125) (list_ascii_of_string post) ->
  json_loads ("{" ^^ body ^^ "}") = Some (JDict d) ->
  safe_parse_json (pre ^^ "{" ^^ body ^^ "}" ^^ post) = JDict d.
Proof.
  intros Hw H1 H2 H3 Ho. unfold safe_parse_json. rewrite Hw.
  rewrite !chars_of_append, find_json_span_skip by assumption.
  change (list_ascii_of_string "{") with [ascii_of_nat 123].
  change (list_ascii_of_string "}") with [ascii_of_nat 125].
  cbn [app]. rewrite find_json_span_brace.
  rewrite last_index_of_mid by assumption. rewrite firstn_mid, string_of_wrapped.
  change (String (ascii_of_nat 123) "") with "{".
  change (String (ascii_of_nat 125) "") with "}".
  rewrite Ho. reflexivity.
Qed.

(** X6.  [utils.safe_parse_json] on a text that does not parse as a whole but
    holds one JSON array between prose: the array is returned wrapped in an
    object, under the key [_list]. *)
Theorem safe_parse_json_wraps_array (pre body post : string) (l : list json) :
  json_loads (pre ^^ "[" ^^ body ^^ "]" ^^ post) = None ->
  ~ In (ascii_of_nat 123) (list_ascii_of_string pre) ->
  ~ In (ascii_of_nat 91) (list_ascii_of_string pre) ->
  ~ In (ascii_of_nat 93) (list_ascii_of_string post) ->
  json_loads ("[" ^^ body ^^ "]") = Some (JList l) ->
  safe_parse_json (pre ^^ "[" ^^ body ^^ "]" ^^ post) = JDict [("_list", JList l)].
Proof.
  intros Hw H1 H2 H3 Ho. unfold safe_parse_json. rewrite Hw.
  rewrite !chars_of_append, find_json_span_skip by assumption.
  change (list_ascii_of_string "[") with [ascii_of_nat 91].
  change (list_ascii_of_string "]") with [ascii_of_nat 93].
  cbn [app]. rewrite find_json_span_bracket.
  rewrite last_index_of_mid by assumption. rewrite firstn_mid, string_of_wrapped.
  change (String (ascii_of_nat 91) "") with "[".
  change (String (ascii_of_nat 93) "") with "]".
  rewrite Ho. reflexivity.
Qed.

(** *** Counting calls, reads and writes *)

Section Counting.
Context {A B : Type}.
Variable c : counter.

Lemma keeps_ret (a : A) : keeps c (ret a).
Proof. intros w. reflexivity. Qed.

Lemma keeps_lift (r : res A) : keeps c (lift r).
Proof. intros w. reflexivity. Qed.

Lemma keeps_throw (e : exn) : keeps c (@throw A e).
Proof. intros w. reflexivity. Qed.

Lemma keeps_bind (m : M A) (k : A -> M B) :
  keeps c m -> (forall a, keeps c (k a)) -> keeps c (bind m k).
Proof.
  intros Hm Hk w. unfold bind. specialize (Hm w).
  destruct (m w) as [[a|e] w1]; cbn [snd] in *; [rewrite Hk|]; exact Hm.
Qed.

Lemma keeps_catch (m : M A) (h : exn -> M A) :
  keeps c m -> (forall e, keeps c (h e)) -> keeps c (catch m h).
Proof.
  intros Hm Hh w. unfold catch. specialize (Hm w).
  destruct (m w) as [[a|e] w1]; cbn [snd] in *; [|rewrite Hh]; exact Hm.
Qed.

Lemma at_most_keeps n (m : M A) : keeps c m -> at_most c n m.
Proof. intros H w. rewrite H. lia. Qed.

Lemma at_most_weaken n n' (m : M A) : n <= n' -> at_most c n m -> at_most c n' m.
Proof. intros Hn H w. specialize (H w). lia. Qed.

Lemma at_most_bind n1 n2 (m : M A) (k : A -> M B) :
  at_most c n1 m -> (forall a, at_most c n2 (k a)) -> at_most c (n1 + n2) (bind m k).
Proof.
  intros Hm Hk w. unfold bind. specialize (Hm w).
  destruct (m w) as [[a|e] w1]; cbn [snd] in *; [specialize (Hk a w1)|]; lia.
Qed.

Lemma at_most_catch n1 n2 (m : M A) (h : exn -> M A) :
  at_most c n1 m -> (forall e, at_most c n2 (h e)) -> at_most c (n1 + n2) (catch m h).
Proof.
  intros Hm Hh w. unfold catch. specialize (Hm w).
  destruct (m w) as [[a|e] w1]; cbn [snd] in *; [|specialize (Hh e w1)]; lia.
Qed.
End Counting.

Lemma keeps_emit c e : keeps c (emit e).
Proof. intros w. destruct c; reflexivity. Qed.

Lemma keeps_log c l : keeps c (log l).
Proof. apply keeps_emit. Qed.

Lemma keeps_request_json c site model prompt :
  c <> Calls -> keeps c (request_json site model prompt).
Proof. intros H w. destruct c; [contradiction | reflexivity | reflexivity]. Qed.

Lemma keeps_update_record c table rid fields :
  c <> Writes -> keeps c (update_record table rid fields).
Proof. intros H w. destruct c; [reflexivity | reflexivity | contradiction]. Qed.

Lemma keeps_list_records c table n f : c <> Reads -> keeps c (list_records table n f).
Proof. intros H w. destruct c; [reflexivity | contradiction | reflexivity]. Qed.

Lemma keeps_find_one c table f v : c <> Reads -> keeps c (find_one table f v).
Proof. intros H w. destruct c; [reflexivity | contradiction | reflexivity]. Qed.

Lemma at_most_request_json site model prompt :
  at_most Calls 1 (request_json site model prompt).
Proof. intros w. cbn. lia. Qed.

Lemma at_most_update_record table rid fields :
  at_most Writes 1 (update_record table rid fields).
Proof. intros w. cbn. lia. Qed.

Ltac keeps_step :=
  match goal with
  | |- keeps _ (ret _) => apply keeps_ret
  | |- keeps _ (lift _) => apply keeps_lift
  | |- keeps _ (throw _) => apply keeps_throw
  | |- keeps _ (bind _ _) => apply keeps_bind; [|intros]
  | |- keeps _ (catch _ _) => apply keeps_catch; [|intros]
  | |- keeps _ (log _) => apply keeps_log
  | |- keeps _ (emit _) => apply keeps_emit
  | |- keeps _ (request_json _ _ _) => apply keeps_request_json; discriminate
  | |- keeps _ (update_record _ _ _) => apply keeps_update_record; discriminate
  | |- keeps _ (list_records _ _ _) => apply keeps_list_records; discriminate
  | |- keeps _ (find_one _ _ _) => apply keeps_find_one; discriminate
  | |- keeps _ (if ?b then _ else _) => destruct b
  | |- keeps _ (match ?x with _ => _ end) => destruct x
  end.

Ltac keeps_go := repeat keeps_step.

(** *** Scorer Engine: calls and results *)

Lemma keeps_filter_fields c payload names :
  keeps c (filter_fields_to_table payload names).
Proof. induction payload as [|[k v] rest IH]; cbn [filter_fields_to_table]; keeps_go; auto. Qed.

Lemma keeps_run_single_scorer c e si rid :
  c <> Calls -> keeps c (run_single_scorer e si rid).
Proof.
  intros H. unfold run_single_scorer, finish_scorer.
  repeat first [ apply keeps_request_json; exact H | keeps_step ].
Qed.

Lemma at_most_run_single_scorer e si rid : at_most Calls 2 (run_single_scorer e si rid).
Proof.
  unfold run_single_scorer, finish_scorer.
  change 2 with (0 + (0 + (0 + (1 + (0 + 1))))).
  apply at_most_bind; [apply at_most_keeps; keeps_go | intros prompt].
  apply at_most_bind; [apply at_most_keeps; keeps_go | intros model].
  apply at_most_bind; [apply at_most_keeps; keeps_go | intros _].
  apply at_most_bind; [apply at_most_request_json | intros text].
  apply at_most_bind; [apply at_most_keeps; keeps_go | intros first].
  destruct first as [score|]; [apply at_most_keeps; keeps_go|].
  change 1 with (0 + (0 + (1 + 0))).
  apply at_most_bind; [apply at_most_keeps; keeps_go | intros model2].
  apply at_most_bind; [apply at_most_keeps; keeps_go | intros _].
  apply at_most_bind; [apply at_most_request_json | intros text2].
  apply at_most_keeps. keeps_go.
Qed.

(** X10.  [run_single_scorer] calls the language model once or twice at most and
    never touches the record store, whatever the engine, the input and the
    replies, and whether it returns or raises. *)
Theorem run_single_scorer_footprint e si rid :
  at_most Calls 2 (run_single_scorer e si rid)
  /\ keeps Reads (run_single_scorer e si rid)
  /\ keeps Writes (run_single_scorer e si rid).
Proof.
  split; [apply at_most_run_single_scorer|].
  split; apply keeps_run_single_scorer; discriminate.
Qed.

Lemma validate_keys_some required v d :
  validate_keys required v = Ok (Some d) ->
  v = JDict d /\ forallb (dmem d) required = true.
Proof.
  unfold validate_keys. destruct (negb (truthy v)); [discriminate|].
  destruct v; try discriminate.
  destruct (forallb (dmem d0) required) eqn:E; [|discriminate].
  intros H. inversion H; subst. auto.
Qed.

(** X11.  Every scored result of [run_single_scorer] carries a fit score from 1
    to 5, the name of the engine that was asked for, and as its raw score
    a response object that has all ten required keys; it took one call or
    two. *)
Theorem scored_result_is_well_formed e si rid w r w' :
  run_single_scorer e si rid w = (Ok (Scored r), w') ->
  (1 <= fit_score r <= 5)%Z
  /\ engine r = e
  /\ forallb (dmem (raw_score r)) scorer_required_keys = true
  /\ (llm_calls w' = llm_calls w + 1 \/ llm_calls w' = llm_calls w + 2).
Proof.
  unfold run_single_scorer, finish_scorer, bind, lift, ret, log, emit, request_json.
  intros H. break_match_in H; inversion H; subst; clear H;
    repeat match goal with
           | H : validate_keys _ _ = Ok (Some _) |- _ =>
               apply validate_keys_some in H; destruct H as [_ H]
           | H : scored_of_response _ _ = Ok _ |- _ =>
               apply scored_of_response_inv in H;
               destruct H as (Hf & _ & Hraw & He & _)
           end;
    (split; [eapply normalize_fit_value_range; exact Hf|]);
    (split; [exact He|]); rewrite Hraw;
    (split; [assumption|]); cbn [llm_calls]; lia.
Qed.

(** X13.  [run_single_scorer] returns its error result only after two calls: the
    second prompt is the first one with the strict-JSON instruction
    appended, and the failure is logged once. *)
Theorem scorer_error_after_two_calls e si rid w reason en w' :
  run_single_scorer e si rid w = (Ok (ScorerError reason en), w') ->
  reason = "invalid_model_output" /\ en = e
  /\ llm_calls w' = llm_calls w + 2
  /\ exists model prompt,
       trace w' = trace w
         ++ [EvLLM ScorerFirst model prompt;
             EvLLM ScorerRetry model (prompt ^^ strict_json_instruction);
             EvLog ("FAIL_BAD_MODEL_OUTPUT record_id=" ^^ rid ^^ " engine=" ^^ e)].
Proof.
  unfold run_single_scorer, finish_scorer, bind, lift, ret, log, emit, request_json.
  intros H. break_match_in H; inversion H; subst; clear H.
  cbn [llm_calls trace]. repeat split; [lia|].
  eexists. eexists. rewrite <- !app_assoc. reflexivity.
Qed.

(** X30.  An engine name other than "v1" and "perfecter_v1" stops
    [run_single_scorer] with [ValueError] before any call is made. *)
Theorem unknown_engine_fails_fast e si rid w :
  e <> "v1" -> e <> "perfecter_v1" ->
  run_single_scorer e si rid w = (Raise ValueError, w).
Proof.
  intros H1 H2. unfold run_single_scorer, bind, lift, load_scorer_prompt.
  destruct (String.eqb_spec e "v1"); [contradiction|].
  destruct (String.eqb_spec e "perfecter_v1"); [contradiction|]. reflexivity.
Qed.

(** *** Arbitration Unit: the rules of [select_ab_winner] *)

Lemma aset_keys {V} (d : list (string * V)) k v e :
  In e (map fst (aset d k v)) <-> e = k \/ In e (map fst d).
Proof.
  induction d as [|[k0 v0] d IH]; cbn [aset map fst In].
  - split; intros [H|H]; auto.
  - destruct (String.eqb_spec k0 k); cbn [map fst In].
    + subst k0. split; [intros [H|H]; auto | intros [H|[H|H]]; auto].
    + rewrite IH. split; [intros [H|[H|H]]; auto | intros [H|[H|H]]; auto].
Qed.

Lemma aset_forall {V} (P : string * V -> Prop) (d : list (string * V)) k v :
  (forall k', P (k', v)) -> Forall P d -> Forall P (aset d k v).
Proof.
  intros Hp Hd. induction Hd as [|[k0 v0] d H0 Hd IH]; cbn [aset].
  - constructor; [apply Hp | constructor].
  - destruct (String.eqb k0 k); constructor; auto.
Qed.

Lemma aget_some_in {V} (d : list (string * V)) k v :
  aget d k = Some v -> In k (map fst d).
Proof.
  induction d as [|[k0 v0] d IH]; cbn [aget map fst In]; [discriminate|].
  destruct (String.eqb_spec k0 k); [auto | intros H; right; auto].
Qed.

(** When every engine that has a result gives the same flag, the flags
    found are all that flag, for exactly the engines with a result. *)
Lemma detect_failures_uniform results b0 : forall engines acc,
  (forall e r, In e engines -> aget results e = Some r ->
               is_hard_gate_failure r e = Ok b0) ->
  Forall (fun p => snd p = b0) acc ->
  exists hf,
    detect_failures results engines acc = Ok hf
    /\ Forall (fun p => snd p = b0) hf
    /\ (forall e, In e (map fst hf)
                  <-> In e (map fst acc)
                      \/ (In e engines /\ exists r, aget results e = Some r)).
Proof.
  induction engines as [|e es IH]; intros acc Hall Hacc; cbn [detect_failures].
  - exists acc. split; [reflexivity|]. split; [exact Hacc|].
    intros x. cbn [In]. clear_parameters. intuition.
  - destruct (aget results e) as [r|] eqn:Er.
    + rewrite (Hall e r (or_introl eq_refl) Er).
      destruct (IH (aset acc e b0)) as (hf & E & F & K).
      * intros x rx Hx. apply Hall. right. exact Hx.
      * apply aset_forall; [reflexivity | exact Hacc].
      * exists hf. split; [exact E|]. split; [exact F|].
        intros x. rewrite K, aset_keys. cbn [In]. clear_parameters.
        intuition (subst; eauto).
    + destruct (IH acc) as (hf & E & F & K).
      * intros x rx Hx. apply Hall. right. exact Hx.
      * exact Hacc.
      * exists hf. split; [exact E|]. split; [exact F|].
        intros x. rewrite K. cbn [In]. clear_parameters.
        intuition (subst; eauto).
        destruct H1 as [r H1]. congruence.
Qed.

Lemma filter_snd_all (hf : list (string * bool)) :
  Forall (fun p => snd p = true) hf -> filter snd hf = hf.
Proof.
  induction 1 as [|[k b] l H _ IH]; [reflexivity|].
  cbn [filter snd] in *. rewrite H, IH. reflexivity.
Qed.

Lemma filter_snd_none (hf : list (string * bool)) :
  Forall (fun p => snd p = false) hf -> filter snd hf = [].
Proof.
  induction 1 as [|[k b] l H _ IH]; [reflexivity|].
  cbn [filter snd] in *. rewrite H. exact IH.
Qed.


Lemma in_snoc {T} (x e : T) seen : In x (seen ++ [e]) <-> In x seen \/ x = e.
Proof. rewrite in_app_iff. cbn [In]. clear_parameters. intuition. Qed.

Lemma highest_fit_inv results : forall engines seen m win,
  (forall e r, In e engines -> aget results e = Some r -> (0 <= fit_score r)%Z) ->
  (win = None -> m = (-1)%Z) ->
  highest_inv results seen m win ->
  exists m', highest_inv results (seen ++ engines) m'
               (highest_fit results engines m win).
Proof.
  induction engines as [|e es IH]; intros seen m win Hfit Hnone Hinv.
  - exists m. rewrite app_nil_r. exact Hinv.
  - assert (Hfit' : forall x r, In x es -> aget results x = Some r ->
                                (0 <= fit_score r)%Z)
      by (intros x r Hx; apply Hfit; right; exact Hx).
    replace (seen ++ e :: es) with ((seen ++ [e]) ++ es)
      by (rewrite <- app_assoc; reflexivity).
    destruct Hinv as (Hmax & Hwin & Htie).
    cbn [highest_fit]. destruct (aget results e) as [r|] eqn:Er.
    + pose proof (Hfit e r (or_introl eq_refl) Er) as Hr.
      destruct (Z.ltb_spec m (fit_score r)) as [Hlt|Hge].
      * apply IH; [exact Hfit' | discriminate |].
        split; [|split].
        -- intros x rx Hx Ex. apply in_snoc in Hx. destruct Hx as [Hx|Hx].
           ++ specialize (Hmax x rx Hx Ex). lia.
           ++ subst x. rewrite Er in Ex. inversion Ex; subst; lia.
        -- split; [apply in_snoc; right; reflexivity | eauto].
        -- intros rp Hp Ep Efit. apply in_snoc in Hp. destruct Hp as [Hp|Hp].
           ++ specialize (Hmax _ _ Hp Ep). lia.
           ++ rewrite Hp. reflexivity.
      * destruct ((fit_score r =? m)%Z && String.eqb e "perfecter_v1") eqn:Etie.
        -- apply andb_true_iff in Etie. destruct Etie as [Em Ep].
           apply Z.eqb_eq in Em. apply String.eqb_eq in Ep.
           apply IH; [exact Hfit' | discriminate |].
           split; [|split].
           ++ intros x rx Hx Ex. apply in_snoc in Hx. destruct Hx as [Hx|Hx].
              ** exact (Hmax x rx Hx Ex).
              ** subst x. rewrite Er in Ex. inversion Ex; subst; lia.
           ++ split; [apply in_snoc; right; reflexivity | eauto].
           ++ intros _ _ _ _. rewrite Ep. reflexivity.
        -- apply IH; [exact Hfit' | exact Hnone |].
           split; [|split].
           ++ intros x rx Hx Ex. apply in_snoc in Hx. destruct Hx as [Hx|Hx].
              ** exact (Hmax x rx Hx Ex).
              ** subst x. rewrite Er in Ex. inversion Ex; subst; lia.
           ++ destruct win as [w|].
              ** destruct Hwin as [Hw Hrw]. split; [apply in_snoc; left|]; assumption.
              ** specialize (Hnone eq_refl). lia.
           ++ intros rp Hp Ep Efit. apply in_snoc in Hp. destruct Hp as [Hp|Hp].
              ** exact (Htie rp Hp Ep Efit).
              ** exfalso. rewrite Hp, Er in Ep. inversion Ep. subst rp.
                 rewrite <- Hp, String.eqb_refl, andb_true_r in Etie.
                 apply Z.eqb_neq in Etie. contradiction.
    + apply IH; [exact Hfit' | exact Hnone |].
      split; [|split].
      * intros x rx Hx Ex. apply in_snoc in Hx. destruct Hx as [Hx|Hx].
        -- exact (Hmax x rx Hx Ex).
        -- subst x. congruence.
      * destruct win as [w|].
        -- destruct Hwin as [Hw Hrw]. split; [apply in_snoc; left|]; assumption.
        -- intros x Hx. apply in_snoc in Hx. destruct Hx as [Hx|Hx];
             [apply Hwin; exact Hx | subst x; exact Er].
      * intros rp Hp Ep Efit. apply in_snoc in Hp. destruct Hp as [Hp|Hp].
        -- exact (Htie rp Hp Ep Efit).
        -- exfalso. rewrite Hp in Ep. congruence.
Qed.

(** X15.  When no engine reports a hard-gate failure, [select_ab_winner] returns
    an engine that ran and whose fit score no other engine exceeds, and it
    returns "perfecter_v1" whenever that engine's score equals the
    highest. *)
Theorem ab_winner_without_gate_failure results engines sel :
  (forall e r, In e engines -> aget results e = Some r ->
               is_hard_gate_failure r e = Ok false) ->
  (forall e r, In e engines -> aget results e = Some r -> (0 <= fit_score r)%Z) ->
  (exists e r, In e engines /\ aget results e = Some r) ->
  ~ In "" engines ->
  exists w rw,
    select_ab_winner results engines sel = Ok w
    /\ In w engines /\ aget results w = Some rw
    /\ (forall e r, In e engines -> aget results e = Some r ->
                    (fit_score r <= fit_score rw)%Z)
    /\ (forall r, In "perfecter_v1" engines ->
                  aget results "perfecter_v1" = Some r ->
                  fit_score r = fit_score rw -> w = "perfecter_v1").
Proof.
  intros Hno Hfit (e0 & r0 & He0 & Er0) Hname. unfold select_ab_winner.
  destruct (detect_failures_uniform results false engines [] Hno (Forall_nil _))
    as (hf & E & F & _).
  rewrite E, (filter_snd_none hf F). cbn [map].
  destruct (highest_fit_inv results engines [] (-1)%Z None Hfit (fun _ => eq_refl))
    as (m' & Hmax & Hwin & Htie).
  { split; [|split]; [intros ? ? [] | intros ? [] | intros ? []]. }
  cbn [app] in *.
  destruct (highest_fit results engines (-1) None) as [w|] eqn:Ew.
  - destruct Hwin as (Hw & rw & Erw & Em).
    destruct (String.eqb_spec w ""); [subst w; contradiction|].
    cbn [negb]. exists w, rw. subst m'.
    split; [reflexivity|]. split; [exact Hw|]. split; [exact Erw|].
    split; [exact Hmax|].
    intros r Hp Ep Ef. specialize (Htie r Hp Ep Ef). inversion Htie. reflexivity.
  - rewrite (Hwin e0 He0) in Er0. discriminate.
Qed.

(** X16.  When every engine that ran reports a hard-gate failure,
    [select_ab_winner] returns an engine that ran, and "perfecter_v1" if it
    is one of them. *)
Theorem ab_winner_when_all_fail results engines sel :
  (forall e r, In e engines -> aget results e = Some r ->
               is_hard_gate_failure r e = Ok true) ->
  (exists e r, In e engines /\ aget results e = Some r) ->
  exists w rw,
    select_ab_winner results engines sel = Ok w
    /\ In w engines /\ aget results w = Some rw
    /\ (forall r, In "perfecter_v1" engines ->
                  aget results "perfecter_v1" = Some r -> w = "perfecter_v1").
Proof.
  intros Hall (e0 & r0 & He0 & Er0). unfold select_ab_winner.
  destruct (detect_failures_uniform results true engines [] Hall (Forall_nil _))
    as (hf & E & F & K).
  rewrite E, (filter_snd_all hf F).
  assert (Hk : forall e, In e (map fst hf)
                         <-> In e engines /\ exists r, aget results e = Some r).
  { intros e. rewrite K. cbn [map In]. clear_parameters. intuition. }
  destruct (map fst hf) as [|k ks] eqn:Ek.
  { exfalso. apply (proj2 (Hk e0)). eauto. }
  rewrite <- Ek, length_map, Nat.eqb_refl. rewrite Ek.
  destruct (in_set "perfecter_v1" (k :: ks)) eqn:Ep.
  - apply in_set_In in Ep. apply Hk in Ep. destruct Ep as (Hp & rp & Erp).
    exists "perfecter_v1", rp. auto.
  - destruct (proj1 (Hk k) (or_introl eq_refl)) as (Hkin & rk & Erk).
    exists k, rk. split; [reflexivity|]. split; [exact Hkin|]. split; [exact Erk|].
    intros r Hp Erp. exfalso.
    assert (Hin : In "perfecter_v1" (k :: ks)) by (apply Hk; eauto).
    apply in_set_In in Hin. congruence.
Qed.

Lemma detect_failures_keys results : forall engines acc hf,
  detect_failures results engines acc = Ok hf ->
  (forall e, In e (map fst acc) -> exists r, aget results e = Some r) ->
  forall e, In e (map fst hf) -> exists r, aget results e = Some r.
Proof.
  induction engines as [|e es IH]; intros acc hf H Hacc; cbn [detect_failures] in H.
  - inversion H; subst. exact Hacc.
  - destruct (aget results e) as [r|] eqn:Er; [|eapply IH; eauto].
    destruct (is_hard_gate_failure r e) as [b|x]; [|discriminate].
    eapply IH; [exact H|]. intros x Hx. apply aset_keys in Hx.
    destruct Hx as [Hx|Hx]; [subst x; eauto | auto].
Qed.

Lemma highest_fit_has_result results : forall engines m win w,
  (forall x, win = Some x -> exists r, aget results x = Some r) ->
  highest_fit results engines m win = Some w ->
  exists r, aget results w = Some r.
Proof.
  induction engines as [|e es IH]; intros m win w Hwin H; cbn [highest_fit] in H.
  - apply Hwin. exact H.
  - destruct (aget results e) as [r|] eqn:Er; [|eapply IH; eauto].
    destruct (m <? fit_score r)%Z;
      [|destruct ((fit_score r =? m)%Z && String.eqb e "perfecter_v1")];
      (eapply IH; [|exact H]); try exact Hwin;
      intros x Hx; inversion Hx; subst; eauto.
Qed.

Lemma filter_keys_incl (hf : list (string * bool)) e :
  In e (map fst (filter snd hf)) -> In e (map fst hf).
Proof.
  induction hf as [|[k b] l IH]; cbn [filter map fst snd In]; [auto|].
  destruct b; cbn [map fst In]; clear_parameters; intuition.
Qed.

(** X14.  The engine that [select_ab_winner] returns always has a result, so the
    caller can read the winner's result whatever the engines reported. *)
Theorem ab_winner_has_result results engines sel w :
  select_ab_winner results engines sel = Ok w ->
  exists r, aget results w = Some r.
Proof.
  unfold select_ab_winner.
  destruct (detect_failures results engines []) as [hf|x] eqn:E; [|discriminate].
  assert (Hk : forall e, In e (map fst (filter snd hf)) ->
                         exists r, aget results e = Some r).
  { intros e He. apply filter_keys_incl in He.
    eapply detect_failures_keys; [exact E | intros ? [] | exact He]. }
  destruct (map fst (filter snd hf)) as [|k ks] eqn:Ek.
  - destruct (highest_fit results engines (-1) None) as [w0|] eqn:Ew.
    + destruct (negb (String.eqb w0 "")).
      * intros H. inversion H; subst.
        eapply highest_fit_has_result; [|exact Ew]. discriminate.
      * destruct results as [|[k0 v0] rest]; [discriminate|].
        intros H. inversion H; subst. exists v0. cbn [aget].
        rewrite String.eqb_refl. reflexivity.
    + destruct results as [|[k0 v0] rest]; [discriminate|].
      intros H. inversion H; subst. exists v0. cbn [aget].
      rewrite String.eqb_refl. reflexivity.
  - destruct (List.length (k :: ks) =? List.length hf).
    + destruct (in_set "perfecter_v1" (k :: ks)) eqn:Ep; intros H; injection H as <-.
      * apply Hk. apply (proj1 (in_set_In _ _)). exact Ep.
      * apply Hk. left. reflexivity.
    + destruct (aget results k) as [r|] eqn:Er; [|discriminate].
      intros H. assert (w = k) by (destruct (fit_score r =? 1)%Z; congruence).
      subst. eauto.
Qed.

(** *** Schema-Tolerant Writer: filtering and sampling *)

Lemma filter_twice {T} (f : T -> bool) l : filter f (filter f l) = filter f l.
Proof.
  induction l as [|x l IH]; [reflexivity|]. cbn [filter].
  destruct (f x) eqn:E; [cbn [filter]; rewrite E, IH; reflexivity | exact IH].
Qed.

Lemma filter_negb_filter {T} (f : T -> bool) l :
  filter (fun x => negb (f x)) (filter f l) = [].
Proof.
  induction l as [|x l IH]; [reflexivity|]. cbn [filter].
  destruct (f x) eqn:E; [cbn [filter]; rewrite E; exact IH | exact IH].
Qed.

(** X17.  [filter_fields_to_table] returns the entries of the payload whose key
    is in the table's field set, in the payload's order, and logs one
    [FIELD_DROP] line for each of the others, in order; it makes no call,
    read or write; filtering its result again returns the same payload and
    logs nothing. *)
Theorem filter_fields_to_table_keeps_and_logs payload names w :
  let kept := filter (fun kv => in_set (fst kv) names) payload in
  let dropped := filter (fun kv => negb (in_set (fst kv) names)) payload in
  filter_fields_to_table payload names w
  = (Ok kept,
     {| llm_calls := llm_calls w; store_reads := store_reads w;
        store_writes := store_writes w;
        trace := trace w ++ map (fun kv => EvLog ("FIELD_DROP " ^^ fst kv)) dropped |})
  /\ forall w2, filter_fields_to_table kept names w2 = (Ok kept, w2).
Proof.
  cbv zeta. split; [apply filter_fields_to_table_spec|].
  intros w2. rewrite filter_fields_to_table_spec, filter_twice.
  rewrite (filter_negb_filter (fun kv => in_set (fst kv) names)). cbn [map].
  rewrite app_nil_r. destruct w2; reflexivity.
Qed.

Lemma set_update_in s keys k : In k (set_update s keys) <-> In k s \/ In k keys.
Proof.
  unfold set_update. revert s. induction keys as [|x keys IH]; intros s; cbn [fold_left In].
  - clear_parameters. intuition.
  - rewrite IH. destruct (in_set x s) eqn:E.
    + apply in_set_In in E. clear_parameters. intuition (subst; auto).
    + rewrite in_app_iff. cbn [In]. clear_parameters. intuition.
Qed.

Lemma set_update_nodup s keys : NoDup s -> NoDup (set_update s keys).
Proof.
  unfold set_update. revert s. induction keys as [|x keys IH]; intros s Hs; cbn [fold_left].
  - exact Hs.
  - apply IH. destruct (in_set x s) eqn:E; [exact Hs|].
    apply NoDup_app; [exact Hs | repeat constructor; intros [] |].
    intros y Hy [Hx|[]]. subst y. apply in_set_In in Hy. congruence.
Qed.

Lemma dmem_in d k : dmem d k = true <-> In k (map fst d).
Proof.
  induction d as [|[k0 v] d IH]; cbn [dmem map fst In]; [split; [discriminate | intros []]|].
  rewrite orb_true_iff, IH, String.eqb_eq. reflexivity.
Qed.

Lemma union_fields_in records : forall acc k,
  In k (fold_left (fun acc r => set_update acc (map fst (rec_fields r))) records acc)
  <-> In k acc \/ exists r, In r records /\ dmem (rec_fields r) k = true.
Proof.
  induction records as [|r0 rs IH]; intros acc k; cbn [fold_left In].
  - split; [auto | intros [H|(r & [] & _)]; exact H].
  - rewrite IH, set_update_in. split.
    + intros [[H|H]|(r & Hr & Hk)]; [auto | |].
      * right. exists r0. split; [left; reflexivity | apply dmem_in; exact H].
      * right. exists r. split; [right; exact Hr | exact Hk].
    + intros [H|(r & [Hr|Hr] & Hk)]; [auto | |].
      * subst r. left. right. apply dmem_in. exact Hk.
      * right. exists r. split; assumption.
Qed.

Lemma union_fields_nodup records : forall acc,
  NoDup acc ->
  NoDup (fold_left (fun acc r => set_update acc (map fst (rec_fields r))) records acc).
Proof.
  induction records as [|r0 rs IH]; intros acc H; cbn [fold_left]; [exact H|].
  apply IH. apply set_update_nodup. exact H.
Qed.

(** X18.  [sample_valid_fields] reads the table once, asking for three records
    and no formula, and makes no call and no write; when the read succeeds,
    its result holds every field key of the records read, each once, and
    nothing else; when the read fails, the failure is passed on. *)
Theorem sample_valid_fields_is_the_union table w :
  snd (sample_valid_fields table w)
  = {| llm_calls := llm_calls w; store_reads := S (store_reads w);
       store_writes := store_writes w;
       trace := trace w ++ [EvList table 3 None] |}
  /\ match store_list (store_reads w) table 3 None with
     | Ok records =>
         exists sampled,
           fst (sample_valid_fields table w) = Ok sampled
           /\ NoDup sampled
           /\ forall k, In k sampled
                        <-> exists r, In r records /\ dmem (rec_fields r) k = true
     | Raise e => fst (sample_valid_fields table w) = Raise e
     end.
Proof.
  unfold sample_valid_fields, bind, list_records, ret.
  destruct (store_list (store_reads w) table 3 None) as [records|e]; cbn [fst snd].
  - split; [reflexivity|]. eexists. split; [reflexivity|].
    split; [apply union_fields_nodup; constructor|].
    intros k. rewrite union_fields_in. cbn [In]. clear_parameters. intuition.
  - split; reflexivity.
Qed.

(** *** Text Normalizer: the shape of the result *)

Lemma cr_not_nl : cr <> nl.
Proof. discriminate. Qed.

(** X19.  The text that [clean_html_to_text] returns is trimmed, none of its
    lines begins or ends with whitespace, it holds no carriage return and
    no three newlines in a row. *)
Theorem clean_html_to_text_shape (raw : string) :
  let t := list_ascii_of_string (clean_html_to_text raw) in
  strip t = t
  /\ lines_trimmed true t = true
  /\ no_triple_nl t = true
  /\ ~ In cr t.
Proof.
  cbv zeta. unfold clean_html_to_text. rewrite list_ascii_of_string_of_list_ascii.
  unfold clean_chars. destruct (list_ascii_of_string raw) as [|a r].
  - repeat split; try reflexivity. intros [].
  - destruct (tidy_is_normal
                (normalize_newlines
                   (list_ascii_of_string
                      (html_unescape (string_of_list_ascii (strip_markup (a :: r)))))))
      as (H1 & H2 & H3).
    repeat split; try assumption.
    intros Hc. apply tidy_incl in Hc. destruct Hc as [Hc|Hc].
    + exact (normalize_newlines_no_cr _ Hc).
    + exact (cr_not_nl Hc).
Qed.

(** *** The older cleaner *)

Lemma skipn_space_run_head t :
  match skipn (space_run t) t with
  | a :: _ => is_space a = false
  | [] => True
  end.
Proof.
  induction t as [|c t IH]; cbn [space_run]; [exact I|].
  destruct (is_space c) eqn:E; cbn [skipn]; [exact IH | exact E].
Qed.

Lemma m_ws_nonspace a t : is_space a = false -> m_ws (a :: t) = None.
Proof. intros H. unfold m_ws. cbn [space_run]. rewrite H. reflexivity. Qed.

Lemma m_ws_space a t : is_space a = true -> m_ws (a :: t) = Some (S (space_run t)).
Proof. intros H. unfold m_ws. cbn [space_run]. rewrite H. reflexivity. Qed.

Lemma collapse_runs_single n : forall s,
  List.length s <= n ->
  spaces_single (re_sub m_ws (lit " ") s) = true
  /\ match s with
     | a :: _ => is_space a = false ->
                 exists r, re_sub m_ws (lit " ") s = a :: r
     | [] => re_sub m_ws (lit " ") s = []
     end.
Proof.
  unfold re_sub. induction n as [|n IH]; intros s Hn.
  - destruct s; [split; reflexivity | cbn [List.length] in Hn; lia].
  - destruct s as [|a t]; [split; reflexivity|].
    cbn [List.length] in Hn. rewrite sub_go_cons.
    destruct (is_space a) eqn:Ea.
    + rewrite (m_ws_space a t Ea), sub_go_skip.
      assert (Hl : List.length (skipn (space_run t) t) <= n)
        by (rewrite length_skipn; lia).
      destruct (IH _ Hl) as [H1 H2]. split; [|discriminate].
      change (lit " " ++ sub_go m_ws (lit " ") 0 (skipn (space_run t) t))
        with (ascii_of_nat 32 :: sub_go m_ws (lit " ") 0 (skipn (space_run t) t)).
      cbn [spaces_single]. rewrite H1.
      pose proof (skipn_space_run_head t) as Hh.
      destruct (skipn (space_run t) t) as [|b r] eqn:Es.
      * rewrite H2. reflexivity.
      * destruct (H2 Hh) as [r' Er']. rewrite Er', Hh. reflexivity.
    + rewrite (m_ws_nonspace a t Ea).
      destruct (IH t ltac:(lia)) as [H1 _]. split; [|eauto].
      cbn [spaces_single]. rewrite Ea, H1. reflexivity.
Qed.

Lemma spaces_single_tail c t : spaces_single (c :: t) = true -> spaces_single t = true.
Proof. cbn [spaces_single]. intros H. apply andb_true_iff in H. apply H. Qed.

Lemma spaces_single_lstrip s : spaces_single s = true -> spaces_single (lstrip s) = true.
Proof.
  induction s as [|c t IH]; intros H; [reflexivity|]. cbn [lstrip].
  destruct (is_space c); [apply IH; eapply spaces_single_tail; exact H | exact H].
Qed.

Lemma spaces_single_prefix p : forall q,
  spaces_single (p ++ q) = true -> spaces_single p = true.
Proof.
  induction p as [|c p IH]; intros q H; [reflexivity|].
  cbn [app spaces_single] in *. apply andb_true_iff in H. destruct H as [H1 H2].
  rewrite (IH q H2), andb_true_r.
  destruct (is_space c); [|reflexivity].
  apply andb_true_iff in H1. destruct H1 as [H1 H3]. rewrite H1. cbn [andb].
  destruct p as [|a p']; [reflexivity | exact H3].
Qed.

Lemma spaces_single_rstrip s : spaces_single s = true -> spaces_single (rstrip s) = true.
Proof.
  intros H. destruct (rstrip_prefix s) as [q Eq]. rewrite Eq in H.
  eapply spaces_single_prefix. exact H.
Qed.

Lemma spaces_single_no_nl s : spaces_single s = true -> ~ In nl s.
Proof.
  induction s as [|c t IH]; intros H; [intros []|].
  intros [Hc|Hc]; [|exact (IH (spaces_single_tail _ _ H) Hc)].
  subst c. cbn [spaces_single] in H. rewrite nl_is_space in H. discriminate H.
Qed.

(** X20.  The text that [score_existing_jobs.clean_job_text] returns is trimmed
    and single-spaced: its only whitespace characters are plain spaces, no
    two of them are adjacent, and so it is one line. *)
Theorem clean_job_text_single_spaced (raw : string) :
  let t := list_ascii_of_string (clean_job_text raw) in
  strip t = t /\ spaces_single t = true /\ ~ In nl t.
Proof.
  cbv zeta.
  assert (H : forall s, strip (collapse_whitespace s) = collapse_whitespace s
                        /\ spaces_single (collapse_whitespace s) = true).
  { intros s. unfold collapse_whitespace. split; [apply strip_idem|].
    unfold strip. apply spaces_single_rstrip, spaces_single_lstrip.
    exact (proj1 (collapse_runs_single _ _ (le_n _))). }
  unfold clean_job_text. destruct raw as [|c raw'].
  - repeat split; intros [].
  - rewrite list_ascii_of_string_of_list_ascii.
    match goal with |- context [collapse_whitespace ?x] => destruct (H x) as [H1 H2] end.
    repeat split; [exact H1 | exact H2 | apply spaces_single_no_nl; exact H2].
Qed.

(** *** One record: calls, reads and writes *)

Lemma keeps_safe_update c job_record settings names dry_run payload :
  c <> Writes \/ dry_run = true ->
  keeps c (safe_update job_record settings names dry_run payload).
Proof.
  intros Hw. unfold safe_update.
  apply keeps_bind; [apply keeps_filter_fields | intros filtered].
  destruct filtered; [apply keeps_ret|]. destruct dry_run; [apply keeps_ret|].
  destruct Hw as [Hw|Hw]; [|discriminate].
  repeat first [apply keeps_update_record; exact Hw | keeps_step].
Qed.

Lemma keeps_filtered_update c job_record settings names dry_run payload :
  c <> Writes \/ dry_run = true ->
  keeps c (filtered_update job_record settings names dry_run payload).
Proof.
  intros Hw. unfold filtered_update.
  apply keeps_bind; [apply keeps_filter_fields | intros filtered].
  destruct filtered; [apply keeps_ret|].
  apply keeps_bind; [apply keeps_safe_update; exact Hw | intros; apply keeps_ret].
Qed.

(** Steps of a proof that a counter is kept: the writers first. *)
Ltac writers_step :=
  first [ apply keeps_filtered_update; assumption
        | apply keeps_safe_update; assumption
        | apply keeps_filter_fields
        | apply keeps_request_json; assumption
        | keeps_step ].

Lemma keeps_skip_no_jd c job_record settings names dry_run :
  c <> Writes \/ dry_run = true ->
  keeps c (skip_no_jd job_record settings names dry_run).
Proof. intros Hw. unfold skip_no_jd. repeat writers_step. Qed.

Lemma keeps_ensure_job_text c job_record settings names dry_run raw :
  c <> Writes \/ dry_run = true ->
  keeps c (ensure_job_text job_record settings names dry_run raw).
Proof.
  intros Hw. unfold ensure_job_text, short_jd_note, write_job_text.
  repeat writers_step.
Qed.

Lemma keeps_use_fallback c job_record settings names dry_run :
  c <> Writes \/ dry_run = true ->
  keeps c (use_fallback_job_json job_record settings names dry_run).
Proof. intros Hw. unfold use_fallback_job_json. repeat writers_step. Qed.

Lemma keeps_job_json_write c job_record settings names dry_run (text : string) :
  c <> Writes \/ dry_run = true ->
  keeps c (if dry_run then ret tt
           else catch (filtered_update job_record settings names dry_run
                         [("JobJSON", JStr text)])
                  (fun _ => catch (filtered_update job_record settings names dry_run
                                     [("JobJSON", JStr text)])
                              (fun _ => ret tt))).
Proof. intros Hw. repeat writers_step. Qed.

Lemma keeps_build_job_json c job_record settings names dry_run text :
  c <> Calls -> c <> Writes \/ dry_run = true ->
  keeps c (build_job_json job_record settings names dry_run text).
Proof.
  intros Hc Hw. unfold build_job_json.
  apply keeps_bind; [apply keeps_request_json; exact Hc | intros parsed_text].
  apply keeps_bind.
  - destruct (py_or (safe_parse_json parsed_text) (JDict [])) as [| | | | | |d];
      try (apply keeps_use_fallback; exact Hw).
    destruct (forallb (dmem d) jobjson_required_keys);
      [apply keeps_ret | apply keeps_use_fallback; exact Hw].
  - intros parsed. apply keeps_bind; [|intros; apply keeps_ret].
    destruct dry_run; [apply keeps_ret|]. repeat writers_step.
Qed.

Lemma keeps_ensure_job_json c job_record settings names dry_run text :
  c <> Calls -> c <> Writes \/ dry_run = true ->
  keeps c (ensure_job_json job_record settings names dry_run text).
Proof.
  intros Hc Hw. unfold ensure_job_json.
  apply keeps_bind; [apply keeps_lift | intros parsed].
  destruct parsed; [apply keeps_build_job_json; assumption | apply keeps_ret].
Qed.

Lemma keeps_run_engines c job_record engines si : forall results,
  c <> Calls -> keeps c (run_engines job_record engines si results).
Proof.
  induction engines as [|e es IH]; intros results Hc; cbn [run_engines].
  - apply keeps_ret.
  - apply keeps_bind; [apply keeps_run_single_scorer; exact Hc|].
    intros [r|? ?]; apply IH; exact Hc.
Qed.

Lemma keeps_score_with_engines c job_record scorer_engine ab_test sel si :
  c <> Calls -> keeps c (score_with_engines job_record scorer_engine ab_test sel si).
Proof.
  intros Hc. unfold score_with_engines.
  destruct ab_test as [[|e es]|].
  - apply keeps_bind; [apply keeps_run_single_scorer; exact Hc | intros]. keeps_go.
  - apply keeps_bind; [apply keeps_run_engines; exact Hc | intros]. keeps_go.
  - apply keeps_bind; [apply keeps_run_single_scorer; exact Hc | intros]. keeps_go.
Qed.

Lemma keeps_persist_scores c job_record settings names dry_run ab_test run_id si r ab
    needs :
  c <> Writes \/ dry_run = true ->
  keeps c (persist_scores job_record settings names dry_run ab_test run_id si r ab needs).
Proof.
  intros Hw. unfold persist_scores. destruct dry_run; [keeps_go|].
  apply keeps_bind; [apply keeps_safe_update; exact Hw | intros].
  apply keeps_bind; [apply keeps_safe_update; exact Hw | intros ok].
  apply keeps_bind; [repeat writers_step | intros].
  apply keeps_bind; [repeat writers_step | intros].
  repeat writers_step.
Qed.

Lemma keeps_on_scoring_error c job_record settings names vf dry_run e :
  c <> Writes \/ dry_run = true ->
  keeps c (on_scoring_error job_record settings names vf dry_run e).
Proof. intros Hw. unfold on_scoring_error. repeat writers_step. Qed.

Lemma keeps_parsed_update c job_record settings names dry_run parsed :
  c <> Writes \/ dry_run = true ->
  keeps c (match parsed_fields_to_update parsed with
           | [] => ret tt
           | to_update => filtered_update job_record settings names dry_run to_update
           end).
Proof.
  intros Hw. destruct (parsed_fields_to_update parsed);
    [apply keeps_ret | apply keeps_filtered_update; exact Hw].
Qed.

Lemma keeps_score_and_persist c job_record settings cand names vf dry_run scorer_engine
    ab_test sel run_id parsed cleaned :
  c <> Calls -> c <> Writes \/ dry_run = true ->
  keeps c (score_and_persist job_record settings cand names vf dry_run scorer_engine
             ab_test sel run_id parsed cleaned).
Proof.
  intros Hc Hw. unfold score_and_persist.
  apply keeps_catch; [|intros; apply keeps_on_scoring_error; exact Hw].
  apply keeps_bind; [apply keeps_parsed_update; exact Hw | intros].
  apply keeps_bind; [apply keeps_score_with_engines; exact Hc | intros outcome].
  destruct outcome as [[r ab]|]; [|apply keeps_ret].
  apply keeps_bind; [apply keeps_persist_scores; exact Hw | intros; apply keeps_ret].
Qed.

Lemma keeps_score_job_record c job_record settings cand names vf dry_run scorer_engine
    ab_test sel run_id :
  c <> Calls -> c <> Writes \/ dry_run = true ->
  keeps c (score_job_record job_record settings cand names vf dry_run scorer_engine
             ab_test sel run_id).
Proof.
  intros Hc Hw. unfold score_job_record, structure_and_score.
  apply keeps_bind; [apply keeps_lift | intros raw].
  destruct (String.eqb raw ""); [apply keeps_skip_no_jd; exact Hw|].
  apply keeps_bind; [apply keeps_ensure_job_text; exact Hw | intros text].
  apply keeps_bind; [apply keeps_ensure_job_json; assumption | intros parsed].
  apply keeps_score_and_persist; assumption.
Qed.

Lemma at_most_run_engines job_record engines si : forall results,
  at_most Calls (2 * List.length engines) (run_engines job_record engines si results).
Proof.
  induction engines as [|e es IH]; intros results; cbn [run_engines].
  - apply at_most_keeps, keeps_ret.
  - replace (2 * List.length (e :: es)) with (2 + 2 * List.length es)
      by (cbn [List.length]; lia).
    apply at_most_bind; [apply at_most_run_single_scorer|].
    intros [r|? ?]; apply IH.
Qed.

Lemma at_most_score_with_engines job_record scorer_engine ab_test sel si :
  at_most Calls (2 * engine_count ab_test)
    (score_with_engines job_record scorer_engine ab_test sel si).
Proof.
  assert (Hone : forall A (k : scorer_outcome -> M A),
             (forall o, keeps Calls (k o)) ->
             at_most Calls 2 (bind (run_single_scorer scorer_engine si
                                      (job_record_id job_record)) k)).
  { intros A k Hk. change 2 with (2 + 0).
    apply at_most_bind; [apply at_most_run_single_scorer|].
    intros o. apply at_most_keeps, Hk. }
  unfold score_with_engines, engine_count.
  destruct ab_test as [[|e es]|]; try (apply Hone; intros o; keeps_go).
  replace (2 * List.length (e :: es)) with (2 * List.length (e :: es) + 0) by lia.
  apply at_most_bind; [apply at_most_run_engines | intros results].
  apply at_most_keeps. keeps_go.
Qed.

Lemma calls_not_writes dry_run : Calls <> Writes \/ dry_run = true.
Proof. left. discriminate. Qed.

Lemma at_most_score_and_persist job_record settings cand names vf dry_run scorer_engine
    ab_test sel run_id parsed cleaned :
  at_most Calls (2 * engine_count ab_test)
    (score_and_persist job_record settings cand names vf dry_run scorer_engine
       ab_test sel run_id parsed cleaned).
Proof.
  unfold score_and_persist.
  replace (2 * engine_count ab_test) with (0 + (2 * engine_count ab_test + 0) + 0) by lia.
  apply at_most_catch;
    [|intros; apply at_most_keeps, keeps_on_scoring_error, calls_not_writes].
  apply at_most_bind;
    [apply at_most_keeps, keeps_parsed_update, calls_not_writes | intros].
  apply at_most_bind; [apply at_most_score_with_engines | intros outcome].
  apply at_most_keeps. destruct outcome as [[r ab]|]; [|apply keeps_ret].
  apply keeps_bind; [apply keeps_persist_scores, calls_not_writes | intros; apply keeps_ret].
Qed.

Lemma at_most_ensure_job_json job_record settings names dry_run text :
  at_most Calls 1 (ensure_job_json job_record settings names dry_run text).
Proof.
  unfold ensure_job_json. change 1 with (0 + 1).
  apply at_most_bind; [apply at_most_keeps, keeps_lift | intros parsed].
  destruct parsed; [|apply at_most_keeps, keeps_ret].
  unfold build_job_json. change 1 with (1 + 0).
  apply at_most_bind; [apply at_most_request_json | intros parsed_text].
  apply at_most_keeps. pose proof (calls_not_writes dry_run) as Hw.
  apply keeps_bind.
  - destruct (py_or (safe_parse_json parsed_text) (JDict [])) as [| | | | | |d];
      try (apply keeps_use_fallback; exact Hw).
    destruct (forallb (dmem d) jobjson_required_keys);
      [apply keeps_ret | apply keeps_use_fallback; exact Hw].
  - intros parsed. apply keeps_bind; [|intros; apply keeps_ret].
    destruct dry_run; [apply keeps_ret|]. repeat writers_step.
Qed.

(** X21.  For one record, [score_job_record] calls the language model at most
    once for structuring and twice for each engine that scores, and it
    never reads the record store: what it knows of the record is what it
    was handed.  This holds whatever the services answer. *)
Theorem score_job_record_footprint job_record settings cand names vf dry_run scorer_engine
    ab_test sel run_id :
  at_most Calls (1 + 2 * engine_count ab_test)
    (score_job_record job_record settings cand names vf dry_run scorer_engine
       ab_test sel run_id)
  /\ keeps Reads
       (score_job_record job_record settings cand names vf dry_run scorer_engine
          ab_test sel run_id).
Proof.
  split; [|apply keeps_score_job_record; [discriminate | left; discriminate]].
  unfold score_job_record, structure_and_score.
  change (1 + 2 * engine_count ab_test) with (0 + (1 + 2 * engine_count ab_test)).
  apply at_most_bind; [apply at_most_keeps, keeps_lift | intros raw].
  destruct (String.eqb raw "");
    [apply at_most_keeps, keeps_skip_no_jd, calls_not_writes|].
  change (1 + 2 * engine_count ab_test) with (0 + (1 + 2 * engine_count ab_test)).
  apply at_most_bind;
    [apply at_most_keeps, keeps_ensure_job_text, calls_not_writes | intros text].
  apply at_most_bind; [apply at_most_ensure_job_json | intros parsed].
  apply at_most_score_and_persist.
Qed.

Lemma dry_run_record_is_not_written job_record settings cand names vf scorer_engine
    ab_test sel run_id :
  keeps Writes
    (score_job_record job_record settings cand names vf true scorer_engine
       ab_test sel run_id).
Proof. apply keeps_score_job_record; [discriminate | right; reflexivity]. Qed.

(** X22.  A record whose [JobDescriptionRaw] is blank is skipped with the reason
    [no_description]: [score_job_record] returns that result, never raising,
    without any call of the language model. *)
Theorem blank_description_is_skipped job_record settings cand names vf dry_run
    scorer_engine ab_test sel run_id w :
  field_stripped job_record "JobDescriptionRaw" = Ok "" ->
  exists w',
    score_job_record job_record settings cand names vf dry_run scorer_engine
      ab_test sel run_id w
    = (Ok (JobSkipped "no_description"), w')
    /\ llm_calls w' = llm_calls w
    /\ (dry_run = true -> store_writes w' = store_writes w).
Proof.
  intros Hraw.
  assert (E : score_job_record job_record settings cand names vf dry_run scorer_engine
                ab_test sel run_id w
              = skip_no_jd job_record settings names dry_run w).
  { unfold score_job_record, bind, lift. rewrite Hraw. reflexivity. }
  rewrite E.
  pose proof (keeps_skip_no_jd Calls job_record settings names dry_run
                (calls_not_writes dry_run) w) as Hc.
  assert (Hw : dry_run = true ->
               count Writes (snd (skip_no_jd job_record settings names dry_run w))
               = count Writes w).
  { intros Hd. apply keeps_skip_no_jd. right. exact Hd. }
  revert Hc Hw. unfold skip_no_jd, bind, log, emit, catch, ret.
  destruct dry_run.
  - cbn [snd count]. intros Hc Hw. eexists. split; [reflexivity|]. auto.
  - match goal with
    | |- context [filtered_update ?a ?b ?c ?d ?e ?w0] =>
        destruct (filtered_update a b c d e w0) as [[[]|x] w1]
    end; cbn [snd count]; intros Hc Hw; eexists; (split; [reflexivity|]);
      (split; [exact Hc | discriminate]).
Qed.

Lemma catch_all_returns (m : M unit) w :
  exists w', catch m (fun _ => ret tt) w = (Ok tt, w').
Proof. unfold catch, ret. destruct (m w) as [[[]|e] w1]; eauto. Qed.

Lemma on_scoring_error_returns job_record settings names vf dry_run e w :
  exists w',
    on_scoring_error job_record settings names vf dry_run e w
    = (Ok (JobError (exn_str e)), w').
Proof.
  unfold on_scoring_error. unfold bind at 1.
  destruct dry_run; [unfold ret; eauto|].
  match goal with
  | |- context [catch ?m _ w] => destruct (catch_all_returns m w) as [w1 E]
  end.
  rewrite E. unfold ret. eauto.
Qed.

(** X23.  Whatever goes wrong from the flattening of the structured fields to
    the last write, [score_job_record] does not raise: the exception is
    turned into an error result of the record, whose reason is the text of
    the exception. *)
Theorem scoring_errors_stay_in_the_record job_record settings cand names vf dry_run
    scorer_engine ab_test sel run_id parsed cleaned w :
  exists result w',
    score_and_persist job_record settings cand names vf dry_run scorer_engine
      ab_test sel run_id parsed cleaned w
    = (Ok result, w')
    /\ forall reason, result <> JobSkipped reason.
Proof.
  assert (H : exists result w',
             score_and_persist job_record settings cand names vf dry_run scorer_engine
               ab_test sel run_id parsed cleaned w
             = (Ok result, w')).
  { unfold score_and_persist. unfold catch at 1.
    match goal with
    | |- context [match ?m w with _ => _ end] => destruct (m w) as [[r|e] w1]
    end; [eauto|].
    destruct (on_scoring_error_returns job_record settings names vf dry_run e w1)
      as [w2 E].
    rewrite E. eauto. }
  destruct H as (result & w' & E). exists result, w'. split; [exact E|].
  eapply returns_score_and_persist. exact E.
Qed.

(** *** The run: counters, reads and writes *)

Lemma keeps_log_active_engines c engines : keeps c (log_active_engines engines).
Proof. induction engines as [|e es IH]; cbn [log_active_engines]; keeps_go; exact IH. Qed.

Lemma keeps_score_records c settings dry_run scorer_engine ab_test sel vf cand records :
  c <> Calls -> c <> Writes \/ dry_run = true ->
  forall acc,
    keeps c (score_records settings dry_run scorer_engine ab_test sel vf cand records acc).
Proof.
  intros Hc Hw. induction records as [|r rest IH]; intros acc; cbn [score_records].
  - apply keeps_ret.
  - apply keeps_bind; [keeps_go | intros].
    apply keeps_bind; [apply keeps_score_job_record; assumption | intros result].
    apply keeps_bind; [keeps_go | intros]. apply IH.
Qed.

Lemma keeps_load_candidate c settings : c <> Reads -> keeps c (load_candidate settings).
Proof.
  intros H. unfold load_candidate.
  apply keeps_bind; [apply keeps_find_one; exact H | intros]. keeps_go.
Qed.

Lemma keeps_sample_valid_fields c table : c <> Reads -> keeps c (sample_valid_fields table).
Proof.
  intros H. unfold sample_valid_fields.
  apply keeps_bind; [apply keeps_list_records; exact H | intros; apply keeps_ret].
Qed.

(** Steps of a proof that the run keeps a counter other than the reads. *)
Ltac run_step :=
  first [ apply keeps_log_active_engines
        | apply keeps_sample_valid_fields; assumption
        | apply keeps_load_candidate; assumption
        | apply keeps_list_records; assumption
        | keeps_step ].

Lemma dry_run_keeps_writes settings max_jobs diag diag_runid test_filter filter_step
    scorer_engine ab_test sel :
  keeps Writes
    (run_scoring settings max_jobs true diag diag_runid test_filter filter_step
       scorer_engine ab_test sel).
Proof.
  assert (Hr : Writes <> Reads) by discriminate.
  unfold run_scoring.
  repeat first [ apply keeps_score_records; [discriminate | right; reflexivity]
               | run_step ].
Qed.

(** X24.  In dry-run mode no write is made to the record store: with [dry_run]
    set, [score_job_record] for one record and [run_scoring] for a whole
    run leave the count of writes as it is, whatever the mode, the
    records, the engines and the answers of the services. *)
Theorem dry_run_makes_no_write job_record settings cand names vf max_jobs diag diag_runid
    test_filter filter_step scorer_engine ab_test sel run_id :
  keeps Writes
    (score_job_record job_record settings cand names vf true scorer_engine
       ab_test sel run_id)
  /\ keeps Writes
       (run_scoring settings max_jobs true diag diag_runid test_filter filter_step
          scorer_engine ab_test sel).
Proof. split; [apply dry_run_record_is_not_written | apply dry_run_keeps_writes]. Qed.

(** X25.  The diagnostic modes of [run_scoring] ([diag], [diag_runid], a test
    filter, a filter step) only read and log: no call of the language
    model and no write is made. *)
Theorem diagnostic_modes_only_read settings max_jobs dry_run diag diag_runid test_filter
    filter_step scorer_engine ab_test sel :
  diag = true \/ diag_runid = true
  \/ (exists c f, test_filter = Some (String c f)) \/ filter_step <> None ->
  keeps Calls
    (run_scoring settings max_jobs dry_run diag diag_runid test_filter filter_step
       scorer_engine ab_test sel)
  /\ keeps Writes
       (run_scoring settings max_jobs dry_run diag diag_runid test_filter filter_step
          scorer_engine ab_test sel).
Proof.
  intros Hmode.
  assert (H : forall c, c <> Reads ->
                keeps c (run_scoring settings max_jobs dry_run diag diag_runid test_filter
                           filter_step scorer_engine ab_test sel)).
  { intros c Hc. unfold run_scoring.
    apply keeps_bind; [apply keeps_log | intros].
    apply keeps_bind; [apply keeps_log_active_engines | intros].
    apply keeps_bind; [apply keeps_sample_valid_fields; exact Hc | intros vfs].
    apply keeps_bind; [keeps_go | intros].
    destruct diag_runid; [repeat run_step|].
    destruct test_filter as [[|ch f]|]; [|repeat run_step|];
      (destruct filter_step as [step|]; [repeat run_step|]);
      (destruct diag;
       [repeat run_step
       | exfalso; destruct Hmode as [Hm|[Hm|[(c0 & f0 & Hm)|Hm]]];
         try discriminate; apply Hm; reflexivity]). }
  split; apply H; discriminate.
Qed.

Lemma at_most_list_records table n f : at_most Reads 1 (list_records table n f).
Proof. intros w. cbn. lia. Qed.

Lemma at_most_find_one table f v : at_most Reads 1 (find_one table f v).
Proof. intros w. cbn. lia. Qed.

Lemma reads_not_calls : Reads <> Calls.
Proof. discriminate. Qed.

Lemma reads_not_writes dry_run : Reads <> Writes \/ dry_run = true.
Proof. left. discriminate. Qed.

(** X26.  [run_scoring] reads the record store at most four times, however many
    records it processes: the sample of the fields, the candidate, the
    query of the jobs and, when that query fails, the query again. *)
Theorem run_reads_at_most_four_times settings max_jobs dry_run diag diag_runid test_filter
    filter_step scorer_engine ab_test sel :
  at_most Reads 4
    (run_scoring settings max_jobs dry_run diag diag_runid test_filter filter_step
       scorer_engine ab_test sel).
Proof.
  assert (Hlist : forall A n f (k : list at_record -> M A),
             (forall a, keeps Reads (k a)) ->
             at_most Reads 3 (bind (list_records (AIRTABLE_TABLE_JOBS settings) n f) k)).
  { intros A n f k Hk. apply (at_most_weaken Reads (1 + 0)); [lia|].
    apply at_most_bind; [apply at_most_list_records | intros; apply at_most_keeps, Hk]. }
  unfold run_scoring.
  change 4 with (0 + (0 + (1 + (0 + 3)))).
  apply at_most_bind; [apply at_most_keeps, keeps_log | intros].
  apply at_most_bind; [apply at_most_keeps, keeps_log_active_engines | intros].
  apply at_most_bind.
  { unfold sample_valid_fields. change 1 with (1 + 0).
    apply at_most_bind; [apply at_most_list_records | intros; apply at_most_keeps, keeps_ret]. }
  intros vfs. apply at_most_bind; [apply at_most_keeps; keeps_go | intros].
  destruct diag_runid.
  { apply (at_most_weaken Reads ((1 + 0) + 0)); [lia|].
    apply at_most_bind; [|intros; apply at_most_keeps, keeps_ret].
    apply at_most_catch; [|intros; apply at_most_keeps, keeps_ret].
    change 1 with (1 + 0).
    apply at_most_bind; [apply at_most_list_records | intros; apply at_most_keeps, keeps_ret]. }
  assert (Hrest :
    at_most Reads 3
      match filter_step with
      | Some step =>
          match filter_of_step step with
          | Some formula =>
              list_records (AIRTABLE_TABLE_JOBS settings) max_jobs (Some formula) ;;;
              ret (no_records 0)
          | None => log "FILTER_STEP_INVALID" ;;; ret (no_records 1)
          end
      | None =>
          candidate <- load_candidate settings ;;
          match candidate with
          | None => ret (no_records 1)
          | Some candidate_for_scoring =>
              records <-
                catch (list_records (AIRTABLE_TABLE_JOBS settings) max_jobs
                         (Some filter_formula))
                  (fun _ => list_records (AIRTABLE_TABLE_JOBS settings) max_jobs
                              (Some filter_formula)) ;;
              if diag then ret (no_records 0)
              else
                score_records settings dry_run scorer_engine ab_test sel vfs
                  candidate_for_scoring records
                  {| total := List.length records; scored_count := 0;
                     skipped_count := 0; error_count := 0 |}
          end
      end).
  { destruct filter_step as [step|].
    - destruct (filter_of_step step);
        [apply Hlist; intros; apply keeps_ret | apply at_most_keeps; keeps_go].
    - change 3 with (1 + (2 + 0)).
      apply at_most_bind.
      { unfold load_candidate. change 1 with (1 + 0).
        apply at_most_bind; [apply at_most_find_one | intros; apply at_most_keeps; keeps_go]. }
      intros [cand|]; [|apply at_most_keeps, keeps_ret].
      apply at_most_bind.
      { change 2 with (1 + 1).
        apply at_most_catch; [|intros]; apply at_most_list_records. }
      intros records. apply at_most_keeps.
      destruct diag; [apply keeps_ret|].
      apply keeps_score_records; [exact reads_not_calls | apply reads_not_writes]. }
  destruct test_filter as [[|ch f]|]; try exact Hrest.
  apply Hlist. intros. apply keeps_ret.
Qed.

Lemma returns_score_records settings dry_run scorer_engine ab_test sel vf cand records :
  forall acc,
    returns (fun s => total s = total acc
                      /\ scored_count s + skipped_count s + error_count s
                         = scored_count acc + skipped_count acc + error_count acc
                           + List.length records)
      (score_records settings dry_run scorer_engine ab_test sel vf cand records acc).
Proof.
  induction records as [|r rest IH]; intros acc; cbn [score_records].
  - apply returns_ret. cbn [List.length]. lia.
  - apply returns_bind. intros _. apply returns_bind. intros result.
    apply returns_bind. intros _.
    intros w s w' E. apply IH in E. cbn [List.length].
    destruct result; cbn [total scored_count skipped_count error_count] in E; lia.
Qed.

(** X27.  The counters that [run_scoring] returns add up: the records scored,
    skipped and failed are together the total, the number of records that
    the query gave; the one exception is the result [total 0, errors 1] by
    which the run reports that it did not start. *)
Theorem run_counters_add_up settings max_jobs dry_run diag diag_runid test_filter
    filter_step scorer_engine ab_test sel :
  returns (fun s => scored_count s + skipped_count s + error_count s = total s
                    \/ s = no_records 1)
    (run_scoring settings max_jobs dry_run diag diag_runid test_filter filter_step
       scorer_engine ab_test sel).
Proof.
  assert (Hzero : returns (fun s => scored_count s + skipped_count s + error_count s
                                    = total s \/ s = no_records 1)
                    (ret (no_records 0)))
    by (apply returns_ret; left; reflexivity).
  assert (Hone : returns (fun s => scored_count s + skipped_count s + error_count s
                                   = total s \/ s = no_records 1)
                   (ret (no_records 1)))
    by (apply returns_ret; right; reflexivity).
  unfold run_scoring.
  do 4 (apply returns_bind; intros).
  destruct diag_runid; [apply returns_bind; intros; exact Hzero|].
  assert (Hrest : forall vfs,
    returns (fun s => scored_count s + skipped_count s + error_count s = total s
                      \/ s = no_records 1)
      match filter_step with
      | Some step =>
          match filter_of_step step with
          | Some formula =>
              list_records (AIRTABLE_TABLE_JOBS settings) max_jobs (Some formula) ;;;
              ret (no_records 0)
          | None => log "FILTER_STEP_INVALID" ;;; ret (no_records 1)
          end
      | None =>
          candidate <- load_candidate settings ;;
          match candidate with
          | None => ret (no_records 1)
          | Some candidate_for_scoring =>
              records <-
                catch (list_records (AIRTABLE_TABLE_JOBS settings) max_jobs
                         (Some filter_formula))
                  (fun _ => list_records (AIRTABLE_TABLE_JOBS settings) max_jobs
                              (Some filter_formula)) ;;
              if diag then ret (no_records 0)
              else
                score_records settings dry_run scorer_engine ab_test sel vfs
                  candidate_for_scoring records
                  {| total := List.length records; scored_count := 0;
                     skipped_count := 0; error_count := 0 |}
          end
      end).
  { intros vfs. destruct filter_step as [step|].
    - destruct (filter_of_step step); apply returns_bind; intros; assumption.
    - apply returns_bind. intros [cand|]; [|exact Hone].
      apply returns_bind. intros records.
      destruct diag; [exact Hzero|].
      intros w s w' E. apply returns_score_records in E.
      cbn [total scored_count skipped_count error_count] in E. left. lia. }
  destruct test_filter as [[|ch f]|]; try apply Hrest.
  apply returns_bind. intros. exact Hzero.
Qed.

(** *** Fit score and confidence *)

(** X7.  The fit score of a response whose value is not an infinite float: an
    integer from 1 to 5; 3 when the value is absent or null or a text
    that is no integer; an integer value clamped into the range. *)
Theorem fit_score_is_clamped_or_defaulted (score : pydict) :
  (forall s, raw_fit_score score <> JFloat (S754_infinity s)) ->
  exists n,
    normalize_fit_score score = Ok n
    /\ (1 <= n <= 5)%Z
    /\ (raw_fit_score score = JNull -> n = 3%Z)
    /\ (forall t, raw_fit_score score = JStr t -> int_of_str t = None -> n = 3%Z)
    /\ (forall z, raw_fit_score score = JInt z -> n = Z.max 1 (Z.min 5 z)).
Proof.
  intros Hinf. unfold normalize_fit_score.
  destruct (normalize_fit_value_total _ Hinf) as (n & E & R).
  exists n. split; [exact E|]. split; [exact R|].
  split; [|split].
  - intros Hv. rewrite Hv in E. inversion E. reflexivity.
  - intros t Hv Ht. rewrite Hv in E. unfold normalize_fit_value in E. cbn in E.
    rewrite Ht in E. inversion E. reflexivity.
  - intros z Hv. rewrite Hv in E. inversion E. reflexivity.
Qed.

(** X8.  Whenever the scoring step of [run_pipeline] gets through, the fit
    score is an integer from 1 to 5 and the strategy and next action are
    the canonical action mapped from it, whatever the reply named. *)
Theorem pipeline_action_follows_fit (score_text : string) fit action :
  pipeline_fit_and_action score_text = Ok (fit, action) ->
  (1 <= fit <= 5)%Z /\ action = action_of_fit fit /\ In action valid_actions.
Proof.
  unfold pipeline_fit_and_action, normalize_fit_score. intros H.
  destruct (py_or (safe_parse_json score_text) (JDict [])); try discriminate.
  destruct (normalize_fit_value (raw_fit_score d)) as [n|e] eqn:E; [|discriminate].
  inversion H; subst. split; [eapply normalize_fit_value_range; exact E|].
  split; [reflexivity | apply action_of_fit_valid].
Qed.

(** X9.  The confidence of a scored result is the text "N/A" or a value that
    [float] accepts; the one failure that is not turned into "N/A" is
    [OverflowError], for an integer too large for a float. *)
Theorem confidence_is_float_or_na (score : pydict) :
  match normalize_confidence score with
  | Ok ConfNA => True
  | Ok (ConfFloat c) =>
      c = dget_default score "confidence" (JStr "N/A") /\ py_float_exn c = None
  | Raise e =>
      e = OverflowError
      /\ exists z, dget_default score "confidence" (JStr "N/A") = JInt z
                   /\ (2 ^ 1024 - 2 ^ 970 <= Z.abs z)%Z
  end.
Proof.
  unfold normalize_confidence.
  destruct (dget_default score "confidence" (JStr "N/A")) as [|b|z|f|s|l|d] eqn:E;
    cbn [py_float_exn]; try exact I; try (split; reflexivity).
  - destruct (Z.leb_spec (2 ^ 1024 - 2 ^ 970) (Z.abs z)) as [Hz|Hz].
    + split; [reflexivity | exists z; split; [reflexivity | exact Hz]].
    + split; [reflexivity|]. cbn [py_float_exn].
      destruct (Z.leb_spec (2 ^ 1024 - 2 ^ 970) (Z.abs z)); [lia | reflexivity].
  - destruct (String.eqb s "N/A"); [exact I|].
    destruct (float_of_str s) eqn:F; [|exact I].
    cbn [py_float_exn]. rewrite F. split; reflexivity.
Qed.

(** *** The run: what stops it *)

Lemma load_scorer_prompt_unknown e :
  e <> "v1" -> e <> "perfecter_v1" -> load_scorer_prompt e = Raise ValueError.
Proof.
  intros H1 H2. unfold load_scorer_prompt.
  destruct (String.eqb_spec e "v1"); [contradiction|].
  destruct (String.eqb_spec e "perfecter_v1"); [contradiction | reflexivity].
Qed.

Lemma score_with_engines_unknown rid scorer_engine ab_test sel si w :
  scorer_engine <> "v1" -> scorer_engine <> "perfecter_v1" ->
  ab_test = None \/ ab_test = Some [] ->
  score_with_engines rid scorer_engine ab_test sel si w = (Raise ValueError, w).
Proof.
  intros H1 H2 Hab. unfold score_with_engines.
  assert (E : run_single_scorer scorer_engine si (job_record_id rid) w
              = (Raise ValueError, w)).
  { unfold run_single_scorer, bind, lift.
    rewrite (load_scorer_prompt_unknown _ H1 H2). reflexivity. }
  destruct Hab as [-> | ->]; unfold bind; rewrite E; reflexivity.
Qed.

Lemma score_and_persist_unknown job_record settings cand names vf dry_run scorer_engine
    ab_test sel run_id parsed cleaned w :
  scorer_engine <> "v1" -> scorer_engine <> "perfecter_v1" ->
  ab_test = None \/ ab_test = Some [] ->
  exists reason w',
    score_and_persist job_record settings cand names vf dry_run scorer_engine ab_test
      sel run_id parsed cleaned w
    = (Ok (JobError reason), w').
Proof.
  intros H1 H2 Hab. unfold score_and_persist. unfold catch at 1.
  match goal with
  | |- context [match ?m w with _ => _ end] => destruct (m w) as [[r|e] w1] eqn:Em
  end.
  - exfalso. unfold bind at 1 in Em.
    match type of Em with
    | context [match ?m w with _ => _ end] => destruct (m w) as [[[]|e] w0]
    end; [|discriminate].
    unfold bind at 1 in Em.
    rewrite (score_with_engines_unknown job_record scorer_engine ab_test sel _ w0 H1 H2 Hab)
      in Em.
    discriminate.
  - destruct (on_scoring_error_returns job_record settings names vf dry_run e w1)
      as [w2 E].
    rewrite E. eauto.
Qed.

Lemma returns_score_job_record_unknown job_record settings cand names vf dry_run
    scorer_engine ab_test sel run_id :
  scorer_engine <> "v1" -> scorer_engine <> "perfecter_v1" ->
  ab_test = None \/ ab_test = Some [] ->
  returns (fun r => forall fit action, r <> JobScored fit action)
    (score_job_record job_record settings cand names vf dry_run scorer_engine ab_test
       sel run_id).
Proof.
  intros H1 H2 Hab. unfold score_job_record. apply returns_bind. intros raw.
  destruct (String.eqb raw "").
  - unfold skip_no_jd. apply returns_bind. intros _. apply returns_bind. intros _.
    apply returns_ret. discriminate.
  - apply returns_bind. intros text. unfold structure_and_score.
    apply returns_bind. intros parsed. intros w r w' E.
    destruct (score_and_persist_unknown job_record settings cand names vf dry_run
                scorer_engine ab_test sel run_id parsed (clean_html_to_text raw) w
                H1 H2 Hab) as (reason & w2 & E2).
    rewrite E2 in E. inversion E. discriminate.
Qed.

Lemma returns_score_records_unknown settings dry_run scorer_engine ab_test sel vf cand
    records :
  scorer_engine <> "v1" -> scorer_engine <> "perfecter_v1" ->
  ab_test = None \/ ab_test = Some [] ->
  forall acc,
    returns (fun s => scored_count s = scored_count acc)
      (score_records settings dry_run scorer_engine ab_test sel vf cand records acc).
Proof.
  intros H1 H2 Hab. induction records as [|r rest IH]; intros acc; cbn [score_records].
  - apply returns_ret. reflexivity.
  - apply returns_bind. intros _.
    eapply returns_bind_returns;
      [apply returns_score_job_record_unknown; assumption | intros result Hres].
    apply returns_bind. intros _.
    intros w s w' E. apply IH in E. rewrite E.
    destruct result; cbn [scored_count]; try reflexivity.
    exfalso. eapply Hres. reflexivity.
Qed.

Lemma returns_run_scoring_unknown settings max_jobs dry_run diag diag_runid test_filter
    filter_step scorer_engine ab_test sel :
  scorer_engine <> "v1" -> scorer_engine <> "perfecter_v1" ->
  ab_test = None \/ ab_test = Some [] ->
  returns (fun s => scored_count s = 0)
    (run_scoring settings max_jobs dry_run diag diag_runid test_filter filter_step
       scorer_engine ab_test sel).
Proof.
  intros H1 H2 Hab.
  assert (Hnone : forall n, returns (fun s => scored_count s = 0) (ret (no_records n)))
    by (intros n; apply returns_ret; reflexivity).
  unfold run_scoring.
  apply returns_bind. intros _. apply returns_bind. intros _.
  apply returns_bind. intros vf. apply returns_bind. intros _.
  destruct diag_runid; [apply returns_bind; intros; apply Hnone|].
  assert (Hrest :
    returns (fun s => scored_count s = 0)
      match filter_step with
      | Some step =>
          match filter_of_step step with
          | Some formula =>
              list_records (AIRTABLE_TABLE_JOBS settings) max_jobs (Some formula) ;;;
              ret (no_records 0)
          | None => log "FILTER_STEP_INVALID" ;;; ret (no_records 1)
          end
      | None =>
          candidate <- load_candidate settings ;;
          match candidate with
          | None => ret (no_records 1)
          | Some candidate_for_scoring =>
              records <-
                catch (list_records (AIRTABLE_TABLE_JOBS settings) max_jobs
                         (Some filter_formula))
                  (fun _ => list_records (AIRTABLE_TABLE_JOBS settings) max_jobs
                              (Some filter_formula)) ;;
              if diag then ret (no_records 0)
              else
                score_records settings dry_run scorer_engine ab_test sel vf
                  candidate_for_scoring records
                  {| total := List.length records; scored_count := 0;
                     skipped_count := 0; error_count := 0 |}
          end
      end).
  { destruct filter_step as [step|].
    - destruct (filter_of_step step); apply returns_bind; intros; apply Hnone.
    - apply returns_bind. intros [cand|]; [|apply Hnone].
      apply returns_bind. intros records.
      destruct diag; [apply Hnone|].
      apply (returns_score_records_unknown settings dry_run scorer_engine ab_test sel vf
               cand records H1 H2 Hab). }
  destruct test_filter as [[|ch f]|]; try exact Hrest.
  apply returns_bind. intros. apply Hnone.
Qed.

(** C5 (amended).  In a scoring run (none of the diagnostic modes), when the
    candidate truth profile is missing or its [CandidateJSON] is absent or
    invalid, the run stops with zero records processed: it raises or returns
    the counters [total 0, scored 0, skipped 0, errors 1], and all it has
    done is to log, to sample the table and to look the candidate up; no job
    record is queried, no language-model call and no write is made.  An
    unknown scorer engine name does not stop the run: at the start the
    failed load of its prompt is logged as a warning and nothing else
    happens; with no A/B list of engines, the scoring step of every record
    then ends in an error result of that record, and the run scores no
    record. *)
Theorem run_stops_without_candidate settings max_jobs dry_run diag scorer_engine
    ab_test selected_ab_engine :
  let run := run_scoring settings max_jobs dry_run diag false None None scorer_engine
               ab_test selected_ab_engine in
  ((forall n t f v, exists c, store_find_one n t f v = Ok c /\ candidate_unusable c) ->
   only_events setup_event run
   /\ quiet run
   /\ returns (fun s => s = no_records 1) run)
  /\ (scorer_engine <> "v1" -> scorer_engine <> "perfecter_v1" ->
      ab_test = None \/ ab_test = Some [] ->
      (forall w,
          log_active_engines (active_engines scorer_engine ab_test) w
          = (Ok tt,
             {| llm_calls := llm_calls w; store_reads := store_reads w;
                store_writes := store_writes w;
                trace := trace w
                  ++ [EvLog ("WARN: Failed to load prompt for engine=" ^^ scorer_engine
                             ^^ " error=" ^^ str_take 100 (exn_str ValueError))] |}))
      /\ (forall job_record candidate names valid_fields run_id parsed cleaned w,
            exists reason w',
              score_and_persist job_record settings candidate names valid_fields
                dry_run scorer_engine ab_test selected_ab_engine run_id parsed cleaned w
              = (Ok (JobError reason), w'))
      /\ returns (fun s => scored_count s = 0) run).
Proof.
  cbv zeta. split.
  - intros H. unfold run_scoring.
    pose proof (load_candidate_unusable settings H) as Hc.
    split; [|split].
    + apply oe_bind; [apply oe_log; exact I | intros _].
      apply oe_bind; [apply log_active_engines_setup | intros _].
      apply oe_bind; [apply sample_valid_fields_setup | intros vf].
      apply oe_bind;
        [destruct (in_set _ _); [apply oe_ret | apply oe_log; exact I] | intros _].
      apply (oe_bind_returns _ _ _ _ (proj1 (load_candidate_setup settings)) Hc).
      intros a ->. apply oe_ret.
    + apply quiet_bind; [apply quiet_log | intros _].
      apply quiet_bind; [apply log_active_engines_setup | intros _].
      apply quiet_bind; [apply sample_valid_fields_setup | intros vf].
      apply quiet_bind;
        [destruct (in_set _ _); [apply quiet_ret | apply quiet_log] | intros _].
      apply (quiet_bind_returns _ _ _ (proj2 (load_candidate_setup settings)) Hc).
      intros a ->. apply quiet_ret.
    + apply returns_bind. intros _. apply returns_bind. intros _.
      apply returns_bind. intros vf. apply returns_bind. intros _.
      apply (returns_bind_returns _ _ _ _ Hc).
      intros a ->. apply returns_ret. reflexivity.
  - intros H1 H2 Hab. split; [|split].
    + intros w. unfold active_engines.
      assert (E : match ab_test with
                  | Some (e :: es) => e :: es
                  | _ => [scorer_engine]
                  end = [scorer_engine]) by (destruct Hab as [-> | ->]; reflexivity).
      rewrite E. cbn [log_active_engines].
      rewrite (load_scorer_prompt_unknown _ H1 H2).
      unfold bind, log, emit, ret. cbn [llm_calls store_reads store_writes trace].
      reflexivity.
    + intros. apply score_and_persist_unknown; assumption.
    + apply returns_run_scoring_unknown; assumption.
Qed.

(** *** The older scorer *)

Lemma str_take_length n s : String.length (str_take n s) <= n.
Proof.
  unfold str_take. revert s. induction n as [|n IH]; intros s.
  - destruct s; cbn; lia.
  - destruct s as [|c s]; cbn [String.substring String.length]; [lia|].
    specialize (IH s). lia.
Qed.

Lemma short_text_length v : String.length (short_text v) <= 300.
Proof.
  unfold short_text. destruct (truthy v); [apply str_take_length | cbn; lia].
Qed.

(** X28.  Whenever [score_job_description] returns, it has made one call of
    the language model, with the prompt of the cleaned description, and the
    reply has parsed to an object.  The result holds the fit score read
    from the reply's [FitScore], from 1 to 5; as next action the reply's
    [NextAction], trimmed, when that is one of the four canonical actions,
    and "Skip" when it is not; and as reasons and gaps the first 300
    characters of the text of the reply's [FitReasons] and [GapsRisks], empty
    when the entry is absent or falsy. *)
Theorem score_job_description_result job_description w result w' :
  score_job_description job_description w = (Ok result, w') ->
  exists text d a fit action reasons gaps,
    llm_reply (llm_calls w) "gpt-4o-mini"
      (format_user_prompt (clean_job_text job_description)) = Ok text
    /\ safe_parse_json text = JDict d
    /\ dget_default d "NextAction" (JStr "") = JStr a
    /\ result = [("fit_score", JInt fit); ("next_action", JStr action);
                 ("fit_reasons", JStr reasons); ("gaps_risks", JStr gaps)]
    /\ normalize_fit_value (dget d "FitScore") = Ok fit
    /\ (1 <= fit <= 5)%Z
    /\ In action valid_actions
    /\ (In (py_strip a) valid_actions -> action = py_strip a)
    /\ (~ In (py_strip a) valid_actions -> action = "Skip")
    /\ reasons = (let v := dget_default d "FitReasons" (JStr "") in
                  if truthy v then str_take 300 (py_str v) else "")
    /\ gaps = (let v := dget_default d "GapsRisks" (JStr "") in
               if truthy v then str_take 300 (py_str v) else "")
    /\ String.length reasons <= 300 /\ String.length gaps <= 300
    /\ llm_calls w' = llm_calls w + 1.
Proof.
  unfold score_job_description, bind, lift, ret, throw, request_json. intros H.
  destruct (llm_reply _ _ _) as [text|e] eqn:Er; [|discriminate].
  destruct (negb (truthy (safe_parse_json text))); [discriminate|].
  destruct (safe_parse_json text) as [| | | | | |d] eqn:Ep; try discriminate.
  destruct (normalize_fit_value (dget d "FitScore")) as [fit|e] eqn:Ef; [|discriminate].
  destruct (dget_default d "NextAction" (JStr "")) as [| | | |a| |] eqn:Ea;
    try discriminate.
  exists text, d, a, fit,
    (if in_set (py_strip a) valid_actions then py_strip a else "Skip"),
    (short_text (dget_default d "FitReasons" (JStr ""))),
    (short_text (dget_default d "GapsRisks" (JStr ""))).
  injection H as <- <-. cbn [llm_calls].
  split; [reflexivity|]. split; [exact Ep|]. split; [exact Ea|].
  split; [reflexivity|]. split; [exact Ef|].
  split; [eapply normalize_fit_value_range; exact Ef|].
  destruct (in_set (py_strip a) valid_actions) eqn:Ei.
  - pose proof (proj1 (in_set_In (py_strip a) valid_actions) Ei) as Hin.
    split; [exact Hin|]. split; [reflexivity|]. split; [intros Hn; contradiction|].
    split; [reflexivity|]. split; [reflexivity|].
    split; [apply short_text_length|]. split; [apply short_text_length | lia].
  - assert (Hn : ~ In (py_strip a) valid_actions).
    { intros Hin. apply (proj2 (in_set_In (py_strip a) valid_actions)) in Hin.
      congruence. }
    split; [cbn; auto|]. split; [intros Hin; contradiction|].
    split; [reflexivity|].
    split; [reflexivity|]. split; [reflexivity|].
    split; [apply short_text_length|]. split; [apply short_text_length | lia].
Qed.

(** X29.  [score_record] on a record whose description is a text: it never
    raises; a record with a blank description or with a fit score already
    is skipped without any call; otherwise there is one call, and the
    result is a scored one or an error result that carries the text of the
    exception. *)
Theorem score_record_never_raises record w jd :
  field_stripped record "JobDescriptionRaw" = Ok jd ->
  exists result w',
    score_record record w = (Ok result, w')
    /\ In (dget result "status") [JStr "scored"; JStr "skipped"; JStr "error"]
    /\ (jd = "" \/ truthy (dget (rec_fields record) "FitScore") = true ->
        dget result "status" = JStr "skipped" /\ w' = w)
    /\ (jd <> "" -> truthy (dget (rec_fields record) "FitScore") = false ->
        llm_calls w' = llm_calls w + 1
        /\ dget result "status" <> JStr "skipped").
Proof.
  intros Hjd. unfold score_record, bind, lift. rewrite Hjd.
  destruct (String.eqb_spec jd "") as [Ej|Ej].
  { unfold ret. do 2 eexists. split; [reflexivity|]. cbn.
    split; [auto|]. split; [auto | intros H; contradiction]. }
  destruct (truthy (dget (rec_fields record) "FitScore")) eqn:Et.
  { unfold ret. do 2 eexists. split; [reflexivity|]. cbn.
    split; [auto|]. split; [auto | intros _ H; discriminate]. }
  unfold catch, ret.
  assert (Hc : llm_calls (snd (score_job_description jd w)) = llm_calls w + 1).
  { unfold score_job_description, bind, lift, ret, throw, request_json.
    destruct (llm_reply _ _ _) as [text|e]; [|cbn; lia].
    destruct (negb (truthy (safe_parse_json text))); [cbn; lia|].
    destruct (safe_parse_json text) as [| | | | | |d]; try (cbn; lia).
    destruct (normalize_fit_value (dget d "FitScore")); [|cbn; lia].
    destruct (dget_default d "NextAction" (JStr "")); cbn; lia. }
  destruct (score_job_description jd w) as [[res|e] w1]; cbn [snd] in Hc;
    do 2 eexists; (split; [reflexivity|]); cbn;
    (split; [auto|]);
    (split; [intros [H|H]; [contradiction | discriminate]|]);
    intros _ _; (split; [exact Hc | discriminate]).
Qed.

End Scoring.

(** ** The claims on concrete inputs *)

(** C1 (code defect).  The claim: every raw fit-score value is normalised to
    an integer in [1,5] without raising.  On a response whose [fit_score] is
    the float infinity ([json.loads] reads it from [Infinity] or [1e999]),
    [int(x)] raises [OverflowError], which the handler for [ValueError] and
    [TypeError] lets through: the normalisation of [run_single_scorer], the
    scorer run as a whole and the same lines of [run_pipeline] raise. *)
Theorem infinite_fit_score_escapes :
  normalize_fit_score ex_int_of_str resp_infinite = Raise OverflowError
  /\ fst (run_single_scorer ex_int_of_str ex_float_of_str ex_str_other
            (loads_of [JDict resp_infinite]) ex_dumps "V1 PROMPT"
            (FileText "PERFECTER PROMPT")
            (llm_script [ex_dumps_compact (JDict resp_infinite)])
            "v1" ex_scorer_input "rec1" world0)
     = Raise OverflowError
  /\ pipeline_fit_and_action ex_int_of_str (loads_of [JDict resp_infinite])
       (ex_dumps_compact (JDict resp_infinite))
     = Raise OverflowError.
Proof. repeat split; vm_compute; reflexivity. Qed.

(** C2, the claim as stated fails: the response names [" Skip "], which is
    not one of the four literals, with fit score 5; the next action is the
    trimmed text "Skip", not the action mapped from 5, "Apply Now". *)
Lemma padded_next_action_is_kept :
  exists r w',
    run_single_scorer ex_int_of_str ex_float_of_str ex_str_other
      (loads_of [JDict resp_padded_skip]) ex_dumps "V1 PROMPT"
      (FileText "PERFECTER PROMPT")
      (llm_script [ex_dumps_compact (JDict resp_padded_skip)])
      "v1" ex_scorer_input "rec1" world0
    = (Ok (Scored r), w')
    /\ dget (raw_score r) "next_action" = JStr " Skip "
    /\ in_set " Skip " valid_actions = false
    /\ fit_score r = 5%Z
    /\ next_action r = "Skip"
    /\ next_action r <> "Apply Now".
Proof.
  eexists. eexists. split; [vm_compute; reflexivity|].
  repeat split; try reflexivity. discriminate.
Qed.

Lemma next_action_canonical_or_mapped_witness :
  exists r,
    fst (run_single_scorer ex_int_of_str ex_float_of_str ex_str_other
           (loads_of [JDict resp_unknown_action]) ex_dumps "V1 PROMPT"
           (FileText "PERFECTER PROMPT")
           (llm_script [ex_dumps_compact (JDict resp_unknown_action)])
           "v1" ex_scorer_input "rec1" world0)
    = Ok (Scored r)
    /\ In (next_action r) valid_actions
    /\ match next_action_raw (raw_score r) with
       | Some a => if in_set a valid_actions then next_action r = a else mapped_from_fit r
       | None => mapped_from_fit r
       end.
Proof.
  eexists. split; [vm_compute; reflexivity|].
  apply (next_action_canonical_or_mapped ex_int_of_str ex_float_of_str ex_str_other
           (loads_of [JDict resp_unknown_action]) ex_dumps "V1 PROMPT"
           (FileText "PERFECTER PROMPT")
           (llm_script [ex_dumps_compact (JDict resp_unknown_action)])
           "v1" ex_scorer_input "rec1" world0 _
           (snd (run_single_scorer ex_int_of_str ex_float_of_str ex_str_other
                   (loads_of [JDict resp_unknown_action]) ex_dumps "V1 PROMPT"
                   (FileText "PERFECTER PROMPT")
                   (llm_script [ex_dumps_compact (JDict resp_unknown_action)])
                   "v1" ex_scorer_input "rec1" world0))).
  vm_compute. reflexivity.
Defined.

(** C7 (code defect).  The claim: a first response that is unparsable or
    lacks a required key is followed by exactly one retry.  The first
    response [[1]] parses to an array, which has none of the required keys;
    [score.keys()] raises [AttributeError] and the scorer stops after one
    call, although the second reply would have been a valid response. *)
Theorem array_response_is_not_retried :
  fst (run_single_scorer ex_int_of_str ex_float_of_str ex_str_other
         (loads_of [JList [JInt 1]; JDict resp_fit4]) ex_dumps "V1 PROMPT"
         (FileText "PERFECTER PROMPT")
         (llm_script ["[1]"; ex_dumps_compact (JDict resp_fit4)])
         "v1" ex_scorer_input "rec1" world0)
  = Raise AttributeError
  /\ llm_calls (snd (run_single_scorer ex_int_of_str ex_float_of_str ex_str_other
                       (loads_of [JList [JInt 1]; JDict resp_fit4]) ex_dumps "V1 PROMPT"
                       (FileText "PERFECTER PROMPT")
                       (llm_script ["[1]"; ex_dumps_compact (JDict resp_fit4)])
                       "v1" ex_scorer_input "rec1" world0))
     = 1.
Proof. split; vm_compute; reflexivity. Qed.

(** C9, the claim as stated fails: the text [&lt;b&gt;bold&lt;/b&gt;] is
    normalized to [<b>bold</b>], and that text is normalized to [bold]. *)
Lemma escaped_markup_is_not_stable :
  clean_html_to_text ex_html_unescape
    (clean_html_to_text ex_html_unescape "&lt;b&gt;bold&lt;/b&gt;")
  <> clean_html_to_text ex_html_unescape "&lt;b&gt;bold&lt;/b&gt;".
Proof. vm_compute. discriminate. Qed.

Lemma clean_html_to_text_stable_witness :
  ~ In lt (list_ascii_of_string
             (clean_html_to_text ex_html_unescape "<p>Hello <b>world</b></p><br/>bye"))
  /\ ex_html_unescape
       (clean_html_to_text ex_html_unescape "<p>Hello <b>world</b></p><br/>bye")
     = clean_html_to_text ex_html_unescape "<p>Hello <b>world</b></p><br/>bye"
  /\ clean_html_to_text ex_html_unescape
       (clean_html_to_text ex_html_unescape "<p>Hello <b>world</b></p><br/>bye")
     = clean_html_to_text ex_html_unescape "<p>Hello <b>world</b></p><br/>bye".
Proof.
  assert (H1 : ~ In lt (list_ascii_of_string
                          (clean_html_to_text ex_html_unescape
                             "<p>Hello <b>world</b></p><br/>bye"))).
  { vm_compute. intros H. repeat (destruct H as [H|H]; [discriminate H|]). exact H. }
  assert (H2 : ex_html_unescape
                 (clean_html_to_text ex_html_unescape "<p>Hello <b>world</b></p><br/>bye")
               = clean_html_to_text ex_html_unescape "<p>Hello <b>world</b></p><br/>bye").
  { vm_compute. reflexivity. }
  split; [exact H1 | split; [exact H2 |]].
  apply (clean_html_to_text_stable ex_html_unescape _ H1 H2).
Defined.

(** C4, the claim as stated fails: engine A (perfecter_v1) reports fit
    score 4 and no gate failure, engine B (v1) reports fit score 1 with
    clearance text in its gaps and names the action "Network First"; B is
    the only hard-gate failure and wins, and the winner's next action is
    "Network First", not "Skip". *)
Lemma gate_winner_keeps_its_own_action :
  scored_of_response ex_int_of_str ex_float_of_str "perfecter_v1" resp_fit4
  = Ok scored_fit4
  /\ scored_of_response ex_int_of_str ex_float_of_str "v1" resp_gate_network
     = Ok scored_gate_network
  /\ is_hard_gate_failure scored_fit4 "perfecter_v1" = Ok false
  /\ is_hard_gate_failure scored_gate_network "v1" = Ok true
  /\ select_ab_winner [("perfecter_v1", scored_fit4); ("v1", scored_gate_network)]
       ["perfecter_v1"; "v1"] (Some "perfecter_v1") = Ok "v1"
  /\ next_action scored_gate_network <> "Skip".
Proof. repeat split; try (vm_compute; reflexivity). discriminate. Qed.

Lemma ab_winner_single_gate_failure_witness :
  "perfecter_v1" <> "v1"
  /\ scored_of_response ex_int_of_str ex_float_of_str "perfecter_v1" resp_fit4
     = Ok scored_fit4
  /\ scored_of_response ex_int_of_str ex_float_of_str "v1" resp_gate_skip
     = Ok scored_gate_skip
  /\ is_hard_gate_failure scored_fit4 "perfecter_v1" = Ok false
  /\ is_hard_gate_failure scored_gate_skip "v1" = Ok true
  /\ xorb false true = true
  /\ exists winner rw,
       select_ab_winner [("perfecter_v1", scored_fit4); ("v1", scored_gate_skip)]
         ["perfecter_v1"; "v1"] (Some "perfecter_v1") = Ok winner
       /\ aget [("perfecter_v1", scored_fit4); ("v1", scored_gate_skip)] winner = Some rw
       /\ is_hard_gate_failure rw winner = Ok true
       /\ (fit_score rw = 1%Z ->
           match next_action_raw (raw_score rw) with
           | Some a => In a valid_actions -> a = "Skip"
           | None => True
           end ->
           next_action rw = "Skip").
Proof.
  assert (H0 : "perfecter_v1" <> "v1") by discriminate.
  assert (H1 : scored_of_response ex_int_of_str ex_float_of_str "perfecter_v1" resp_fit4
               = Ok scored_fit4) by (vm_compute; reflexivity).
  assert (H2 : scored_of_response ex_int_of_str ex_float_of_str "v1" resp_gate_skip
               = Ok scored_gate_skip) by (vm_compute; reflexivity).
  assert (H3 : is_hard_gate_failure scored_fit4 "perfecter_v1" = Ok false)
    by (vm_compute; reflexivity).
  assert (H4 : is_hard_gate_failure scored_gate_skip "v1" = Ok true)
    by (vm_compute; reflexivity).
  assert (H5 : xorb false true = true) by reflexivity.
  repeat (split; [assumption|]).
  exact (ab_winner_single_gate_failure ex_int_of_str ex_float_of_str
           "perfecter_v1" "v1" resp_fit4 resp_gate_skip scored_fit4 scored_gate_skip
           (Some "perfecter_v1") false true H0 H1 H2 H3 H4 H5).
Defined.



(** C3 (code defect).  The claim: every outgoing update is filtered against
    the field set sampled from the live table.  The sample of the run below
    holds the fields [JobURL] and [JobDescriptionRaw] alone; the record
    [rec2] has a blank description, and the update that marks it writes
    [Status], [ScoringStatus] and [SkipReason], none of which was sampled,
    and no field is logged as dropped: the payload is filtered against the
    fixed list of names of [run_scoring], not against the sample. *)
Theorem writes_ignore_sampled_fields :
  fst (sample_valid_fields (list_script [[rec_sample]; []; [rec_blank]]) "Jobs" world0)
  = Ok ["JobURL"; "JobDescriptionRaw"]
  /\ run_scoring ex_int_of_str ex_float_of_str ex_str_other (loads_of [JDict []])
       ex_dumps ex_dumps_compact ex_dumps_sorted ex_html_unescape ex_sha256 ex_exn_str
       "PARSE <<JOB_DESCRIPTION>>" "V1 PROMPT" (FileText "PERFECTER PROMPT") ex_flags
       "RUN_1" "2026-01-01T00:00:00+00:00" (llm_script []) store_accepts
       (list_script [[rec_sample]; []; [rec_blank]]) (find_script (Some rec_candidate))
       ex_settings 10%Z false false false None None "v1" None None world0
     = (Ok {| total := 1; scored_count := 0; skipped_count := 1; error_count := 0 |},
        {| llm_calls := 0; store_reads := 3; store_writes := 1;
           trace :=
             [EvLog "RUN_START id=RUN_1";
              EvLog "ACTIVE_SCORER_ENGINE=v1";
              EvLog "ACTIVE_PROMPT_HASH_v1=0000000000000000";
              EvList "Jobs" 3 None;
              EvLog "WARN_NO_FITSCORE_FIELD";
              EvFindOne "CandidateProfile" "ProfileID" "ME";
              EvList "Jobs" 10 (Some filter_formula);
              EvLog "SKIP_NO_JD record_id=rec2";
              EvUpdate "Jobs" "rec2"
                [("Status", JStr "Needs JD");
                 ("ScoringStatus", JStr "SKIPPED");
                 ("SkipReason",
                   JStr "JobDescriptionRaw empty after stripping. Needs full JD.")]] |}).
Proof. split; vm_compute; reflexivity. Qed.

(** C5, the claim as stated fails: the engine name "bogus" is unknown to
    [load_scorer_prompt]; the run logs a warning, queries the jobs, takes
    the record [rec1] through cleaning and structuring (one language-model
    call and six writes) and counts it as an error of that record. *)
Lemma unknown_engine_run_goes_on :
  load_scorer_prompt "V1 PROMPT" (FileText "PERFECTER PROMPT") "bogus" = Raise ValueError
  /\ exists w',
       run_scoring ex_int_of_str ex_float_of_str ex_str_other
         (loads_of [JDict []; JDict resp_fit4])
         ex_dumps ex_dumps_compact ex_dumps_sorted ex_html_unescape ex_sha256 ex_exn_str
         "PARSE <<JOB_DESCRIPTION>>" "V1 PROMPT" (FileText "PERFECTER PROMPT") ex_flags
         "RUN_1" "2026-01-01T00:00:00+00:00"
         (llm_script ["{}"; ex_dumps_compact (JDict resp_fit4)]) store_accepts
         (list_script [[rec_sample]; []; [rec_short]]) (find_script (Some rec_candidate))
         ex_settings 10%Z false false false None None "bogus" None None world0
       = (Ok {| total := 1; scored_count := 0; skipped_count := 0; error_count := 1 |}, w')
       /\ llm_calls w' = 1
       /\ store_writes w' = 6
       /\ In (EvList "Jobs" 10 (Some filter_formula)) (trace w')
       /\ In (EvLLM JobStructurer "gpt-4o-mini" "PARSE Short & sweet") (trace w').
Proof.
  split; [reflexivity|].
  eexists. split; [vm_compute; reflexivity|].
  repeat split; cbn [trace]; repeat first [left; reflexivity | right].
Qed.

Lemma run_stops_without_candidate_witness :
  (forall (n : nat) (t f v : string),
      exists c, find_script (Some rec_candidate_empty) n t f v = Ok c
                /\ candidate_unusable (loads_of [JDict []]) c)
  /\ only_events setup_event
       (run_scoring ex_int_of_str ex_float_of_str ex_str_other (loads_of [JDict []])
          ex_dumps ex_dumps_compact ex_dumps_sorted ex_html_unescape ex_sha256 ex_exn_str
          "PARSE <<JOB_DESCRIPTION>>" "V1 PROMPT" (FileText "PERFECTER PROMPT") ex_flags
          "RUN_1" "2026-01-01T00:00:00+00:00" (llm_script []) store_accepts
          (list_script [[rec_sample]; []; [rec_short]])
          (find_script (Some rec_candidate_empty))
          ex_settings 10%Z false false false None None "v1" None None)
  /\ fst (run_scoring ex_int_of_str ex_float_of_str ex_str_other (loads_of [JDict []])
            ex_dumps ex_dumps_compact ex_dumps_sorted ex_html_unescape ex_sha256
            ex_exn_str
            "PARSE <<JOB_DESCRIPTION>>" "V1 PROMPT" (FileText "PERFECTER PROMPT") ex_flags
            "RUN_1" "2026-01-01T00:00:00+00:00" (llm_script []) store_accepts
            (list_script [[rec_sample]; []; [rec_short]])
            (find_script (Some rec_candidate_empty))
            ex_settings 10%Z false false false None None "v1" None None world0)
     = Ok (no_records 1)
  /\ "bogus" <> "v1" /\ "bogus" <> "perfecter_v1"
  /\ (@None (list string) = None \/ @None (list string) = Some [])
  /\ log_active_engines ex_sha256 ex_exn_str "V1 PROMPT" (FileText "PERFECTER PROMPT")
       (active_engines "bogus" None) world0
     = (Ok tt,
        {| llm_calls := 0; store_reads := 0; store_writes := 0;
           trace := [EvLog ("WARN: Failed to load prompt for engine=bogus "
                            ^^ "error=Unknown scorer engine")] |})
  /\ returns (fun s => scored_count s = 0)
       (run_scoring ex_int_of_str ex_float_of_str ex_str_other
          (loads_of [JDict []; JDict resp_fit4])
          ex_dumps ex_dumps_compact ex_dumps_sorted ex_html_unescape ex_sha256 ex_exn_str
          "PARSE <<JOB_DESCRIPTION>>" "V1 PROMPT" (FileText "PERFECTER PROMPT") ex_flags
          "RUN_1" "2026-01-01T00:00:00+00:00"
          (llm_script ["{}"; ex_dumps_compact (JDict resp_fit4)]) store_accepts
          (list_script [[rec_sample]; []; [rec_short]]) (find_script (Some rec_candidate))
          ex_settings 10%Z false false false None None "bogus" None None).
Proof.
  assert (H : forall (n : nat) (t f v : string),
             exists c, find_script (Some rec_candidate_empty) n t f v = Ok c
                       /\ candidate_unusable (loads_of [JDict []]) c).
  { intros n t f v. exists (Some rec_candidate_empty).
    split; [reflexivity | left; reflexivity]. }
  assert (H1 : "bogus" <> "v1") by discriminate.
  assert (H2 : "bogus" <> "perfecter_v1") by discriminate.
  assert (H3 : @None (list string) = None \/ @None (list string) = Some [])
    by (left; reflexivity).
  split; [exact H|].
  split;
    [exact (proj1 (proj1 (run_stops_without_candidate ex_int_of_str ex_float_of_str
                            ex_str_other (loads_of [JDict []]) ex_dumps ex_dumps_compact
                            ex_dumps_sorted ex_html_unescape ex_sha256 ex_exn_str
                            "PARSE <<JOB_DESCRIPTION>>" "V1 PROMPT"
                            (FileText "PERFECTER PROMPT") ex_flags "RUN_1"
                            "2026-01-01T00:00:00+00:00" (llm_script []) store_accepts
                            (list_script [[rec_sample]; []; [rec_short]])
                            (find_script (Some rec_candidate_empty))
                            ex_settings 10%Z false false "v1" None None) H))|].
  split; [vm_compute; reflexivity|].
  split; [exact H1|]. split; [exact H2|]. split; [exact H3|].
  destruct (proj2 (run_stops_without_candidate ex_int_of_str ex_float_of_str
                     ex_str_other (loads_of [JDict []; JDict resp_fit4]) ex_dumps
                     ex_dumps_compact ex_dumps_sorted ex_html_unescape ex_sha256
                     ex_exn_str "PARSE <<JOB_DESCRIPTION>>" "V1 PROMPT"
                     (FileText "PERFECTER PROMPT") ex_flags "RUN_1"
                     "2026-01-01T00:00:00+00:00"
                     (llm_script ["{}"; ex_dumps_compact (JDict resp_fit4)])
                     store_accepts (list_script [[rec_sample]; []; [rec_short]])
                     (find_script (Some rec_candidate))
                     ex_settings 10%Z false false "bogus" None None) H1 H2 H3)
    as (Hlog & _ & Hrun).
  split; [exact (Hlog world0) | exact Hrun].
Defined.





(** ** The further properties on concrete inputs *)

Lemma join_lines_split_back_witness :
  filter (fun s => negb (String.eqb (py_strip s) "")) ["Python"; "  "; "SQL"] <> []
  /\ Forall (fun s => ~ In nl (list_ascii_of_string s))
       (filter (fun s => negb (String.eqb (py_strip s) "")) ["Python"; "  "; "SQL"])
  /\ map string_of_list_ascii
       (split_nl (list_ascii_of_string
                    (join_lines ex_str_other (JList (map JStr ["Python"; "  "; "SQL"])))))
     = filter (fun s => negb (String.eqb (py_strip s) "")) ["Python"; "  "; "SQL"].
Proof.
  assert (H1 : filter (fun s => negb (String.eqb (py_strip s) ""))
                 ["Python"; "  "; "SQL"] <> []) by (vm_compute; discriminate).
  assert (H2 : Forall (fun s => ~ In nl (list_ascii_of_string s))
                 (filter (fun s => negb (String.eqb (py_strip s) ""))
                    ["Python"; "  "; "SQL"])).
  { change (Forall (fun s => ~ In nl (list_ascii_of_string s)) ["Python"; "SQL"]).
    repeat constructor; intros H; cbn in H;
      repeat (destruct H as [H|H]; [discriminate H|]); exact H. }
  split; [exact H1|]. split; [exact H2|].
  exact (join_lines_split_back ex_str_other ["Python"; "  "; "SQL"] H1 H2).
Defined.

Lemma safe_parse_json_extracts_object_witness :
  loads_of [JDict [("a", JInt 1)]] ("Here it is: " ^^ "{" ^^ body_a1 ^^ "}" ^^ " Done.") = None
  /\ ~ In (ascii_of_nat 123) (list_ascii_of_string "Here it is: ")
  /\ ~ In (ascii_of_nat 91) (list_ascii_of_string "Here it is: ")
  /\ ~ In (ascii_of_nat 125) (list_ascii_of_string " Done.")
  /\ loads_of [JDict [("a", JInt 1)]] ("{" ^^ body_a1 ^^ "}") = Some (JDict [("a", JInt 1)])
  /\ safe_parse_json (loads_of [JDict [("a", JInt 1)]])
       ("Here it is: " ^^ "{" ^^ body_a1 ^^ "}" ^^ " Done.")
     = JDict [("a", JInt 1)].
Proof.
  assert (H1 : loads_of [JDict [("a", JInt 1)]]
                 ("Here it is: " ^^ "{" ^^ body_a1 ^^ "}" ^^ " Done.") = None)
    by (vm_compute; reflexivity).
  assert (H2 : ~ In (ascii_of_nat 123) (list_ascii_of_string "Here it is: "))
    by (cbn; intros H; repeat (destruct H as [H|H]; [discriminate H|]); exact H).
  assert (H3 : ~ In (ascii_of_nat 91) (list_ascii_of_string "Here it is: "))
    by (cbn; intros H; repeat (destruct H as [H|H]; [discriminate H|]); exact H).
  assert (H4 : ~ In (ascii_of_nat 125) (list_ascii_of_string " Done."))
    by (cbn; intros H; repeat (destruct H as [H|H]; [discriminate H|]); exact H).
  assert (H5 : loads_of [JDict [("a", JInt 1)]] ("{" ^^ body_a1 ^^ "}")
               = Some (JDict [("a", JInt 1)])) by (vm_compute; reflexivity).
  repeat (split; [assumption|]).
  exact (safe_parse_json_extracts_object (loads_of [JDict [("a", JInt 1)]])
           "Here it is: " body_a1 " Done." [("a", JInt 1)] H1 H2 H3 H4 H5).
Defined.

Lemma safe_parse_json_wraps_array_witness :
  loads_of [JList [JInt 1; JInt 2]] ("Scores: " ^^ "[" ^^ "1,2" ^^ "]" ^^ " (two)") = None
  /\ ~ In (ascii_of_nat 123) (list_ascii_of_string "Scores: ")
  /\ ~ In (ascii_of_nat 91) (list_ascii_of_string "Scores: ")
  /\ ~ In (ascii_of_nat 93) (list_ascii_of_string " (two)")
  /\ loads_of [JList [JInt 1; JInt 2]] ("[" ^^ "1,2" ^^ "]") = Some (JList [JInt 1; JInt 2])
  /\ safe_parse_json (loads_of [JList [JInt 1; JInt 2]])
       ("Scores: " ^^ "[" ^^ "1,2" ^^ "]" ^^ " (two)")
     = JDict [("_list", JList [JInt 1; JInt 2])].
Proof.
  assert (H1 : loads_of [JList [JInt 1; JInt 2]]
                 ("Scores: " ^^ "[" ^^ "1,2" ^^ "]" ^^ " (two)") = None)
    by (vm_compute; reflexivity).
  assert (H2 : ~ In (ascii_of_nat 123) (list_ascii_of_string "Scores: "))
    by (cbn; intros H; repeat (destruct H as [H|H]; [discriminate H|]); exact H).
  assert (H3 : ~ In (ascii_of_nat 91) (list_ascii_of_string "Scores: "))
    by (cbn; intros H; repeat (destruct H as [H|H]; [discriminate H|]); exact H).
  assert (H4 : ~ In (ascii_of_nat 93) (list_ascii_of_string " (two)"))
    by (cbn; intros H; repeat (destruct H as [H|H]; [discriminate H|]); exact H).
  assert (H5 : loads_of [JList [JInt 1; JInt 2]] ("[" ^^ "1,2" ^^ "]")
               = Some (JList [JInt 1; JInt 2])) by (vm_compute; reflexivity).
  repeat (split; [assumption|]).
  exact (safe_parse_json_wraps_array (loads_of [JList [JInt 1; JInt 2]])
           "Scores: " "1,2" " (two)" [JInt 1; JInt 2] H1 H2 H3 H4 H5).
Defined.

Lemma fit_score_is_clamped_or_defaulted_witness :
  (forall s, raw_fit_score resp_fit4 <> JFloat (S754_infinity s))
  /\ exists n,
       normalize_fit_score ex_int_of_str resp_fit4 = Ok n
       /\ (1 <= n <= 5)%Z
       /\ (raw_fit_score resp_fit4 = JNull -> n = 3%Z)
       /\ (forall t, raw_fit_score resp_fit4 = JStr t -> ex_int_of_str t = None -> n = 3%Z)
       /\ (forall z, raw_fit_score resp_fit4 = JInt z -> n = Z.max 1 (Z.min 5 z)).
Proof.
  assert (H : forall s, raw_fit_score resp_fit4 <> JFloat (S754_infinity s))
    by (intros s; vm_compute; discriminate).
  split; [exact H|].
  exact (fit_score_is_clamped_or_defaulted ex_int_of_str resp_fit4 H).
Defined.

Lemma pipeline_action_follows_fit_witness :
  pipeline_fit_and_action ex_int_of_str (loads_of [JDict resp_unknown_action])
    (ex_dumps_compact (JDict resp_unknown_action))
  = Ok (4%Z, "Apply")
  /\ (1 <= 4 <= 5)%Z /\ "Apply" = action_of_fit 4 /\ In "Apply" valid_actions.
Proof.
  assert (H : pipeline_fit_and_action ex_int_of_str (loads_of [JDict resp_unknown_action])
                (ex_dumps_compact (JDict resp_unknown_action))
              = Ok (4%Z, "Apply")) by (vm_compute; reflexivity).
  split; [exact H|].
  exact (pipeline_action_follows_fit ex_int_of_str (loads_of [JDict resp_unknown_action])
           (ex_dumps_compact (JDict resp_unknown_action)) 4%Z "Apply" H).
Defined.

Lemma scored_result_is_well_formed_witness :
  run_single_scorer ex_int_of_str ex_float_of_str ex_str_other
    (loads_of [JDict resp_fit4]) ex_dumps "V1 PROMPT" (FileText "PERFECTER PROMPT")
    (llm_script [ex_dumps_compact (JDict resp_fit4)]) "v1" ex_scorer_input "rec1" world0
  = (Ok (Scored (scored_of "v1" 4 "Apply" resp_fit4)),
     snd (run_single_scorer ex_int_of_str ex_float_of_str ex_str_other
            (loads_of [JDict resp_fit4]) ex_dumps "V1 PROMPT" (FileText "PERFECTER PROMPT")
            (llm_script [ex_dumps_compact (JDict resp_fit4)]) "v1" ex_scorer_input "rec1"
            world0))
  /\ (1 <= fit_score (scored_of "v1" 4 "Apply" resp_fit4) <= 5)%Z
  /\ engine (scored_of "v1" 4 "Apply" resp_fit4) = "v1"
  /\ forallb (dmem (raw_score (scored_of "v1" 4 "Apply" resp_fit4))) scorer_required_keys
     = true
  /\ (llm_calls
        (snd (run_single_scorer ex_int_of_str ex_float_of_str ex_str_other
                (loads_of [JDict resp_fit4]) ex_dumps "V1 PROMPT"
                (FileText "PERFECTER PROMPT")
                (llm_script [ex_dumps_compact (JDict resp_fit4)]) "v1" ex_scorer_input
                "rec1" world0))
      = llm_calls world0 + 1
      \/ llm_calls
           (snd (run_single_scorer ex_int_of_str ex_float_of_str ex_str_other
                   (loads_of [JDict resp_fit4]) ex_dumps "V1 PROMPT"
                   (FileText "PERFECTER PROMPT")
                   (llm_script [ex_dumps_compact (JDict resp_fit4)]) "v1" ex_scorer_input
                   "rec1" world0))
         = llm_calls world0 + 2).
Proof.
  assert (H : run_single_scorer ex_int_of_str ex_float_of_str ex_str_other
                (loads_of [JDict resp_fit4]) ex_dumps "V1 PROMPT"
                (FileText "PERFECTER PROMPT")
                (llm_script [ex_dumps_compact (JDict resp_fit4)]) "v1" ex_scorer_input
                "rec1" world0
              = (Ok (Scored (scored_of "v1" 4 "Apply" resp_fit4)),
                 snd (run_single_scorer ex_int_of_str ex_float_of_str ex_str_other
                        (loads_of [JDict resp_fit4]) ex_dumps "V1 PROMPT"
                        (FileText "PERFECTER PROMPT")
                        (llm_script [ex_dumps_compact (JDict resp_fit4)]) "v1"
                        ex_scorer_input "rec1" world0)))
    by (vm_compute; reflexivity).
  split; [exact H|].
  exact (scored_result_is_well_formed _ _ _ _ _ _ _ _ _ _ _ _ _ _ H).
Defined.

Lemma run_single_scorer_first_ok_witness :
  load_scorer_prompt "V1 PROMPT" (FileText "PERFECTER PROMPT") "v1" = Ok "V1 PROMPT"
  /\ runtime_item ex_scorer_input "model" = Ok (JStr "gpt-4o-mini")
  /\ runtime_item ex_scorer_input "temperature" = Ok (JFloat float_0_7)
  /\ llm_script [ex_dumps_compact (JDict resp_fit4)] (llm_calls world0)
       (py_str ex_str_other (JStr "gpt-4o-mini"))
       ("V1 PROMPT" ^^ NL ^^ NL ^^ "INPUT_JSON:" ^^ NL ^^ ex_dumps (JDict ex_scorer_input))
     = Ok (ex_dumps_compact (JDict resp_fit4))
  /\ validate_keys scorer_required_keys
       (safe_parse_json (loads_of [JDict resp_fit4]) (ex_dumps_compact (JDict resp_fit4)))
     = Ok (Some resp_fit4)
  /\ exists w',
       run_single_scorer ex_int_of_str ex_float_of_str ex_str_other
         (loads_of [JDict resp_fit4]) ex_dumps "V1 PROMPT" (FileText "PERFECTER PROMPT")
         (llm_script [ex_dumps_compact (JDict resp_fit4)]) "v1" ex_scorer_input "rec1"
         world0
       = (match scored_of_response ex_int_of_str ex_float_of_str "v1" resp_fit4 with
          | Ok r => Ok (Scored r)
          | Raise x => Raise x
          end, w')
       /\ llm_calls w' = S (llm_calls world0)
       /\ trace w'
          = trace world0
            ++ [EvLLM ScorerFirst (py_str ex_str_other (JStr "gpt-4o-mini"))
                  ("V1 PROMPT" ^^ NL ^^ NL ^^ "INPUT_JSON:" ^^ NL
                   ^^ ex_dumps (JDict ex_scorer_input))].
Proof.
  assert (H1 : load_scorer_prompt "V1 PROMPT" (FileText "PERFECTER PROMPT") "v1"
               = Ok "V1 PROMPT") by reflexivity.
  assert (H2 : runtime_item ex_scorer_input "model" = Ok (JStr "gpt-4o-mini"))
    by reflexivity.
  assert (H3 : runtime_item ex_scorer_input "temperature" = Ok (JFloat float_0_7))
    by reflexivity.
  assert (H4 : llm_script [ex_dumps_compact (JDict resp_fit4)] (llm_calls world0)
                 (py_str ex_str_other (JStr "gpt-4o-mini"))
                 ("V1 PROMPT" ^^ NL ^^ NL ^^ "INPUT_JSON:" ^^ NL
                  ^^ ex_dumps (JDict ex_scorer_input))
               = Ok (ex_dumps_compact (JDict resp_fit4))) by reflexivity.
  assert (H5 : validate_keys scorer_required_keys
                 (safe_parse_json (loads_of [JDict resp_fit4])
                    (ex_dumps_compact (JDict resp_fit4)))
               = Ok (Some resp_fit4)) by (vm_compute; reflexivity).
  repeat (split; [assumption|]).
  exact (run_single_scorer_first_ok ex_int_of_str ex_float_of_str ex_str_other
           (loads_of [JDict resp_fit4]) ex_dumps "V1 PROMPT" (FileText "PERFECTER PROMPT")
           (llm_script [ex_dumps_compact (JDict resp_fit4)]) "v1" ex_scorer_input "rec1"
           world0 "V1 PROMPT" (JStr "gpt-4o-mini") (JFloat float_0_7)
           (ex_dumps_compact (JDict resp_fit4)) resp_fit4 H1 H2 H3 H4 H5).
Defined.

Lemma scorer_error_after_two_calls_witness :
  run_single_scorer ex_int_of_str ex_float_of_str ex_str_other (loads_of []) ex_dumps
    "V1 PROMPT" (FileText "PERFECTER PROMPT") (llm_script ["no json"; "none again"])
    "v1" ex_scorer_input "rec1" world0
  = (Ok (ScorerError "invalid_model_output" "v1"),
     snd (run_single_scorer ex_int_of_str ex_float_of_str ex_str_other (loads_of [])
            ex_dumps "V1 PROMPT" (FileText "PERFECTER PROMPT")
            (llm_script ["no json"; "none again"]) "v1" ex_scorer_input "rec1" world0))
  /\ llm_calls
       (snd (run_single_scorer ex_int_of_str ex_float_of_str ex_str_other (loads_of [])
               ex_dumps "V1 PROMPT" (FileText "PERFECTER PROMPT")
               (llm_script ["no json"; "none again"]) "v1" ex_scorer_input "rec1" world0))
     = llm_calls world0 + 2.
Proof.
  assert (H : run_single_scorer ex_int_of_str ex_float_of_str ex_str_other (loads_of [])
                ex_dumps "V1 PROMPT" (FileText "PERFECTER PROMPT")
                (llm_script ["no json"; "none again"]) "v1" ex_scorer_input "rec1" world0
              = (Ok (ScorerError "invalid_model_output" "v1"),
                 snd (run_single_scorer ex_int_of_str ex_float_of_str ex_str_other
                        (loads_of []) ex_dumps "V1 PROMPT" (FileText "PERFECTER PROMPT")
                        (llm_script ["no json"; "none again"]) "v1" ex_scorer_input
                        "rec1" world0)))
    by (vm_compute; reflexivity).
  split; [exact H|].
  exact (proj1 (proj2 (proj2
           (scorer_error_after_two_calls _ _ _ _ _ _ _ _ _ _ _ _ _ _ _ H)))).
Defined.

Lemma unknown_engine_fails_fast_witness :
  "bogus" <> "v1" /\ "bogus" <> "perfecter_v1"
  /\ run_single_scorer ex_int_of_str ex_float_of_str ex_str_other
       (loads_of [JDict resp_fit4]) ex_dumps "V1 PROMPT" (FileText "PERFECTER PROMPT")
       (llm_script [ex_dumps_compact (JDict resp_fit4)]) "bogus" ex_scorer_input "rec1"
       world0
     = (Raise ValueError, world0).
Proof.
  assert (H1 : "bogus" <> "v1") by discriminate.
  assert (H2 : "bogus" <> "perfecter_v1") by discriminate.
  split; [exact H1|]. split; [exact H2|].
  exact (unknown_engine_fails_fast ex_int_of_str ex_float_of_str ex_str_other
           (loads_of [JDict resp_fit4]) ex_dumps "V1 PROMPT" (FileText "PERFECTER PROMPT")
           (llm_script [ex_dumps_compact (JDict resp_fit4)]) "bogus" ex_scorer_input
           "rec1" world0 H1 H2).
Defined.

Lemma ab_winner_has_result_witness :
  select_ab_winner [("perfecter_v1", scored_fit4); ("v1", scored_gate_skip)]
    ["perfecter_v1"; "v1"] None = Ok "v1"
  /\ exists r, aget [("perfecter_v1", scored_fit4); ("v1", scored_gate_skip)] "v1" = Some r.
Proof.
  assert (H : select_ab_winner [("perfecter_v1", scored_fit4); ("v1", scored_gate_skip)]
                ["perfecter_v1"; "v1"] None = Ok "v1") by (vm_compute; reflexivity).
  split; [exact H|].
  exact (ab_winner_has_result _ _ _ _ H).
Defined.

Lemma ab_winner_without_gate_failure_witness :
  (forall e r, In e ["v1"; "perfecter_v1"] ->
               aget [("v1", scored_v1_fit4); ("perfecter_v1", scored_fit4)] e = Some r ->
               is_hard_gate_failure r e = Ok false)
  /\ (forall e r, In e ["v1"; "perfecter_v1"] ->
                  aget [("v1", scored_v1_fit4); ("perfecter_v1", scored_fit4)] e = Some r ->
                  (0 <= fit_score r)%Z)
  /\ (exists e r, In e ["v1"; "perfecter_v1"]
                  /\ aget [("v1", scored_v1_fit4); ("perfecter_v1", scored_fit4)] e = Some r)
  /\ ~ In "" ["v1"; "perfecter_v1"]
  /\ exists w rw,
       select_ab_winner [("v1", scored_v1_fit4); ("perfecter_v1", scored_fit4)]
         ["v1"; "perfecter_v1"] None = Ok w
       /\ In w ["v1"; "perfecter_v1"]
       /\ aget [("v1", scored_v1_fit4); ("perfecter_v1", scored_fit4)] w = Some rw
       /\ (forall e r, In e ["v1"; "perfecter_v1"] ->
                       aget [("v1", scored_v1_fit4); ("perfecter_v1", scored_fit4)] e
                       = Some r ->
                       (fit_score r <= fit_score rw)%Z)
       /\ (forall r, In "perfecter_v1" ["v1"; "perfecter_v1"] ->
                     aget [("v1", scored_v1_fit4); ("perfecter_v1", scored_fit4)]
                       "perfecter_v1" = Some r ->
                     fit_score r = fit_score rw -> w = "perfecter_v1").
Proof.
  assert (H1 : forall e r, In e ["v1"; "perfecter_v1"] ->
                 aget [("v1", scored_v1_fit4); ("perfecter_v1", scored_fit4)] e = Some r ->
                 is_hard_gate_failure r e = Ok false).
  { intros e r [<-|[<-|[]]] H; cbn in H; inversion H; subst; vm_compute; reflexivity. }
  assert (H2 : forall e r, In e ["v1"; "perfecter_v1"] ->
                 aget [("v1", scored_v1_fit4); ("perfecter_v1", scored_fit4)] e = Some r ->
                 (0 <= fit_score r)%Z).
  { intros e r [<-|[<-|[]]] H; cbn in H; inversion H; subst; cbn; lia. }
  assert (H3 : exists e r, In e ["v1"; "perfecter_v1"]
                 /\ aget [("v1", scored_v1_fit4); ("perfecter_v1", scored_fit4)] e = Some r).
  { exists "v1", scored_v1_fit4. split; [left; reflexivity | reflexivity]. }
  assert (H4 : ~ In "" ["v1"; "perfecter_v1"]).
  { intros [H|[H|[]]]; discriminate H. }
  repeat (split; [assumption|]).
  exact (ab_winner_without_gate_failure
           [("v1", scored_v1_fit4); ("perfecter_v1", scored_fit4)]
           ["v1"; "perfecter_v1"] None H1 H2 H3 H4).
Defined.

Lemma ab_winner_when_all_fail_witness :
  (forall e r, In e ["v1"; "perfecter_v1"] ->
               aget [("v1", scored_gate_skip); ("perfecter_v1", scored_gate_closed)] e
               = Some r ->
               is_hard_gate_failure r e = Ok true)
  /\ (exists e r, In e ["v1"; "perfecter_v1"]
                  /\ aget [("v1", scored_gate_skip); ("perfecter_v1", scored_gate_closed)] e
                     = Some r)
  /\ exists w rw,
       select_ab_winner [("v1", scored_gate_skip); ("perfecter_v1", scored_gate_closed)]
         ["v1"; "perfecter_v1"] None = Ok w
       /\ In w ["v1"; "perfecter_v1"]
       /\ aget [("v1", scored_gate_skip); ("perfecter_v1", scored_gate_closed)] w = Some rw
       /\ (forall r, In "perfecter_v1" ["v1"; "perfecter_v1"] ->
                     aget [("v1", scored_gate_skip); ("perfecter_v1", scored_gate_closed)]
                       "perfecter_v1" = Some r ->
                     w = "perfecter_v1").
Proof.
  assert (H1 : forall e r, In e ["v1"; "perfecter_v1"] ->
                 aget [("v1", scored_gate_skip); ("perfecter_v1", scored_gate_closed)] e
                 = Some r ->
                 is_hard_gate_failure r e = Ok true).
  { intros e r [<-|[<-|[]]] H; cbn in H; inversion H; subst; vm_compute; reflexivity. }
  assert (H2 : exists e r, In e ["v1"; "perfecter_v1"]
                 /\ aget [("v1", scored_gate_skip); ("perfecter_v1", scored_gate_closed)] e
                    = Some r).
  { exists "v1", scored_gate_skip. split; [left; reflexivity | reflexivity]. }
  repeat (split; [assumption|]).
  exact (ab_winner_when_all_fail
           [("v1", scored_gate_skip); ("perfecter_v1", scored_gate_closed)]
           ["v1"; "perfecter_v1"] None H1 H2).
Defined.

Lemma blank_description_is_skipped_witness :
  field_stripped rec_blank "JobDescriptionRaw" = Ok ""
  /\ exists w',
       score_job_record ex_int_of_str ex_float_of_str ex_str_other (loads_of [JDict []])
         ex_dumps ex_dumps_compact ex_dumps_sorted ex_html_unescape ex_sha256 ex_exn_str
         "PARSE <<JOB_DESCRIPTION>>" "V1 PROMPT" (FileText "PERFECTER PROMPT") ex_flags
         "2026-01-01T00:00:00+00:00" (llm_script []) store_accepts
         rec_blank ex_settings (JDict []) table_field_names_static
         ["JobURL"; "JobDescriptionRaw"] false "v1" None None "RUN_1" world0
       = (Ok (JobSkipped "no_description"), w')
       /\ llm_calls w' = llm_calls world0
       /\ (false = true -> store_writes w' = store_writes world0).
Proof.
  assert (H : field_stripped rec_blank "JobDescriptionRaw" = Ok "") by reflexivity.
  split; [exact H|].
  apply blank_description_is_skipped. exact H.
Defined.

Lemma diagnostic_modes_only_read_witness :
  (true = true \/ false = true
   \/ (exists c f, @None string = Some (String c f)) \/ @None Z <> None)
  /\ keeps Calls
       (run_scoring ex_int_of_str ex_float_of_str ex_str_other (loads_of [JDict []])
          ex_dumps ex_dumps_compact ex_dumps_sorted ex_html_unescape ex_sha256 ex_exn_str
          "PARSE <<JOB_DESCRIPTION>>" "V1 PROMPT" (FileText "PERFECTER PROMPT") ex_flags
          "RUN_1" "2026-01-01T00:00:00+00:00" (llm_script []) store_accepts
          (list_script [[rec_sample]; []; [rec_short]]) (find_script (Some rec_candidate))
          ex_settings 10%Z false true false None None "v1" None None)
  /\ keeps Writes
       (run_scoring ex_int_of_str ex_float_of_str ex_str_other (loads_of [JDict []])
          ex_dumps ex_dumps_compact ex_dumps_sorted ex_html_unescape ex_sha256 ex_exn_str
          "PARSE <<JOB_DESCRIPTION>>" "V1 PROMPT" (FileText "PERFECTER PROMPT") ex_flags
          "RUN_1" "2026-01-01T00:00:00+00:00" (llm_script []) store_accepts
          (list_script [[rec_sample]; []; [rec_short]]) (find_script (Some rec_candidate))
          ex_settings 10%Z false true false None None "v1" None None).
Proof.
  assert (H : true = true \/ false = true
              \/ (exists c f, @None string = Some (String c f)) \/ @None Z <> None)
    by (left; reflexivity).
  split; [exact H|].
  apply diagnostic_modes_only_read. exact H.
Defined.

Lemma score_job_description_result_witness :
  score_job_description ex_int_of_str ex_str_other (loads_of [legacy_reply])
    ex_html_unescape (llm_script [ex_dumps_compact legacy_reply]) ex_format_user_prompt
    "<p>Build ETL pipelines</p>" world0
  = (Ok [("fit_score", JInt 5); ("next_action", JStr "Skip");
         ("fit_reasons", JStr "Strong Python"); ("gaps_risks", JStr "")],
     snd (score_job_description ex_int_of_str ex_str_other (loads_of [legacy_reply])
            ex_html_unescape (llm_script [ex_dumps_compact legacy_reply])
            ex_format_user_prompt "<p>Build ETL pipelines</p>" world0))
  /\ exists text d a fit action reasons gaps,
       llm_script [ex_dumps_compact legacy_reply] (llm_calls world0) "gpt-4o-mini"
         (ex_format_user_prompt (clean_job_text ex_html_unescape "<p>Build ETL pipelines</p>"))
       = Ok text
       /\ safe_parse_json (loads_of [legacy_reply]) text = JDict d
       /\ dget_default d "NextAction" (JStr "") = JStr a
       /\ [("fit_score", JInt 5); ("next_action", JStr "Skip");
           ("fit_reasons", JStr "Strong Python"); ("gaps_risks", JStr "")]
          = [("fit_score", JInt fit); ("next_action", JStr action);
             ("fit_reasons", JStr reasons); ("gaps_risks", JStr gaps)]
       /\ normalize_fit_value ex_int_of_str (dget d "FitScore") = Ok fit
       /\ (1 <= fit <= 5)%Z
       /\ In action valid_actions
       /\ (In (py_strip a) valid_actions -> action = py_strip a)
       /\ (~ In (py_strip a) valid_actions -> action = "Skip")
       /\ reasons = (let v := dget_default d "FitReasons" (JStr "") in
                     if truthy v then str_take 300 (py_str ex_str_other v) else "")
       /\ gaps = (let v := dget_default d "GapsRisks" (JStr "") in
                  if truthy v then str_take 300 (py_str ex_str_other v) else "")
       /\ String.length reasons <= 300 /\ String.length gaps <= 300
       /\ llm_calls
            (snd (score_job_description ex_int_of_str ex_str_other
                    (loads_of [legacy_reply]) ex_html_unescape
                    (llm_script [ex_dumps_compact legacy_reply]) ex_format_user_prompt
                    "<p>Build ETL pipelines</p>" world0))
          = llm_calls world0 + 1.
Proof.
  assert (H : score_job_description ex_int_of_str ex_str_other (loads_of [legacy_reply])
                ex_html_unescape (llm_script [ex_dumps_compact legacy_reply])
                ex_format_user_prompt "<p>Build ETL pipelines</p>" world0
              = (Ok [("fit_score", JInt 5); ("next_action", JStr "Skip");
                     ("fit_reasons", JStr "Strong Python"); ("gaps_risks", JStr "")],
                 snd (score_job_description ex_int_of_str ex_str_other
                        (loads_of [legacy_reply]) ex_html_unescape
                        (llm_script [ex_dumps_compact legacy_reply]) ex_format_user_prompt
                        "<p>Build ETL pipelines</p>" world0)))
    by (vm_compute; reflexivity).
  split; [exact H|].
  eapply score_job_description_result. exact H.
Defined.

Lemma score_record_never_raises_witness :
  field_stripped rec_short "JobDescriptionRaw" = Ok "<p>Short &amp; sweet</p>"
  /\ exists result w',
       score_record ex_int_of_str ex_str_other (loads_of [legacy_reply]) ex_html_unescape
         ex_exn_str (llm_script ["no json"]) ex_format_user_prompt rec_short world0
       = (Ok result, w')
       /\ In (dget result "status") [JStr "scored"; JStr "skipped"; JStr "error"]
       /\ ("<p>Short &amp; sweet</p>" = ""
           \/ truthy (dget (rec_fields rec_short) "FitScore") = true ->
           dget result "status" = JStr "skipped" /\ w' = world0)
       /\ ("<p>Short &amp; sweet</p>" <> "" ->
           truthy (dget (rec_fields rec_short) "FitScore") = false ->
           llm_calls w' = llm_calls world0 + 1
           /\ dget result "status" <> JStr "skipped").
Proof.
  assert (H : field_stripped rec_short "JobDescriptionRaw"
              = Ok "<p>Short &amp; sweet</p>") by reflexivity.
  split; [exact H|].
  apply score_record_never_raises. exact H.
Defined.
